(** * Statement parser: the transaction-table pipeline of [pdf_processor.py]

    A shallow embedding of the functions of [src/pdf_processor.py] and the
    properties of the pipeline they form.

    Conventions of the embedding.
    - A Python [str] is a [string] of ASCII characters;  [\d], [upper()] and
      [strip()] are given on that alphabet.
    - A Python exception is a value of [exn]; a call that may raise returns
      a [result].
    - [decimal.Decimal] is a sign, a coefficient and an exponent, with the
      arithmetic of the default context (28 significant digits, rounding
      half to even) written out.  The exponent limits of the context
      (Emax = 999999, Emin = -999999) are not modelled: no text of fewer
      than a million characters reaches them.
    - A [pandas.DataFrame] is its column labels and its rows; row labels are
      not modelled, every operation of the pipeline is positional in the
      rows. *)

From Stdlib Require Import Bool Arith ZArith NArith QArith Qpower Lia List.
From Stdlib Require Import Ascii String.
Import ListNotations.

Local Close Scope Q_scope.
Local Open Scope string_scope.
Local Open Scope list_scope.

(* ===================================================================== *)
(** ** Exceptions and results *)
(* ===================================================================== *)

(** The Python exception classes the pipeline can raise.
    [InvalidOperation] is [decimal.InvalidOperation], an [ArithmeticError],
    not a [ValueError]. *)
Inductive exn : Type :=
  | ValueError
  | InvalidOperation
  | AttributeError
  | TypeError
  | IndexError.

Inductive result (A : Type) : Type :=
  | Return (a : A)
  | Raise (e : exn).

Arguments Return {A} a.
Arguments Raise {A} e.

Definition bind {A B : Type} (m : result A) (k : A -> result B) : result B :=
  match m with
  | Return a => k a
  | Raise e => Raise e
  end.

Declare Scope result_scope.
Delimit Scope result_scope with result.
Notation "x <- m ;; k" := (bind m (fun x => k))
  (at level 61, m at next level, right associativity) : result_scope.

(** [[f(x) for x in l]], stopping at the first exception. *)
Fixpoint mapM {A B : Type} (f : A -> result B) (l : list A) : result (list B) :=
  match l with
  | [] => Return []
  | a :: l' =>
      match f a with
      | Raise e => Raise e
      | Return b =>
          match mapM f l' with
          | Raise e => Raise e
          | Return bs => Return (b :: bs)
          end
      end
  end.

Definition succeeds {A : Type} (m : result A) : bool :=
  match m with Return _ => true | Raise _ => false end.

(* ===================================================================== *)
(** ** Strings *)
(* ===================================================================== *)

Definition is_digit (c : ascii) : bool :=
  (48 <=? nat_of_ascii c)%nat && (nat_of_ascii c <=? 57)%nat.

Definition digit_value (c : ascii) : N := N.of_nat (nat_of_ascii c - 48).

(** [str.isspace] on ASCII: tab, line feed, vertical tab, form feed,
    carriage return, the four separators 0x1c..0x1f and the space. *)
Definition is_space (c : ascii) : bool :=
  let n := nat_of_ascii c in
  ((9 <=? n)%nat && (n <=? 13)%nat) || ((28 <=? n)%nat && (n <=? 32)%nat).

Fixpoint str_forallb (p : ascii -> bool) (s : string) : bool :=
  match s with
  | EmptyString => true
  | String c s' => p c && str_forallb p s'
  end.

Fixpoint str_filter (p : ascii -> bool) (s : string) : string :=
  match s with
  | EmptyString => EmptyString
  | String c s' => if p c then String c (str_filter p s') else str_filter p s'
  end.

Fixpoint str_map (f : ascii -> ascii) (s : string) : string :=
  match s with
  | EmptyString => EmptyString
  | String c s' => String (f c) (str_map f s')
  end.

(** The longest prefix of [s] whose characters satisfy [p], and the rest. *)
Fixpoint span (p : ascii -> bool) (s : string) : string * string :=
  match s with
  | EmptyString => (EmptyString, EmptyString)
  | String c s' =>
      if p c then let (a, b) := span p s' in (String c a, b)
      else (EmptyString, s)
  end.

Definition is_empty (s : string) : bool :=
  match s with EmptyString => true | _ => false end.

(** [s[n:]] *)
Fixpoint slice_from (n : nat) (s : string) : string :=
  match n, s with
  | O, _ => s
  | S n', EmptyString => EmptyString
  | S n', String _ s' => slice_from n' s'
  end.

(** [s.startswith(p)] *)
Fixpoint startswith (s p : string) {struct p} : bool :=
  match p with
  | EmptyString => true
  | String a p' =>
      match s with
      | EmptyString => false
      | String b s' => Ascii.eqb a b && startswith s' p'
      end
  end.

(** [needle in hay] *)
Fixpoint str_in (needle hay : string) : bool :=
  startswith hay needle ||
  match hay with
  | EmptyString => false
  | String _ hay' => str_in needle hay'
  end.

(** [s.replace(c, '')] for a one-character [c]. *)
Definition remove_char (c : ascii) (s : string) : string :=
  str_filter (fun x => negb (Ascii.eqb x c)) s.

Fixpoint lstrip (s : string) : string :=
  match s with
  | EmptyString => EmptyString
  | String c s' => if is_space c then lstrip s' else s
  end.

Fixpoint rstrip (s : string) : string :=
  match s with
  | EmptyString => EmptyString
  | String c s' =>
      match rstrip s' with
      | EmptyString => if is_space c then EmptyString else String c EmptyString
      | r => String c r
      end
  end.

(** [s.strip()] *)
Definition strip (s : string) : string := rstrip (lstrip s).

(** [s[-1]], when there is one. *)
Fixpoint str_last (s : string) : option ascii :=
  match s with
  | EmptyString => None
  | String c EmptyString => Some c
  | String _ s' => str_last s'
  end.

(** [s.upper()] on ASCII. *)
Definition upper_char (c : ascii) : ascii :=
  let n := nat_of_ascii c in
  if (97 <=? n)%nat && (n <=? 122)%nat then ascii_of_nat (n - 32) else c.

Definition upper (s : string) : string := str_map upper_char s.

(** The line feed character. *)
Definition LF : ascii := ascii_of_nat 10.

(* ===================================================================== *)
(** ** [decimal.Decimal] *)
(* ===================================================================== *)

(** A finite [Decimal]: the fields [_sign], [_int] and [_exp] of the Python
    class.  Its value is [(-1)^_sign * _int * 10^_exp]. *)
Record Decimal : Type := mkDecimal {
  d_sign : bool;
  d_int : N;
  d_exp : Z
}.

(** [int(digits)] for a string of ASCII digits, read from the left. *)
Fixpoint int_of_digits_acc (acc : N) (s : string) : N :=
  match s with
  | EmptyString => acc
  | String c s' => int_of_digits_acc (acc * 10 + digit_value c)%N s'
  end.

Definition int_of_digits (s : string) : N := int_of_digits_acc 0 s.

(** The numeric part of the grammar of [Decimal(str)], after the sign: a
    run of digits, then optionally a dot and a run of digits, up to the end
    of the text; the text must start with a digit or with a dot and a
    digit (the lookahead of the grammar). *)
Definition Decimal_of_digits (sign : bool) (rest : string) : result Decimal :=
  let (intpart, rest1) := span is_digit rest in
  let (fracpart, rest2) :=
    match rest1 with
    | String "." r => span is_digit r
    | _ => (EmptyString, rest1)
    end in
  if (negb (is_empty intpart) || negb (is_empty fracpart)) && is_empty rest2 then
    Return {| d_sign := sign;
              d_int := int_of_digits (intpart ++ fracpart)%string;
              d_exp := - Z.of_nat (String.length fracpart) |}
  else Raise InvalidOperation.

(** [Decimal(value)] for a [str], on the grammar
    [sign? (digits ('.' digits?)? | '.' digits)] after [strip()] and the
    removal of underscores.  The exponent part and the special values
    ([Infinity], [NaN]) of the full grammar need letters, which no text
    given to [Decimal] by [clean_amount] contains. A text outside the
    grammar raises [InvalidOperation] (the [ConversionSyntax] signal, which
    the default context traps).  The constructor is exact: the precision of
    the context does not apply to it. *)
Definition Decimal_of_string (value : string) : result Decimal :=
  let v := remove_char "_" (strip value) in
  match v with
  | String "-" r => Decimal_of_digits true r
  | String "+" r => Decimal_of_digits false r
  | _ => Decimal_of_digits false v
  end.

(** The numeric value of a [Decimal]. *)
Definition signed_int (d : Decimal) : Z :=
  if d_sign d then (- Z.of_N (d_int d))%Z else Z.of_N (d_int d).

Definition Dval (d : Decimal) : Q :=
  (inject_Z (signed_int d) * Qpower (inject_Z 10) (d_exp d))%Q.

(** *** Digits

    [str(n)] for a natural number: its decimal digits, most significant
    first (["0"] for zero).  The number of binary digits of [n] is fuel
    enough. *)
Definition digit_char (n : N) : ascii := ascii_of_N (48 + n).

Fixpoint digits_fuel (fuel : nat) (n : N) (acc : string) : string :=
  let acc' := String (digit_char (n mod 10)) acc in
  match fuel with
  | O => acc'
  | S fuel' => if (n <? 10)%N then acc' else digits_fuel fuel' (n / 10)%N acc'
  end.

Definition str_of_N (n : N) : string := digits_fuel (N.size_nat n) n EmptyString.

(** [c * n]: the character [c] repeated [n] times. *)
Fixpoint str_repeat (c : ascii) (n : nat) : string :=
  match n with
  | O => EmptyString
  | S n' => String c (str_repeat c n')
  end.

(** [s[:n]] *)
Fixpoint slice_to (n : nat) (s : string) : string :=
  match n, s with
  | O, _ => EmptyString
  | S n', EmptyString => EmptyString
  | S n', String c s' => String c (slice_to n' s')
  end.

(** ["%+d" % z] *)
Definition str_of_Z_signed (z : Z) : string :=
  ((if (z <? 0)%Z then "-" else "+") ++ str_of_N (Z.to_N (Z.abs z)))%string.

(** [Decimal.__str__] for a finite decimal: plain notation when the
    exponent is not positive and there are at most six zeros after the
    point before the first digit, scientific notation otherwise. *)
Definition Decimal_str (d : Decimal) : string :=
  let sign := if d_sign d then "-" else "" in
  let _int := str_of_N (d_int d) in
  let len := Z.of_nat (String.length _int) in
  let leftdigits := (d_exp d + len)%Z in
  let dotplace :=
    if (d_exp d <=? 0)%Z && (-6 <? leftdigits)%Z then leftdigits else 1%Z in
  let intpart :=
    if (dotplace <=? 0)%Z then "0"
    else if (len <=? dotplace)%Z
         then (_int ++ str_repeat "0" (Z.to_nat (dotplace - len)))%string
         else slice_to (Z.to_nat dotplace) _int in
  let fracpart :=
    if (dotplace <=? 0)%Z
    then ("." ++ str_repeat "0" (Z.to_nat (- dotplace)) ++ _int)%string
    else if (len <=? dotplace)%Z then ""
         else ("." ++ slice_from (Z.to_nat dotplace) _int)%string in
  let exp :=
    if (leftdigits =? dotplace)%Z then ""
    else ("E" ++ str_of_Z_signed (leftdigits - dotplace))%string in
  (sign ++ intpart ++ fracpart ++ exp)%string.

(** *** Arithmetic in the default context *)

(** [getcontext().prec] *)
Definition prec : nat := 28.

(** [len(self._int)]: the number of decimal digits of the coefficient
    (one for zero). *)
Fixpoint ndigits_fuel (fuel : nat) (n : N) : nat :=
  match fuel with
  | O => 1
  | S fuel' => if (n <? 10)%N then 1 else S (ndigits_fuel fuel' (n / 10)%N)
  end.

Definition ndigits (n : N) : nat := ndigits_fuel (N.size_nat n) n.

(** [Decimal._fix] with [ROUND_HALF_EVEN]: a coefficient of more than
    [prec] digits is rounded to [prec] digits, half to even; when the
    rounding carries into a new digit the last digit is dropped and the
    exponent grows by one. *)
Definition _fix (d : Decimal) : Decimal :=
  let len := ndigits (d_int d) in
  if (len <=? prec)%nat then d
  else
    let shift := N.of_nat (len - prec) in
    let q := (d_int d / 10 ^ shift)%N in
    let r := (d_int d mod 10 ^ shift)%N in
    let half := (5 * 10 ^ (shift - 1))%N in
    let up := if (r =? half)%N && N.even q then false else (half <=? r)%N in
    let q' := if up then (q + 1)%N else q in
    if (q' =? 10 ^ N.of_nat prec)%N
    then {| d_sign := d_sign d;
            d_int := (10 ^ N.of_nat (prec - 1))%N;
            d_exp := d_exp d + Z.of_N shift + 1 |}
    else {| d_sign := d_sign d; d_int := q'; d_exp := d_exp d + Z.of_N shift |}.

(** The exact sum: the signed coefficients are added at the smaller of the
    two exponents.  A zero sum is negative only when both operands are
    negative zeros. *)
Definition exact_add (a b : Decimal) : Decimal :=
  let e := Z.min (d_exp a) (d_exp b) in
  let z := (signed_int a * 10 ^ (d_exp a - e) + signed_int b * 10 ^ (d_exp b - e))%Z in
  {| d_sign := if (z =? 0)%Z then d_sign a && d_sign b else (z <? 0)%Z;
     d_int := Z.to_N (Z.abs z);
     d_exp := e |}.

(** [Decimal.__add__]: the exact sum, then [_fix]. *)
Definition Decimal_add (a b : Decimal) : Decimal := _fix (exact_add a b).

(** [Decimal.__neg__]: the negation of a zero is the positive zero. *)
Definition Decimal_neg (a : Decimal) : Decimal :=
  _fix {| d_sign := if (d_int a =? 0)%N then false else negb (d_sign a);
          d_int := d_int a;
          d_exp := d_exp a |}.

(** [Decimal.__eq__]: comparison of the values, exact. *)
Definition Decimal_eqb (a b : Decimal) : bool :=
  let e := Z.min (d_exp a) (d_exp b) in
  (signed_int a * 10 ^ (d_exp a - e) =? signed_int b * 10 ^ (d_exp b - e))%Z.

(** [d < 0] *)
Definition Decimal_ltb_0 (d : Decimal) : bool :=
  d_sign d && negb (d_int d =? 0)%N.

(** [Decimal(n)] for an [int]. *)
Definition Decimal_of_int (n : Z) : Decimal :=
  {| d_sign := (n <? 0)%Z; d_int := Z.to_N (Z.abs n); d_exp := 0 |}.

(** A number as [Series.sum] meets it: a Python [int] or a [Decimal]. *)
Inductive pynum : Type :=
  | PyInt (n : Z)
  | PyDec (d : Decimal).

(** [d + b] for a [Decimal] [d]; an [int] operand is converted first. *)
Definition Decimal_add_num (d : Decimal) (b : pynum) : Decimal :=
  match b with
  | PyInt n => Decimal_add d (Decimal_of_int n)
  | PyDec d' => Decimal_add d d'
  end.

(** [a + b] *)
Definition py_add (a b : pynum) : pynum :=
  match a with
  | PyInt m =>
      match b with
      | PyInt n => PyInt (m + n)
      | PyDec d => PyDec (Decimal_add d (Decimal_of_int m))
      end
  | PyDec d => PyDec (Decimal_add_num d b)
  end.

(* ===================================================================== *)
(** ** [clean_amount] *)
(* ===================================================================== *)

(** The character class [[\d,-]]. *)
Definition amount_class (c : ascii) : bool :=
  is_digit c || Ascii.eqb c "," || Ascii.eqb c "-".

(** Does the whole of [s] match [[\d,-]+\.\d+] ?  The class does not
    contain the dot, so the greedy [[\d,-]+] ends at the first dot. *)
Definition amount_fullmatch (s : string) : bool :=
  let (x, r) := span amount_class s in
  match r with
  | String "." d => negb (is_empty x) && negb (is_empty d) && str_forallb is_digit d
  | _ => false
  end.

(** A match of [([\d,-]+\.\d+)$] starting at the first character of [s].
    Without [re.MULTILINE], [$] matches at the end of the text and just
    before a line feed that ends the text.  The result is group 1. *)
Definition amount_match_here (s : string) : option string :=
  if amount_fullmatch s then Some s
  else
    let (x, r) := span amount_class s in
    match r with
    | String "." d =>
        let (ds, tl) := span is_digit d in
        if negb (is_empty x) && negb (is_empty ds)
           && String.eqb tl (String LF EmptyString)
        then Some (x ++ String "." ds)%string else None
    | _ => None
    end.

(** [re.search(r'([\d,-]+\.\d+)$', s)]: the match at the leftmost start
    position that has one; the result is group 1, [None] for no match. *)
Fixpoint re_search_amount (s : string) : option string :=
  match amount_match_here s with
  | Some m => Some m
  | None =>
      match s with
      | EmptyString => None
      | String _ s' => re_search_amount s'
      end
  end.

(** The first statement of [clean_amount]: a leading ["- "] loses its
    space. *)
Definition join_minus (amount_str : string) : string :=
  if startswith amount_str "- " then ("-" ++ slice_from 2 amount_str)%string
  else amount_str.

Definition clean_amount (amount_str : string) : result Decimal :=
  let amount_str := join_minus amount_str in
  match re_search_amount amount_str with
  | None => Raise ValueError
  | Some group1 =>
      let amount_str := strip (remove_char "," group1) in
      Decimal_of_string amount_str
  end.

(** *** The amount pattern, declaratively

    The language of [[\d,-]+\.\d+], a text that ends with a word of it
    (at its end, or before a final line feed), and the match [re.search]
    reports: the one that starts leftmost, hence the longest. *)
Definition amount_pattern (m : string) : Prop :=
  exists x d, m = (x ++ String "." d)%string
    /\ x <> EmptyString /\ str_forallb amount_class x = true
    /\ d <> EmptyString /\ str_forallb is_digit d = true.

Definition ends_with_amount (t m : string) : Prop :=
  amount_pattern m /\
  exists pre, t = (pre ++ m)%string \/ t = (pre ++ m ++ String LF EmptyString)%string.

Definition amount_match (t m : string) : Prop :=
  ends_with_amount t m /\
  forall m', ends_with_amount t m' -> (String.length m' <= String.length m)%nat.

(** A numeral [-?digits.digits]: a comma-free text of the amount pattern
    whose only minus sign, if any, is its first character. *)
Definition plain_numeral (u : string) : bool :=
  let body := match u with String "-" r => r | _ => u end in
  str_forallb (fun c => negb (Ascii.eqb c "-")) body.

(** The value a numeral denotes in positional notation: the integer part
    read from the left, each fraction digit a tenth of the place before. *)
Fixpoint integer_value (acc : Q) (i : string) : Q :=
  match i with
  | EmptyString => acc
  | String c i' => integer_value (acc * inject_Z 10 + inject_Z (Z.of_N (digit_value c)))%Q i'
  end.

Fixpoint fraction_value (f : string) : Q :=
  match f with
  | EmptyString => 0%Q
  | String c f' => ((inject_Z (Z.of_N (digit_value c)) + fraction_value f') / inject_Z 10)%Q
  end.

Definition numeral_value (u : string) : Q :=
  let (neg, body) :=
    match u with String "-" r => (true, r) | _ => (false, u) end in
  let (i, r) := span is_digit body in
  let f := match r with String "." f => f | _ => EmptyString end in
  let v := (integer_value 0 i + fraction_value f)%Q in
  if neg then (- v)%Q else v.

(* ===================================================================== *)
(** ** Tables *)
(* ===================================================================== *)

(** A calendar day, as [pandas.Timestamp] holds it for a date without a
    time of day. *)
Record Timestamp : Type := mkTimestamp {
  ts_year : nat;
  ts_month : nat;
  ts_day : nat
}.

(** A cell of a table as the extractor gives it: a text, or the missing
    value (the float [nan]). *)
Inductive cell : Type :=
  | Str (s : string)
  | NaN.

(** A cell of a table after [convert_data_types]: the first column holds
    [Timestamp]s (or [NaT]), the last [Decimal]s, the others are as before. *)
Inductive obj : Type :=
  | OStr (s : string)
  | ONaN
  | ONaT
  | OTs (t : Timestamp)
  | ODec (d : Decimal).

Definition obj_of_cell (c : cell) : obj :=
  match c with
  | Str s => OStr s
  | NaN => ONaN
  end.

(** A [DataFrame]: the column labels and the rows, each row with one cell
    per column. *)
Record DataFrame (A : Type) : Type := mkDataFrame {
  columns : list string;
  rows : list (list A)
}.

Arguments mkDataFrame {A} columns rows.
Arguments columns {A} d.
Arguments rows {A} d.

Definition well_formed {A : Type} (df : DataFrame A) : Prop :=
  Forall (fun r => List.length r = List.length (columns df)) (rows df).

(* ===================================================================== *)
(** ** [validate_transaction_totals] *)
(* ===================================================================== *)

(** What a cell brings to [Series.sum] on a column of objects: missing
    values are replaced by the [int] 0 ([skipna]); a text or a
    [Timestamp] cannot be added to a [Decimal]. *)
Definition summand (o : obj) : result pynum :=
  match o with
  | ODec d => Return (PyDec d)
  | ONaN | ONaT => Return (PyInt 0)
  | OStr _ | OTs _ => Raise TypeError
  end.

(** [Series.sum()] of a column of objects: the [int] 0 for no element, the
    element itself for one, otherwise the elements added from the left
    with [+]. *)
Definition Series_sum (values : list obj) : result pynum :=
  match mapM summand values with
  | Raise e => Raise e
  | Return [] => Return (PyInt 0)
  | Return (n :: ns) => Return (fold_left py_add ns n)
  end.

(** [df.iloc[:, -1]]: the last cell of every row. *)
Definition last_column (df : DataFrame obj) : result (list obj) :=
  match columns df with
  | [] => Raise IndexError
  | _ :: _ => Return (map (fun r => last r ONaN) (rows df))
  end.

Definition validate_transaction_totals
    (df : DataFrame obj) (starting_balance ending_balance : Decimal) : result unit :=
  match last_column df with
  | Raise e => Raise e
  | Return values =>
      match Series_sum values with
      | Raise e => Raise e
      | Return total_amount =>
          if negb (Decimal_eqb (Decimal_add_num starting_balance total_amount)
                               ending_balance)
          then Raise ValueError
          else Return tt
      end
  end.

(* ===================================================================== *)
(** ** [validate_transaction_table_columns] *)
(* ===================================================================== *)

Definition expected_columns : nat := 4.

Definition expected_keywords : list (list string) :=
  [ ["TRANS. DATE"];       (* Transaction date column *)
    ["POSTING DATE"];      (* Posting date column *)
    ["DESCRIPTION"];       (* Description column *)
    ["AMOUNT"; "BAHT"] ].  (* Amount column *)

(** The function only prints when it rejects; the messages are not
    modelled.  [table_index] is used in the messages alone. *)
Definition validate_transaction_table_columns {A : Type}
    (df : DataFrame A) (table_index : nat) : bool :=
  if negb (List.length (columns df) =? expected_columns)%nat then false
  else
    forallb
      (fun '(col_name, keywords) =>
         let col_name_upper := upper col_name in
         forallb (fun keyword => str_in keyword col_name_upper) keywords)
      (combine (columns df) expected_keywords).


(* ===================================================================== *)
(** ** Dates: [pd.to_datetime(text, format='%d/%m/%y')] *)
(* ===================================================================== *)

Definition digit_nat (c : ascii) : nat := nat_of_ascii c - 48.

Definition is_digit_1_9 (c : ascii) : bool :=
  (49 <=? nat_of_ascii c)%nat && (nat_of_ascii c <=? 57)%nat.

(** The directive [%d]: [3[0-1]|[1-2]\d|0[1-9]|[1-9]| [1-9]]. *)
Definition directive_d (s : string) : option nat :=
  match s with
  | String a (String b EmptyString) =>
      if Ascii.eqb a "3" && (Ascii.eqb b "0" || Ascii.eqb b "1")
      then Some (30 + digit_nat b)
      else if (Ascii.eqb a "1" || Ascii.eqb a "2") && is_digit b
      then Some (10 * digit_nat a + digit_nat b)
      else if (Ascii.eqb a "0" || Ascii.eqb a " ") && is_digit_1_9 b
      then Some (digit_nat b)
      else None
  | String a EmptyString => if is_digit_1_9 a then Some (digit_nat a) else None
  | _ => None
  end.

(** The directive [%m]: [1[0-2]|0[1-9]|[1-9]]. *)
Definition directive_m (s : string) : option nat :=
  match s with
  | String a (String b EmptyString) =>
      if Ascii.eqb a "1" && (Ascii.eqb b "0" || Ascii.eqb b "1" || Ascii.eqb b "2")
      then Some (10 + digit_nat b)
      else if Ascii.eqb a "0" && is_digit_1_9 b
      then Some (digit_nat b)
      else None
  | String a EmptyString => if is_digit_1_9 a then Some (digit_nat a) else None
  | _ => None
  end.

(** The directive [%y]: two digits; 00..68 are 2000..2068 and 69..99 are
    1969..1999. *)
Definition directive_y (s : string) : option nat :=
  match s with
  | String a (String b EmptyString) =>
      if is_digit a && is_digit b then
        let y := 10 * digit_nat a + digit_nat b in
        Some (if (y <=? 68)%nat then 2000 + y else 1900 + y)
      else None
  | _ => None
  end.

Definition is_leap (year : nat) : bool :=
  ((year mod 4 =? 0) && negb (year mod 100 =? 0) || (year mod 400 =? 0))%nat.

Definition days_in_month (year month : nat) : nat :=
  match month with
  | 2 => if is_leap year then 29 else 28
  | 4 | 6 | 9 | 11 => 30
  | _ => 31
  end.

(** The text up to the first ["/"] and the text after it. *)
Fixpoint split_slash (s : string) : option (string * string) :=
  match s with
  | EmptyString => None
  | String c s' =>
      if Ascii.eqb c "/" then Some (EmptyString, s')
      else match split_slash s' with
           | Some (a, b) => Some (String c a, b)
           | None => None
           end
  end.

(** The whole text matches [%d/%m/%y] (the match is exact: nothing may
    follow the year) and names a day that exists. *)
Definition strptime_dmy (s : string) : option Timestamp :=
  match split_slash s with
  | Some (d, rest) =>
      match split_slash rest with
      | Some (m, y) =>
          match directive_d d, directive_m m, directive_y y with
          | Some day, Some month, Some year =>
              if (day <=? days_in_month year month)%nat
              then Some (mkTimestamp year month day) else None
          | _, _, _ => None
          end
      | None => None
      end
  | None => None
  end.

(** The texts pandas reads as a missing date. *)
Definition nat_strings : list string := ["NaT"; "nat"; "NAT"; "nan"; "NaN"; "NAN"].

(** [pd.to_datetime(x, format='%d/%m/%y')] on a cell, [errors='raise']: a
    missing value, the empty text and the texts of [nat_strings] give
    [NaT]; a text that does not match raises [ValueError]. *)
Definition to_datetime (x : cell) : result obj :=
  match x with
  | NaN => Return ONaT
  | Str s =>
      if is_empty s || existsb (String.eqb s) nat_strings then Return ONaT
      else match strptime_dmy s with
           | Some t => Return (OTs t)
           | None => Raise ValueError
           end
  end.

(** [pd.to_datetime(x, format='%d/%m/%y', errors='coerce')] *)
Definition to_datetime_coerce (x : cell) : obj :=
  match to_datetime x with
  | Return o => o
  | Raise _ => ONaT
  end.

(* ===================================================================== *)
(** ** Positions in rows *)
(* ===================================================================== *)

(** [l] with its [j]th element replaced by [x] ([l] itself when it has
    none). *)
Fixpoint set_nth {A : Type} (j : nat) (x : A) (l : list A) {struct l} : list A :=
  match l, j with
  | [], _ => []
  | _ :: l', O => x :: l'
  | a :: l', S j' => a :: set_nth j' x l'
  end.

(** [l] with its last element replaced by [x]. *)
Definition set_last {A : Type} (x : A) (l : list A) : list A :=
  match l with
  | [] => []
  | _ :: _ => removelast l ++ [x]
  end.

(** Two lists walked together. *)
Fixpoint map2 {A B C : Type} (f : A -> B -> C) (l : list A) (l' : list B) : list C :=
  match l, l' with
  | a :: t, b :: t' => f a b :: map2 f t t'
  | _, _ => []
  end.

(** [df[mask]]: the rows whose entry in the boolean mask is [True]. *)
Fixpoint select {A : Type} (mask : list bool) (l : list A) : list A :=
  match mask, l with
  | b :: mask', x :: l' => if b then x :: select mask' l' else select mask' l'
  | _, _ => []
  end.

(** The position of the first occurrence of a label. *)
Fixpoint index_of (x : string) (l : list string) : option nat :=
  match l with
  | [] => None
  | y :: l' =>
      if String.eqb y x then Some 0
      else match index_of x l' with
           | Some j => Some (S j)
           | None => None
           end
  end.

(* ===================================================================== *)
(** ** [clean_columns] *)
(* ===================================================================== *)

(** [str(x)] of a cell: the missing value is the float [nan]. *)
Definition py_str (x : cell) : string :=
  match x with
  | Str s => s
  | NaN => "nan"
  end.

(** [df.iloc[:, i].astype(str)] for every position [i], with the label of
    the column. *)
Definition str_columns (df : DataFrame cell) : list (string * list string) :=
  map (fun i => (nth i (columns df) EmptyString,
                 map (fun r => py_str (nth i r NaN)) (rows df)))
      (seq 0 (List.length (columns df))).

(** [combined_col += " " + other], element by element. *)
Definition add_column (combined_col other : list string) : list string :=
  map2 (fun a b => (a ++ " " ++ b)%string) combined_col other.

(** The [while] loop: the columns that follow and carry the same label are
    added to [combined_col].  The result is the combined column and
    [j - (i + 1)], the number of columns added. *)
Fixpoint look_ahead (col_name : string) (combined_col : list string)
    (rest : list (string * list string)) : list string * nat :=
  match rest with
  | (name, other) :: rest' =>
      if String.eqb name col_name then
        let (combined, k) := look_ahead col_name (add_column combined_col other) rest' in
        (combined, S k)
      else (combined_col, O)
  | [] => (combined_col, O)
  end.

(** [Series.replace('nan', '', regex=False)]: a value that is, whole, the
    text ["nan"] becomes the empty text; no other value changes. *)
Definition replace_nan (col : list string) : list string :=
  map (fun v => if String.eqb v "nan" then EmptyString else v) col.

(** [new_df[col_name] = values]: the column of that label is overwritten
    when there is one, a new last column is added otherwise. *)
Definition setitem (new_df : DataFrame cell) (col_name : string)
    (values : list string) : DataFrame cell :=
  match index_of col_name (columns new_df) with
  | Some j =>
      {| columns := columns new_df;
         rows := map2 (fun r v => set_nth j (Str v) r) (rows new_df) values |}
  | None =>
      {| columns := columns new_df ++ [col_name];
         rows := map2 (fun r v => r ++ [Str v]) (rows new_df) values |}
  end.

(** The [for] loop over the positions, from the position of the first
    column of [cols] on; [skip] is the number of positions the body has
    already taken from the iterator with [next(col_iter, None)]. *)
Fixpoint clean_columns_from (cols : list (string * list string)) (skip : nat)
    (new_df : DataFrame cell) : DataFrame cell :=
  match cols with
  | [] => new_df
  | (col_name, values) :: rest =>
      match skip with
      | S skip' => clean_columns_from rest skip' new_df
      | O =>
          let (combined_col, added) := look_ahead col_name values rest in
          clean_columns_from rest added
            (setitem new_df col_name (replace_nan combined_col))
      end
  end.

Definition clean_columns (df : DataFrame cell) : DataFrame cell :=
  let new_df := {| columns := []; rows := map (fun _ => []) (rows df) |} in
  clean_columns_from (str_columns df) 0 new_df.

(* ===================================================================== *)
(** ** [clean_transaction_data] *)
(* ===================================================================== *)

Definition notna (x : cell) : bool :=
  match x with
  | Str _ => true
  | NaN => false
  end.

(** [df[df.notna().all(axis=1)]] *)
Definition dropna_rows (df : DataFrame cell) : DataFrame cell :=
  let mask := map (forallb notna) (rows df) in
  {| columns := columns df; rows := select mask (rows df) |}.

(** The cells of a row whose column does not carry [label]. *)
Fixpoint drop_label {A : Type} (label : string) (cols : list string) (r : list A)
    : list A :=
  match cols, r with
  | c :: cols', x :: r' =>
      if String.eqb c label then drop_label label cols' r'
      else x :: drop_label label cols' r'
  | _, _ => []
  end.

(** [df.drop(df.columns[[1]], axis=1)]: the label of the second column is
    looked up, and every column that carries this label is dropped. *)
Definition drop_second_column {A : Type} (df : DataFrame A) : result (DataFrame A) :=
  match columns df with
  | _ :: label :: _ =>
      Return {| columns := filter (fun c => negb (String.eqb c label)) (columns df);
                rows := map (drop_label label (columns df)) (rows df) |}
  | _ => Raise IndexError
  end.

Definition is_valid_date (date_str : cell) : bool :=
  match to_datetime_coerce date_str with
  | ONaT => false
  | _ => true
  end.

Definition is_valid_amount (amount_str : cell) : bool :=
  succeeds (clean_amount (py_str amount_str)).

(** [df[date_mask & amount_mask]], the masks taken on the first and on the
    last column. *)
Definition validity_filter (df : DataFrame cell) : result (DataFrame cell) :=
  match columns df with
  | [] => Raise IndexError
  | _ :: _ =>
      (* Apply date validation to first column *)
      let date_mask := map (fun r => is_valid_date (nth 0 r NaN)) (rows df) in
      (* Apply amount validation to last column *)
      let amount_mask := map (fun r => is_valid_amount (last r NaN)) (rows df) in
      Return {| columns := columns df;
                rows := select (map2 andb date_mask amount_mask) (rows df) |}
  end.

Definition clean_transaction_data (df : DataFrame cell) : result (DataFrame cell) :=
  (* Drop rows with any null values *)
  let df := dropna_rows df in
  (* Drop the second column *)
  match drop_second_column df with
  | Raise e => Raise e
  | Return df =>
      (* Keep only rows that pass both validations *)
      validity_filter df
  end.

(* ===================================================================== *)
(** ** [convert_data_types] *)
(* ===================================================================== *)

(** [clean_amount] on a cell: only a text has [startswith]. *)
Definition clean_amount_obj (x : obj) : result Decimal :=
  match x with
  | OStr s => clean_amount s
  | _ => Raise AttributeError
  end.

(** The function changes the table it is given and returns it.  The
    pipeline never uses the table it passes again, so the change in place
    is the returned table here. *)
Definition convert_data_types (df : DataFrame cell) : result (DataFrame obj) :=
  match columns df with
  | [] => Raise IndexError
  | _ :: _ =>
      (* Convert the first column to datetime *)
      match mapM (fun r => to_datetime (nth 0 r NaN)) (rows df) with
      | Raise e => Raise e
      | Return dates =>
          let rows1 := map2 (fun r d => set_nth 0 d (map obj_of_cell r)) (rows df) dates in
          (* Convert last column to decimal *)
          match mapM (fun r => clean_amount_obj (last r ONaN)) rows1 with
          | Raise e => Raise e
          | Return amounts =>
              Return {| columns := columns df;
                        rows := map2 (fun r a => set_last (ODec a) r) rows1 amounts |}
          end
      end
  end.

(* ===================================================================== *)
(** ** [filter_payment_transactions] *)
(* ===================================================================== *)

(** [x < 0] on a cell of a column of objects: a missing value compares
    false, a text or a [Timestamp] cannot be compared with an [int]. *)
Definition lt_zero (x : obj) : result bool :=
  match x with
  | ODec d => Return (Decimal_ltb_0 d)
  | ONaN | ONaT => Return false
  | OStr _ | OTs _ => Raise TypeError
  end.

Definition is_missing (x : obj) : bool :=
  match x with
  | ONaN | ONaT => true
  | _ => false
  end.

(** The [.str] accessor checks the column: among the values that are not
    missing there must be none (an empty column), or a text, or values of
    mixed types; a column of [Decimal]s only, or of [Timestamp]s only, has
    no [.str]. *)
Definition str_accessor (values : list obj) : result unit :=
  let present := filter (fun x => negb (is_missing x)) values in
  let is_text x := match x with OStr _ => true | _ => false end in
  let is_dec x := match x with ODec _ => true | _ => false end in
  let is_ts x := match x with OTs _ => true | _ => false end in
  match present with
  | [] => Return tt
  | _ :: _ =>
      if existsb is_text present || (existsb is_dec present && existsb is_ts present)
      then Return tt
      else Raise AttributeError
  end.

(** One value of [.str.startswith('Payment')] as [&] reads it: a value that
    is not a text gives a missing value, which counts as [False]. *)
Definition str_startswith_Payment (x : obj) : bool :=
  match x with
  | OStr s => startswith s "Payment"
  | _ => false
  end.

Definition filter_payment_transactions (df : DataFrame obj) : result (DataFrame obj) :=
  match columns df with
  | [] => Raise IndexError
  | _ :: cols' =>
      (* df.iloc[:, -1] < 0 *)
      match mapM (fun r => lt_zero (last r ONaN)) (rows df) with
      | Raise e => Raise e
      | Return negative =>
          match cols' with
          | [] => Raise IndexError
          | _ :: _ =>
              (* df.iloc[:, 1].str.startswith('Payment') *)
              let second := map (fun r => nth 1 r ONaN) (rows df) in
              match str_accessor second with
              | Raise e => Raise e
              | Return _ =>
                  let payment := map str_startswith_Payment second in
                  let mask := map2 (fun a b => negb (a && b)) negative payment in
                  Return {| columns := columns df; rows := select mask (rows df) |}
              end
          end
      end
  end.

(* ===================================================================== *)
(** ** [flip_amount_sign] *)
(* ===================================================================== *)

(** [-x] on a cell. *)
Definition negate (x : obj) : result obj :=
  match x with
  | ODec d => Return (ODec (Decimal_neg d))
  | ONaN => Return ONaN
  | ONaT => Return ONaT
  | OStr _ | OTs _ => Raise TypeError
  end.

Definition flip_amount_sign (df : DataFrame obj) : result (DataFrame obj) :=
  match columns df with
  | [] => Raise IndexError
  | _ :: _ =>
      match mapM (fun r => negate (last r ONaN)) (rows df) with
      | Raise e => Raise e
      | Return flipped =>
          Return {| columns := columns df;
                    rows := map2 (fun r x => set_last x r) (rows df) flipped |}
      end
  end.

(* ===================================================================== *)
(** ** [save_to_csv] *)
(* ===================================================================== *)

(** [str(n)] padded with zeros on the left to [width] characters. *)
Definition zero_padded (width n : nat) : string :=
  let digits := str_of_N (N.of_nat n) in
  (str_repeat "0" (width - String.length digits) ++ digits)%string.

(** [str(t)] for a [Timestamp] at midnight. *)
Definition Timestamp_str (t : Timestamp) : string :=
  (zero_padded 4 (ts_year t) ++ "-" ++ zero_padded 2 (ts_month t) ++ "-"
   ++ zero_padded 2 (ts_day t) ++ " 00:00:00")%string.

(** The text [to_csv] writes for a cell: [na_rep=''] for a missing value,
    [str(x)] for an object. *)
Definition csv_field (x : obj) : string :=
  match x with
  | OStr s => s
  | ONaN | ONaT => EmptyString
  | OTs t => Timestamp_str t
  | ODec d => Decimal_str d
  end.

(** What [to_csv] gives the [csv] writer, which is not modelled below the
    fields: the bytes written before the text (the byte-order mark, for
    the encoding [utf-8-sig]), the fields of the header record and the
    fields of one record for each row. *)
Record CsvFile : Type := mkCsvFile {
  csv_prefix : list nat;
  csv_header : list string;
  csv_records : list (list string)
}.

(** The byte-order mark of UTF-8. *)
Definition BOM : list nat := [239; 187; 191]%nat.

(** [df.to_csv(path, index=False, encoding='utf-8-sig')] *)
Definition to_csv (df : DataFrame obj) : CsvFile :=
  {| csv_prefix := BOM;
     csv_header := columns df;
     csv_records := map (map csv_field) (rows df) |}.

(** The text before and the text after the last [c] of [s]. *)
Fixpoint rsplit (c : ascii) (s : string) : option (string * string) :=
  match s with
  | EmptyString => None
  | String x s' =>
      match rsplit c s' with
      | Some (a, b) => Some (String x a, b)
      | None => if Ascii.eqb x c then Some (EmptyString, s') else None
      end
  end.

(** [os.path.basename], [os.path.splitext(name)[0]] on a name without a
    separator, and [os.path.join], on POSIX paths. *)
Definition basename (p : string) : string :=
  match rsplit "/" p with
  | Some (_, b) => b
  | None => p
  end.

Definition splitext_root (name : string) : string :=
  match rsplit "." name with
  | Some (root, _) =>
      if str_forallb (fun c => Ascii.eqb c ".") root then name else root
  | None => name
  end.

Definition path_join (a b : string) : string :=
  if startswith b "/" then b
  else if is_empty a || match str_last a with
                        | Some c => Ascii.eqb c "/"
                        | None => false
                        end
       then (a ++ b)%string
       else (a ++ "/" ++ b)%string.

(** What a run does that can be seen from outside: it prints, and it
    writes files.  The trace also records the calls of the functions of
    the pipeline, in the order in which they are made, and the exception
    with which a call ends when it raises. *)
Inductive pipeline_function : Type :=
  | Fclean_transaction_data
  | Fconvert_data_types
  | Fvalidate_transaction_totals
  | Ffilter_payment_transactions
  | Fflip_amount_sign
  | Fsave_to_csv.

Inductive event : Type :=
  | Printed (message : string)
  | Call (f : pipeline_function)
  | Failed (f : pipeline_function) (e : exn)
  | FileWritten (path : string) (content : CsvFile).

(** A computation that leaves a trace and returns or raises. *)
Definition traced (A : Type) : Type := (list event * result A)%type.

Definition tret {A : Type} (a : A) : traced A := ([], Return a).

Definition tbind {A B : Type} (m : traced A) (k : A -> traced B) : traced B :=
  match m with
  | (t, Raise e) => (t, Raise e)
  | (t, Return a) => let (t', r) := k a in (t ++ t', r)
  end.

Definition emit (e : event) : traced unit := ([e], Return tt).

Definition lift {A : Type} (r : result A) : traced A := ([], r).

(** The call of a function of the pipeline: the call is recorded, then the
    function runs; an exception it raises is recorded and goes on to the
    caller. *)
Definition call {A : Type} (f : pipeline_function) (m : traced A) : traced A :=
  match m with
  | (t, Return a) => (Call f :: t, Return a)
  | (t, Raise e) => (Call f :: t ++ [Failed f e], Raise e)
  end.

Declare Scope traced_scope.
Delimit Scope traced_scope with traced.
Notation "x <- m ;; k" := (tbind m (fun x => k))
  (at level 61, m at next level, right associativity) : traced_scope.
Notation "m ;; k" := (tbind m (fun _ => k))
  (at level 61, right associativity) : traced_scope.

(** The messages are kept without the values formatted into them. *)
Definition save_to_csv (df : DataFrame obj) (output_dir original_filename : string)
    : traced unit :=
  (* Remove .pdf extension if present and add .csv *)
  let base_name := splitext_root (basename original_filename) in
  let csv_path := path_join output_dir (base_name ++ ".csv")%string in
  (emit (FileWritten csv_path (to_csv df)) ;;
   emit (Printed "Saved result to: "))%traced.

(* ===================================================================== *)
(** ** [process_pdf] *)
(* ===================================================================== *)

(** The labels of [pd.concat(dfs)]: those of the tables, each label at its
    first appearance. *)
Definition union_columns (dfs : list (DataFrame cell)) : list string :=
  fold_left
    (fun acc df =>
       acc ++ filter (fun c => negb (existsb (String.eqb c) acc)) (columns df))
    dfs [].

(** A row of a table with the labels [cols], laid out on the labels
    [all_cols]; a column the table does not have is filled with [NaN]. *)
Definition reindex_row (all_cols cols : list string) (r : list cell) : list cell :=
  map (fun c => match index_of c cols with
                | Some j => nth j r NaN
                | None => NaN
                end) all_cols.

(** [pd.concat(dfs)] for tables whose labels are, in each table, pairwise
    different (those [clean_columns] returns are). *)
Definition concat (dfs : list (DataFrame cell)) : DataFrame cell :=
  let all_cols := union_columns dfs in
  {| columns := all_cols;
     rows := flat_map (fun df => map (reindex_row all_cols (columns df)) (rows df)) dfs |}.

(** [df.iloc[0, -1]] and [df.iloc[-1, -1]] *)
Definition first_row_last_cell (df : DataFrame cell) : result cell :=
  match columns df, rows df with
  | _ :: _, r :: _ => Return (last r NaN)
  | _, _ => Raise IndexError
  end.

Definition last_row_last_cell (df : DataFrame cell) : result cell :=
  match columns df, rows df with
  | _ :: _, _ :: _ => Return (last (last (rows df) []) NaN)
  | _, _ => Raise IndexError
  end.

(** [clean_amount] on a cell of a raw table. *)
Definition clean_amount_cell (x : cell) : result Decimal :=
  match x with
  | Str s => clean_amount s
  | NaN => Raise AttributeError
  end.

(** The loop over the tables of the document: each table is merged, and
    kept when its header is the header of a transaction table. *)
Fixpoint transaction_tables (tables : list (DataFrame cell)) (i : nat)
    : list (DataFrame cell) :=
  match tables with
  | [] => []
  | df :: tables' =>
      let df := clean_columns df in
      if negb (validate_transaction_table_columns df i)
      then transaction_tables tables' (S i)
      else df :: transaction_tables tables' (S i)
  end.

(** The body of the [try] statement, after the conversion of the document;
    [doc_tables] are the tables [export_to_dataframe] gives. *)
Definition process_tables (doc_tables : list (DataFrame cell))
    (output_dir original_path : string) : traced unit :=
  (emit (Printed "Document Information:") ;;
   match doc_tables with
   | [] => emit (Printed "No tables found in the document")
   | _ :: _ =>
       emit (Printed "Tables Found:") ;;
       (* Process and combine all transaction tables *)
       let transaction_dfs := transaction_tables doc_tables 1 in
       match transaction_dfs with
       | [] => emit (Printed "No transaction tables found in the document")
       | _ :: _ =>
           (* Combine all transaction tables *)
           let combined_transaction_df := concat transaction_dfs in
           cell0 <- lift (first_row_last_cell combined_transaction_df) ;;
           starting_balance <- lift (clean_amount_cell cell0) ;;
           cell1 <- lift (last_row_last_cell combined_transaction_df) ;;
           ending_balance <- lift (clean_amount_cell cell1) ;;
           df1 <- call Fclean_transaction_data
                    (lift (clean_transaction_data combined_transaction_df)) ;;
           df2 <- call Fconvert_data_types (lift (convert_data_types df1)) ;;
           call Fvalidate_transaction_totals
             (lift (validate_transaction_totals df2 starting_balance ending_balance)) ;;
           (* Filter out payment transactions *)
           df3 <- call Ffilter_payment_transactions
                    (lift (filter_payment_transactions df2)) ;;
           df4 <- call Fflip_amount_sign (lift (flip_amount_sign df3)) ;;
           (* Get just the filename from the original path *)
           let input_filename := basename original_path in
           (* Save the transaction data with original filename *)
           call Fsave_to_csv (save_to_csv df4 output_dir input_filename)
       end
   end)%traced.

(** [process_pdf]: [converted] is what the conversion of the document
    gives, the tables or an exception.  Whatever is raised inside the
    [try] statement is caught and reported. *)
Definition process_pdf (converted : result (list (DataFrame cell)))
    (output_dir original_path : string) : list event :=
  let (trace, outcome) :=
    (doc_tables <- lift converted ;;
     process_tables doc_tables output_dir original_path)%traced in
  match outcome with
  | Return _ => trace
  | Raise _ => trace ++ [Printed "Error processing document: "; Printed "Full error details:"]
  end.

(** The files a run writes. *)
Definition files_written (trace : list event) : list (string * CsvFile) :=
  flat_map (fun e => match e with
                     | FileWritten path content => [(path, content)]
                     | _ => []
                     end) trace.

Definition called (trace : list event) (f : pipeline_function) : Prop :=
  In (Call f) trace.

(** A payment row, as the specification words it: the amount is
    negative and the description starts with ["Payment"]. *)
Definition payment_row (r : list obj) : Prop :=
  exists d s rest,
    last r ONaN = ODec d /\ nth 1 r ONaN = OStr s
    /\ (Dval d < 0)%Q /\ s = ("Payment" ++ rest)%string.

(** The same, decided on the cells. *)
Definition payment_rowb (r : list obj) : bool :=
  match last r ONaN, nth 1 r ONaN with
  | ODec d, OStr s => Decimal_ltb_0 d && startswith s "Payment"
  | _, _ => false
  end.

(** The rows of a table after [convert_data_types] and
    [clean_transaction_data]: the amount is a [Decimal], the description a
    text. *)
Definition transaction_row (r : list obj) : Prop :=
  exists d s, last r ONaN = ODec d /\ nth 1 r ONaN = OStr s.



(** *** [clean_columns], one row at a time

    The loop of [clean_columns] works on whole columns, and every step of
    it is taken element by element; here is the same loop on the cells of
    one row.  [merge_row] is proved below to give the rows of
    [clean_columns]. *)
Definition nan_to_empty (v : string) : string :=
  if String.eqb v "nan" then EmptyString else v.

Fixpoint look_ahead_row (col_name : string) (combined : string)
    (rest : list (string * string)) : string * nat :=
  match rest with
  | (name, other) :: rest' =>
      if String.eqb name col_name then
        let (c, k) := look_ahead_row col_name (combined ++ " " ++ other)%string rest' in
        (c, S k)
      else (combined, O)
  | [] => (combined, O)
  end.

Definition setitem_labels (labels : list string) (col_name : string) : list string :=
  match index_of col_name labels with
  | Some _ => labels
  | None => labels ++ [col_name]
  end.

Definition setitem_row (labels : list string) (r : list cell) (col_name v : string)
    : list cell :=
  match index_of col_name labels with
  | Some j => set_nth j (Str v) r
  | None => r ++ [Str v]
  end.

Fixpoint clean_row_from (cols : list (string * string)) (skip : nat)
    (labels : list string) (r : list cell) : list string * list cell :=
  match cols with
  | [] => (labels, r)
  | (col_name, v) :: rest =>
      match skip with
      | S skip' => clean_row_from rest skip' labels r
      | O =>
          let (combined, added) := look_ahead_row col_name v rest in
          clean_row_from rest added (setitem_labels labels col_name)
            (setitem_row labels r col_name (nan_to_empty combined))
      end
  end.

Definition merge_row (labels : list string) (r : list cell) : list cell :=
  snd (clean_row_from (combine labels (map py_str r)) 0 [] []).

(** The texts of a row joined with single spaces. *)
Fixpoint join_spaces (texts : list string) : string :=
  match texts with
  | [] => EmptyString
  | [t] => t
  | t :: texts' => (t ++ " " ++ join_spaces texts')%string
  end.

(** The labelled texts of row [k] of a list of labelled columns. *)
Definition row_of_columns (k : nat) (cols : list (string * list string))
    : list (string * string) :=
  map (fun c => (fst c, nth k (snd c) EmptyString)) cols.

(** A cell that holds a text other than ["nan"]. *)
Definition text_cell (x : cell) : Prop :=
  exists s, x = Str s /\ s <> "nan".

(** The labels of the table [clean_columns] returns: the loop, on the
    labels alone. *)
Fixpoint run_length (col_name : string) (names : list string) : nat :=
  match names with
  | name :: names' =>
      if String.eqb name col_name then S (run_length col_name names') else O
  | [] => O
  end.

Fixpoint labels_from (names : list string) (skip : nat) (labels : list string)
    : list string :=
  match names with
  | [] => labels
  | col_name :: rest =>
      match skip with
      | S skip' => labels_from rest skip' labels
      | O => labels_from rest (run_length col_name rest) (setitem_labels labels col_name)
      end
  end.

Definition merged_labels (names : list string) : list string :=
  labels_from names 0 [].

(** The cell the claim C4 describes for a run of cells: the texts of the
    cells joined with single spaces, each cell whose text is ["nan"]
    counted as the empty text. *)
Definition claimed_merged_cell (cells : list cell) : string :=
  join_spaces (map (fun x => nan_to_empty (py_str x)) cells).


(** Labelled columns of [n] values each. *)
Definition column_shaped (n : nat) (cols : list (string * list string)) : Prop :=
  Forall (fun c => List.length (snd c) = n) cols.

(** The exact sum of a list of values. *)
Definition Qsum (l : list Q) : Q := fold_right Qplus 0%Q l.

(** The size of an amount in units of [10^-q]: with at most [q] fraction
    digits, the absolute value of the amount counted in those units. *)
Definition absunits (q : Z) (d : Decimal) : Z :=
  (Z.of_N (d_int d) * 10 ^ (d_exp d + q))%Z.

(** Every amount has at most [q] fraction digits, and the amounts,
    counted in units of [10^-q], add up to less than [10^prec]: no sum of
    them needs more than [prec] digits. *)
Definition within_precision (q : Z) (ds : list Decimal) : Prop :=
  (0 <= q)%Z /\ Forall (fun d => (- q <= d_exp d)%Z) ds
  /\ (fold_right Z.add 0 (map (absunits q) ds) < 10 ^ Z.of_nat prec)%Z.

(** *** The pipeline, table by table and row by row

    The tables the loop of [process_pdf] keeps, and the rows of the
    tables the pipeline goes through, as functions of the rows of the
    combined table.  They are proved below to be what the functions of
    the pipeline return. *)



(** A row with its amount negated. *)
Definition negate_last (r : list obj) : list obj :=
  match last r ONaN with
  | ODec d => set_last (ODec (Decimal_neg d)) r
  | _ => r
  end.



(* ===================================================================== *)
(** * Properties *)
(* ===================================================================== *)

Example clean_amount_positive :
  clean_amount "1,000.00" = Return (mkDecimal false 100000 (-2)).
Proof. reflexivity. Qed.

Example clean_amount_negative :
  clean_amount "- 1,000.00" = Return (mkDecimal true 100000 (-2)).
Proof. reflexivity. Qed.

Example clean_amount_with_text :
  clean_amount "Total: 1,000.00" = Return (mkDecimal false 100000 (-2)).
Proof. reflexivity. Qed.

Example clean_amount_invalid : clean_amount "invalid" = Raise ValueError.
Proof. reflexivity. Qed.

Example clean_amount_inner_minus : clean_amount "1-2.50" = Raise InvalidOperation.
Proof. reflexivity. Qed.

(* --------------------------------------------------------------------- *)
(** ** Strings *)
(* --------------------------------------------------------------------- *)

Lemma str_app_nil_r (s : string) : (s ++ "")%string = s.
Proof. induction s as [|c s IH]; simpl; [reflexivity | now rewrite IH]. Qed.

Lemma str_app_assoc (a b c : string) :
  ((a ++ b) ++ c)%string = (a ++ (b ++ c))%string.
Proof. induction a as [|x a IH]; simpl; [reflexivity | now rewrite IH]. Qed.

Lemma str_length_app (a b : string) :
  String.length (a ++ b) = (String.length a + String.length b)%nat.
Proof. induction a as [|x a IH]; simpl; [reflexivity | now rewrite IH]. Qed.

Lemma str_forallb_app (p : ascii -> bool) (a b : string) :
  str_forallb p (a ++ b) = str_forallb p a && str_forallb p b.
Proof.
  induction a as [|x a IH]; simpl; [reflexivity |].
  now rewrite IH, andb_assoc.
Qed.

Lemma str_forallb_impl (p q : ascii -> bool) (s : string) :
  (forall c, p c = true -> q c = true) ->
  str_forallb p s = true -> str_forallb q s = true.
Proof.
  intros Hpq. induction s as [|c s IH]; simpl; [reflexivity |].
  intros H. apply andb_true_iff in H as [Hc Hs].
  now rewrite (Hpq _ Hc), IH.
Qed.

Lemma is_empty_true (s : string) : is_empty s = true <-> s = "".
Proof. destruct s; simpl; split; congruence. Qed.

Lemma is_empty_false (s : string) : is_empty s = false <-> s <> "".
Proof. destruct s; simpl; split; congruence. Qed.

Lemma span_spec (p : ascii -> bool) (s a b : string) :
  span p s = (a, b) ->
  s = (a ++ b)%string /\ str_forallb p a = true /\
  match b with EmptyString => True | String c _ => p c = false end.
Proof.
  revert a b. induction s as [|c s IH]; simpl; intros a b H.
  - inversion H; subst. auto.
  - destruct (p c) eqn:Hc.
    + destruct (span p s) as [a' b'] eqn:Hs. inversion H; subst.
      destruct (IH a' b eq_refl) as (-> & Ha & Hb).
      simpl. rewrite Hc, Ha. auto.
    + inversion H; subst. simpl. auto.
Qed.

Lemma span_app (p : ascii -> bool) (a b : string) :
  str_forallb p a = true ->
  match b with EmptyString => True | String c _ => p c = false end ->
  span p (a ++ b) = (a, b).
Proof.
  intros Ha Hb. induction a as [|c a IH]; simpl in *.
  - destruct b as [|c b]; simpl; [reflexivity |]. now rewrite Hb.
  - apply andb_true_iff in Ha as [Hc Ha]. now rewrite Hc, (IH Ha).
Qed.

Lemma str_filter_id (p : ascii -> bool) (s : string) :
  str_forallb p s = true -> str_filter p s = s.
Proof.
  induction s as [|c s IH]; simpl; [reflexivity |].
  intros H. apply andb_true_iff in H as [Hc Hs]. now rewrite Hc, IH.
Qed.

Lemma str_filter_app (p : ascii -> bool) (a b : string) :
  str_filter p (a ++ b) = (str_filter p a ++ str_filter p b)%string.
Proof.
  induction a as [|c a IH]; simpl; [reflexivity |].
  destruct (p c); simpl; now rewrite IH.
Qed.

Lemma str_forallb_filter (p q : ascii -> bool) (s : string) :
  str_forallb p s = true -> str_forallb p (str_filter q s) = true.
Proof.
  induction s as [|c s IH]; simpl; [reflexivity |].
  intros H. apply andb_true_iff in H as [Hc Hs].
  destruct (q c); simpl; [rewrite Hc; simpl |]; auto.
Qed.

Lemma lstrip_id (s : string) :
  str_forallb (fun c => negb (is_space c)) s = true -> lstrip s = s.
Proof.
  destruct s as [|c s]; simpl; [reflexivity |].
  intros H. apply andb_true_iff in H as [Hc _].
  apply negb_true_iff in Hc. now rewrite Hc.
Qed.

Lemma rstrip_id (s : string) :
  str_forallb (fun c => negb (is_space c)) s = true -> rstrip s = s.
Proof.
  induction s as [|c s IH]; simpl; [reflexivity |].
  intros H. apply andb_true_iff in H as [Hc Hs].
  apply negb_true_iff in Hc. rewrite (IH Hs), Hc.
  now destruct s.
Qed.

Lemma strip_id (s : string) :
  str_forallb (fun c => negb (is_space c)) s = true -> strip s = s.
Proof. intros H. unfold strip. now rewrite (lstrip_id _ H), (rstrip_id _ H). Qed.

(* --------------------------------------------------------------------- *)
(** ** Character classes *)
(* --------------------------------------------------------------------- *)

(** Facts about one character are settled on the 256 characters. *)
Ltac by_ascii_cases c :=
  destruct c as [[] [] [] [] [] [] [] []]; vm_compute; intuition congruence.

Lemma digit_in_class (c : ascii) : is_digit c = true -> amount_class c = true.
Proof. by_ascii_cases c. Qed.

Lemma class_not_space (c : ascii) :
  amount_class c = true -> negb (is_space c) = true.
Proof. by_ascii_cases c. Qed.

Lemma class_not_underscore (c : ascii) :
  amount_class c = true -> negb (Ascii.eqb c "_") = true.
Proof. by_ascii_cases c. Qed.

Lemma class_cases (c : ascii) :
  amount_class c = true -> is_digit c = true \/ c = ","%char \/ c = "-"%char.
Proof. by_ascii_cases c. Qed.

Lemma digit_not_minus (c : ascii) :
  is_digit c = true -> negb (Ascii.eqb c "-") = true.
Proof. by_ascii_cases c. Qed.

Lemma digit_not_comma (c : ascii) :
  is_digit c = true -> negb (Ascii.eqb c ",") = true.
Proof. by_ascii_cases c. Qed.

Lemma digit_value_lt_10 (c : ascii) :
  is_digit c = true -> (digit_value c < 10)%N.
Proof. by_ascii_cases c. Qed.

(* --------------------------------------------------------------------- *)
(** ** The regular expression of [clean_amount] *)
(* --------------------------------------------------------------------- *)

Lemma amount_fullmatch_spec (s : string) :
  amount_fullmatch s = true <-> amount_pattern s.
Proof.
  unfold amount_fullmatch, amount_pattern. split.
  - destruct (span amount_class s) as [x r] eqn:Hspan.
    apply span_spec in Hspan as (-> & Hx & _).
    destruct r as [|c d]; [discriminate |].
    destruct (Ascii.eqb_spec c "."); [subst c | now destruct c as [[] [] [] [] [] [] [] []]].
    intros H. apply andb_true_iff in H as [H Hd].
    apply andb_true_iff in H as [Hx' Hd'].
    apply negb_true_iff, is_empty_false in Hx', Hd'.
    exists x, d. auto.
  - intros (x & d & -> & Hx0 & Hx & Hd0 & Hd).
    rewrite (span_app amount_class x (String "." d) Hx eq_refl).
    apply is_empty_false in Hx0, Hd0. now rewrite Hx0, Hd0, Hd.
Qed.

Lemma amount_pattern_last_digit (m : string) (c : ascii) :
  amount_pattern (m ++ String c "") -> is_digit c = true.
Proof.
  intros (x & d & E & _ & _ & Hd0 & Hd).
  assert (H : forall a b : string, b <> "" ->
            (m ++ String c "")%string = (a ++ b)%string ->
            str_forallb is_digit b = true -> is_digit c = true).
  { clear. revert c. induction m as [|k m IH]; intros c a b Hb E Hd.
    - destruct a as [|a0 a]; simpl in E.
      + subst b. simpl in Hd. now apply andb_true_iff in Hd.
      + inversion E; subst. destruct a; [now destruct b | discriminate].
    - destruct a as [|a0 a]; simpl in E.
      + subst b. simpl in Hd. apply andb_true_iff in Hd as [_ Hd].
        rewrite str_forallb_app in Hd. apply andb_true_iff in Hd as [_ Hd].
        simpl in Hd. now apply andb_true_iff in Hd.
      + inversion E; subst. eapply IH; eauto. }
  apply (H (x ++ String "." "")%string d Hd0); [| exact Hd].
  rewrite E, str_app_assoc. reflexivity.
Qed.

Lemma amount_match_here_spec (s m : string) :
  amount_match_here s = Some m <->
  amount_pattern m /\ (s = m \/ s = (m ++ String LF "")%string).
Proof.
  unfold amount_match_here. split.
  - destruct (amount_fullmatch s) eqn:Hfull.
    + intros [= <-]. apply amount_fullmatch_spec in Hfull. auto.
    + destruct (span amount_class s) as [x r] eqn:Hspan.
      apply span_spec in Hspan as (-> & Hx & _).
      destruct r as [|c d]; [discriminate |].
      destruct (Ascii.eqb_spec c "."); [subst c | now destruct c as [[] [] [] [] [] [] [] []]].
      destruct (span is_digit d) as [ds tl] eqn:Hd.
      apply span_spec in Hd as (-> & Hds & _).
      destruct (negb (is_empty x) && negb (is_empty ds) && (tl =? String LF "")%string) eqn:Hc;
        [| discriminate].
      intros [= <-].
      apply andb_true_iff in Hc as [Hc Htl]. apply andb_true_iff in Hc as [Hx0 Hd0].
      apply negb_true_iff, is_empty_false in Hx0, Hd0.
      apply String.eqb_eq in Htl. subst tl. split.
      * exists x, ds. auto.
      * right. now rewrite !str_app_assoc.
  - intros [Hm [-> | ->]].
    + apply amount_fullmatch_spec in Hm. now rewrite Hm.
    + destruct (amount_fullmatch (m ++ String LF "")) eqn:Hfull.
      * apply amount_fullmatch_spec, amount_pattern_last_digit in Hfull. discriminate.
      * destruct Hm as (x & d & -> & Hx0 & Hx & Hd0 & Hd).
        rewrite str_app_assoc. simpl.
        rewrite (span_app amount_class x (String "." (d ++ String LF "")) Hx eq_refl).
        rewrite (span_app is_digit d (String LF "") Hd eq_refl).
        apply is_empty_false in Hx0, Hd0. now rewrite Hx0, Hd0.
Qed.

Lemma ends_with_amount_cons (c : ascii) (s m : string) :
  ends_with_amount s m -> ends_with_amount (String c s) m.
Proof.
  intros [Hm [pre [-> | ->]]]; split; auto; exists (String c pre); auto.
Qed.

Lemma ends_with_amount_length (t m : string) :
  ends_with_amount t m -> (String.length m <= String.length t)%nat.
Proof.
  intros [_ [pre [-> | ->]]]; rewrite !str_length_app; lia.
Qed.

(** A text that ends with a word of the pattern either matches at its
    first character or ends with that word from its second character on. *)
Lemma ends_with_amount_inv (c : ascii) (s m : string) :
  ends_with_amount (String c s) m ->
  amount_match_here (String c s) = Some m \/ ends_with_amount s m.
Proof.
  intros [Hm [pre H]]. destruct pre as [|k pre]; simpl in H.
  - left. apply amount_match_here_spec. split; [exact Hm |].
    destruct H as [<- | <-]; auto.
  - right. split; [exact Hm |]. exists pre.
    destruct H as [H | H]; inversion H; auto.
Qed.

Lemma re_search_amount_sound (t m : string) :
  re_search_amount t = Some m -> amount_match t m.
Proof.
  induction t as [|c t IH]; simpl.
  - change (match amount_match_here "" with Some m0 => Some m0 | None => None end = Some m -> amount_match "" m).
    vm_compute. discriminate.
  - destruct (amount_match_here (String c t)) as [m0|] eqn:Hhere.
    + intros [= <-]. apply amount_match_here_spec in Hhere as [Hm Ht].
      split.
      * split; [exact Hm |]. exists "". simpl. exact Ht.
      * intros m' Hm'. pose proof (ends_with_amount_length _ _ Hm') as Hlen.
        destruct Ht as [<- | Ht]; [exact Hlen |].
        destruct Hm' as [Hp' [pre [E | E]]].
        -- exfalso. rewrite Ht in E.
           assert (Hlast : exists m'', m' = (m'' ++ String LF "")%string).
           { clear - E Hp'. revert m0 E. induction pre as [|k pre IHp]; intros m0 E; simpl in E.
             - exists m0. auto.
             - destruct m0 as [|k0 m0]; simpl in E.
               + inversion E; subst. destruct pre; simpl in *; [| discriminate].
                 destruct Hp' as (x & d & Em & Hx0 & _). destruct x; [congruence |].
                 destruct m'; discriminate.
               + inversion E; subst. eauto. }
           destruct Hlast as [m'' ->].
           apply amount_pattern_last_digit in Hp'. discriminate.
        -- rewrite Ht in E. rewrite <- str_app_assoc in E.
           assert (m0 = (pre ++ m')%string).
           { clear - E. revert E. generalize (pre ++ m')%string as u. clear.
             induction m0 as [|k m0 IHm]; intros u E; destruct u as [|k' u]; simpl in E;
               try reflexivity.
             - destruct u; discriminate.
             - destruct m0; discriminate.
             - inversion E; subst. f_equal. auto. }
           subst m0. rewrite str_length_app. lia.
    + intros H. destruct (IH H) as [Hends Hmax]. split.
      * now apply ends_with_amount_cons.
      * intros m' Hm'. apply ends_with_amount_inv in Hm' as [Hm' | Hm'];
          [congruence | auto].
Qed.

Lemma amount_pattern_nonempty (m : string) : amount_pattern m -> m <> "".
Proof. intros (x & d & -> & _) E. destruct x; discriminate. Qed.

Lemma re_search_amount_complete (t m : string) :
  ends_with_amount t m -> exists m0, re_search_amount t = Some m0.
Proof.
  induction t as [|c t IH]; intros H.
  - pose proof (ends_with_amount_length _ _ H) as Hlen.
    destruct H as [Hm _]. apply amount_pattern_nonempty in Hm.
    destruct m; [congruence | simpl in Hlen; lia].
  - simpl. destruct (amount_match_here (String c t)) as [m0|] eqn:Hhere; [eauto |].
    apply ends_with_amount_inv in H as [H | H]; [congruence | auto].
Qed.

Lemma str_last_app (a b : string) :
  b <> "" -> str_last (a ++ b) = str_last b.
Proof.
  intros Hb. induction a as [|x a IH]; [reflexivity |].
  simpl. rewrite <- IH. destruct (a ++ b)%string eqn:E; [| reflexivity].
  destruct a; simpl in E; congruence.
Qed.

Lemma str_last_snoc (a : string) (c : ascii) : str_last (a ++ String c "") = Some c.
Proof. now rewrite str_last_app. Qed.

Lemma amount_pattern_last (m : string) :
  amount_pattern m -> exists c, str_last m = Some c /\ is_digit c = true.
Proof.
  intros (x & d & -> & _ & _ & Hd0 & Hd).
  rewrite str_last_app by discriminate.
  change (String "." d) with ("." ++ d)%string. rewrite str_last_app by exact Hd0.
  destruct d as [|c d]; [congruence |]. clear Hd0 x.
  revert c Hd. induction d as [|c' d IH]; intros c Hd; simpl in Hd.
  - apply andb_true_iff in Hd as [Hc _]. exists c. auto.
  - apply andb_true_iff in Hd as [_ Hd]. apply (IH c' Hd).
Qed.

Lemma str_app_suffix_eq (a b a' b' : string) :
  (a ++ b)%string = (a' ++ b')%string ->
  String.length b = String.length b' -> b = b'.
Proof.
  revert a'. induction a as [|x a IH]; intros a' E L.
  - destruct a' as [|y a']; [exact E |]. simpl in E. subst b.
    simpl in L. rewrite str_length_app in L. lia.
  - destruct a' as [|y a']; simpl in E.
    + subst b'. simpl in L. rewrite str_length_app in L. lia.
    + inversion E. eauto.
Qed.

Lemma str_app_inv_tail (a b c : string) :
  (a ++ c)%string = (b ++ c)%string -> a = b.
Proof.
  revert b. induction a as [|x a IH]; intros b E.
  - destruct b as [|y b]; [reflexivity |]. exfalso.
    apply (f_equal String.length) in E. simpl in E. rewrite str_length_app in E. lia.
  - destruct b as [|y b]; simpl in E.
    + exfalso. apply (f_equal String.length) in E. simpl in E.
      rewrite str_length_app in E. lia.
    + inversion E. f_equal. eauto.
Qed.

(** Two words of the pattern that end the same text and have the same
    length are the same word. *)
Lemma ends_with_amount_same_length (t m m' : string) :
  ends_with_amount t m -> ends_with_amount t m' ->
  String.length m = String.length m' -> m = m'.
Proof.
  intros [Hm [pre E]] [Hm' [pre' E']] Hlen.
  destruct (amount_pattern_last _ Hm) as (c & Hc & Hdc).
  destruct (amount_pattern_last _ Hm') as (c' & Hc' & Hdc').
  pose proof (amount_pattern_nonempty _ Hm) as Hne.
  pose proof (amount_pattern_nonempty _ Hm') as Hne'.
  destruct E as [E | E], E' as [E' | E']; rewrite E in E'.
  - eapply str_app_suffix_eq; eauto.
  - exfalso. apply (f_equal str_last) in E'.
    rewrite <- str_app_assoc, str_last_snoc, str_last_app, Hc in E' by exact Hne.
    inversion E'. subst c. discriminate.
  - exfalso. apply (f_equal str_last) in E'.
    rewrite <- str_app_assoc, str_last_snoc, str_last_app, Hc' in E' by exact Hne'.
    inversion E'. subst c'. discriminate.
  - rewrite <- !str_app_assoc in E'. apply str_app_inv_tail in E'.
    eapply str_app_suffix_eq; eauto.
Qed.

Lemma re_search_amount_spec (t m : string) :
  re_search_amount t = Some m <-> amount_match t m.
Proof.
  split; [apply re_search_amount_sound |].
  intros [Hm Hmax].
  destruct (re_search_amount_complete _ _ Hm) as [m0 Hs]. rewrite Hs. f_equal.
  destruct (re_search_amount_sound _ _ Hs) as [Hm0 Hmax0].
  apply (ends_with_amount_same_length t); auto.
  apply Nat.le_antisymm; auto.
Qed.

Lemma re_search_amount_none (t : string) :
  re_search_amount t = None <-> ~ exists m, ends_with_amount t m.
Proof.
  split.
  - intros Hs [m Hm]. destruct (re_search_amount_complete _ _ Hm) as [m0 H]. congruence.
  - intros Hn. destruct (re_search_amount t) as [m|] eqn:Hs; [| reflexivity].
    exfalso. apply Hn. exists m. now apply re_search_amount_sound.
Qed.

(* --------------------------------------------------------------------- *)
(** ** The [Decimal] constructor on numerals *)
(* --------------------------------------------------------------------- *)

Lemma int_of_digits_acc_app (acc : N) (a b : string) :
  int_of_digits_acc acc (a ++ b) = int_of_digits_acc (int_of_digits_acc acc a) b.
Proof. revert acc. induction a as [|c a IH]; intros acc; simpl; auto. Qed.

Lemma int_of_digits_acc_shift (acc : N) (s : string) :
  int_of_digits_acc acc s
  = (acc * 10 ^ N.of_nat (String.length s) + int_of_digits_acc 0 s)%N.
Proof.
  revert acc. induction s as [|c s IH]; intros acc.
  - simpl. lia.
  - cbn [int_of_digits_acc String.length].
    rewrite (IH (acc * 10 + digit_value c)%N), (IH (0 * 10 + digit_value c)%N).
    rewrite Nat2N.inj_succ, N.pow_succ_r'. lia.
Qed.

Lemma Decimal_of_digits_numeral (sign : bool) (i f : string) :
  str_forallb is_digit i = true -> str_forallb is_digit f = true -> f <> "" ->
  Decimal_of_digits sign (i ++ String "." f)
  = Return {| d_sign := sign;
              d_int := int_of_digits (i ++ f)%string;
              d_exp := - Z.of_nat (String.length f) |}.
Proof.
  intros Hi Hf Hf0. unfold Decimal_of_digits.
  rewrite (span_app is_digit i (String "." f) Hi eq_refl).
  rewrite <- (str_app_nil_r f) at 1.
  rewrite (span_app is_digit f "" Hf I).
  apply is_empty_false in Hf0. rewrite Hf0. simpl.
  now rewrite orb_true_r.
Qed.

Lemma Decimal_of_digits_minus (sign : bool) (i r : string) :
  str_forallb is_digit i = true ->
  Decimal_of_digits sign (i ++ String "-" r) = Raise InvalidOperation.
Proof.
  intros Hi. unfold Decimal_of_digits.
  rewrite (span_app is_digit i (String "-" r) Hi eq_refl). simpl.
  now rewrite andb_false_r.
Qed.

(** A text of digits and minus signs is all digits, or has a first minus
    sign after a run of digits. *)
Lemma digits_or_first_minus (y : string) :
  str_forallb (fun c => is_digit c || Ascii.eqb c "-") y = true ->
  str_forallb is_digit y = true \/
  exists y1 y2, y = (y1 ++ String "-" y2)%string /\ str_forallb is_digit y1 = true.
Proof.
  induction y as [|c y IH]; simpl; [auto |].
  intros H. apply andb_true_iff in H as [Hc Hy].
  destruct (is_digit c) eqn:Hd.
  - destruct (IH Hy) as [Hall | (y1 & y2 & -> & Hy1)]; [auto |].
    right. exists (String c y1), y2. simpl. now rewrite Hd.
  - right. simpl in Hc. apply Ascii.eqb_eq in Hc. subst c.
    exists "", y. auto.
Qed.

Lemma not_minus_digits (y : string) :
  str_forallb (fun c => is_digit c || Ascii.eqb c "-") y = true ->
  str_forallb (fun c => negb (Ascii.eqb c "-")) y = str_forallb is_digit y.
Proof.
  induction y as [|c y IH]; simpl; [reflexivity |].
  intros H. apply andb_true_iff in H as [Hc Hy]. rewrite (IH Hy). f_equal.
  revert Hc. clear. by_ascii_cases c.
Qed.

Lemma remove_commas_class (x : string) :
  str_forallb amount_class x = true ->
  str_forallb (fun c => is_digit c || Ascii.eqb c "-") (remove_char "," x) = true.
Proof.
  unfold remove_char. induction x as [|c x IH]; [reflexivity |].
  cbn [str_forallb str_filter].
  intros H. apply andb_true_iff in H as [Hc Hx].
  destruct (class_cases c Hc) as [Hd | [-> | ->]].
  - rewrite (digit_not_comma c Hd). cbn [str_forallb]. now rewrite Hd, IH.
  - apply IH, Hx.
  - change (negb ("-" =? ",")%char) with true. cbn [str_forallb].
    now rewrite IH.
Qed.

(** The comma-free text of a word of the pattern: digits and minus signs,
    a dot, digits. *)
Lemma remove_commas_pattern (m : string) :
  amount_pattern m ->
  exists y d, remove_char "," m = (y ++ String "." d)%string
    /\ str_forallb (fun c => is_digit c || Ascii.eqb c "-") y = true
    /\ d <> "" /\ str_forallb is_digit d = true.
Proof.
  intros (x & d & -> & _ & Hx & Hd0 & Hd).
  exists (remove_char "," x), d. repeat split; auto using remove_commas_class.
  unfold remove_char. rewrite str_filter_app. simpl. f_equal. f_equal.
  apply str_filter_id. eapply str_forallb_impl; [| exact Hd].
  apply digit_not_comma.
Qed.

Lemma numeral_text_clean (y d : string) :
  str_forallb (fun c => is_digit c || Ascii.eqb c "-") y = true ->
  str_forallb is_digit d = true ->
  remove_char "_" (strip (y ++ String "." d)) = (y ++ String "." d)%string.
Proof.
  intros Hy Hd.
  assert (Hall : str_forallb amount_class (y ++ d) = true).
  { rewrite str_forallb_app. apply andb_true_iff. split.
    - eapply str_forallb_impl; [| exact Hy]. clear. intros c. by_ascii_cases c.
    - eapply str_forallb_impl; [| exact Hd]. apply digit_in_class. }
  rewrite str_forallb_app in Hall. apply andb_true_iff in Hall as [Hy' Hd'].
  rewrite strip_id.
  - apply str_filter_id. rewrite str_forallb_app. simpl.
    rewrite (str_forallb_impl _ _ _ class_not_underscore Hy').
    now rewrite (str_forallb_impl _ _ _ class_not_underscore Hd').
  - rewrite str_forallb_app. simpl.
    rewrite (str_forallb_impl _ _ _ class_not_space Hy').
    now rewrite (str_forallb_impl _ _ _ class_not_space Hd').
Qed.

(* --------------------------------------------------------------------- *)
(** ** The value of a numeral *)
(* --------------------------------------------------------------------- *)

Lemma Qpower10_neg_succ (n : nat) :
  (inject_Z 10 ^ (- Z.of_nat (S n)) == inject_Z 10 ^ (- Z.of_nat n) / inject_Z 10)%Q.
Proof.
  replace (- Z.of_nat (S n))%Z with (- Z.of_nat n + -1)%Z by lia.
  rewrite Qpower_plus by discriminate. reflexivity.
Qed.

Lemma Qpower10_cancel (n : nat) :
  (inject_Z (10 ^ Z.of_nat n) * inject_Z 10 ^ (- Z.of_nat n) == 1)%Q.
Proof.
  rewrite Zpower_Qpower by lia. rewrite Qpower_opp.
  apply Qmult_inv_r. apply Qpower_not_0. discriminate.
Qed.

Lemma integer_value_acc (q : Q) (a : N) (i : string) :
  (q == inject_Z (Z.of_N a))%Q ->
  (integer_value q i == inject_Z (Z.of_N (int_of_digits_acc a i)))%Q.
Proof.
  revert q a. induction i as [|c i IH]; intros q a Hq; simpl; [exact Hq |].
  apply IH. rewrite Hq, N2Z.inj_add, N2Z.inj_mul, inject_Z_plus, inject_Z_mult.
  reflexivity.
Qed.

Lemma fraction_value_digits (f : string) :
  (fraction_value f
   == inject_Z (Z.of_N (int_of_digits f)) * inject_Z 10 ^ (- Z.of_nat (String.length f)))%Q.
Proof.
  induction f as [|c f IH].
  - simpl. reflexivity.
  - cbn [fraction_value String.length]. rewrite IH, Qpower10_neg_succ.
    unfold int_of_digits. cbn [int_of_digits_acc].
    rewrite (int_of_digits_acc_shift (0 * 10 + digit_value c)%N f).
    rewrite N2Z.inj_add, N2Z.inj_mul, N2Z.inj_pow, nat_N_Z, N.mul_0_l, N.add_0_l.
    rewrite inject_Z_plus, inject_Z_mult. change (Z.of_N 10) with 10%Z.
    pose proof (Qpower10_cancel (String.length f)) as Hc.
    set (P := (inject_Z 10 ^ (- Z.of_nat (String.length f)))%Q) in *.
    set (T := inject_Z (10 ^ Z.of_nat (String.length f))) in *.
    transitivity ((inject_Z (Z.of_N (digit_value c)) * (T * P)
                   + inject_Z (Z.of_N (int_of_digits_acc 0 f)) * P) / inject_Z 10)%Q.
    + rewrite Hc. clearbody P T. unfold Qdiv.
      generalize (inject_Z (Z.of_N (digit_value c))),
        (inject_Z (Z.of_N (int_of_digits_acc 0 f))), (/ inject_Z 10)%Q.
      intros; ring.
    + clearbody P T. unfold Qdiv.
      generalize (inject_Z (Z.of_N (digit_value c))),
        (inject_Z (Z.of_N (int_of_digits_acc 0 f))), (/ inject_Z 10)%Q.
      intros; ring.
Qed.

(** The [Decimal] built from the digits of a numeral has the value the
    numeral denotes. *)
Lemma Dval_numeral (sign : bool) (i f : string) :
  let v := (integer_value 0 i + fraction_value f)%Q in
  (Dval {| d_sign := sign;
           d_int := int_of_digits (i ++ f)%string;
           d_exp := - Z.of_nat (String.length f) |}
   == if sign then - v else v)%Q.
Proof.
  intros v.
  assert (Hv : (v == inject_Z (Z.of_N (int_of_digits_acc 0 i))
                     + inject_Z (Z.of_N (int_of_digits_acc 0 f))
                       * inject_Z 10 ^ (- Z.of_nat (String.length f)))%Q).
  { subst v. rewrite (integer_value_acc 0 0 i) by reflexivity.
    rewrite fraction_value_digits. reflexivity. }
  unfold Dval, signed_int. cbn [d_sign d_int d_exp].
  unfold int_of_digits. rewrite int_of_digits_acc_app.
  rewrite (int_of_digits_acc_shift (int_of_digits_acc 0 i) f).
  rewrite N2Z.inj_add, N2Z.inj_mul, N2Z.inj_pow, nat_N_Z.
  change (Z.of_N 10) with 10%Z.
  pose proof (Qpower10_cancel (String.length f)) as Hc.
  revert Hv Hc. generalize v.
  generalize (inject_Z 10 ^ (- Z.of_nat (String.length f)))%Q.
  set (I := Z.of_N (int_of_digits_acc 0 i)).
  set (F := Z.of_N (int_of_digits_acc 0 f)).
  intros P w Hv Hc.
  assert (E : (inject_Z (I * 10 ^ Z.of_nat (String.length f) + F) * P == w)%Q).
  { rewrite inject_Z_plus, inject_Z_mult, Hv.
    revert Hc. generalize (inject_Z (10 ^ Z.of_nat (String.length f))).
    generalize (inject_Z I), (inject_Z F). intros qi qf T Hc.
    transitivity (qi * (T * P) + qf * P)%Q; [ring |].
    rewrite Hc. ring. }
  destruct sign.
  - rewrite inject_Z_opp, <- E.
    generalize (inject_Z (I * 10 ^ Z.of_nat (String.length f) + F)).
    intros; ring.
  - exact E.
Qed.

Lemma numeral_value_unfold (neg : bool) (i f : string) :
  str_forallb is_digit i = true ->
  (numeral_value ((if neg then "-" else "") ++ i ++ String "." f)
   == let v := integer_value 0 i + fraction_value f in if neg then - v else v)%Q.
Proof.
  intros Hi. unfold numeral_value. destruct neg.
  - simpl append. cbv iota beta.
    rewrite (span_app is_digit i (String "." f) Hi eq_refl). reflexivity.
  - simpl append.
    assert (E : match (i ++ String "." f)%string with
                | String "-" r => (true, r)
                | _ => (false, (i ++ String "." f)%string)
                end = (false, (i ++ String "." f)%string)).
    { destruct i as [|c i]; [reflexivity |]. simpl in Hi.
      apply andb_true_iff in Hi as [Hc _]. simpl.
      revert Hc. clear. destruct c as [[] [] [] [] [] [] [] []]; vm_compute; congruence. }
    rewrite E. rewrite (span_app is_digit i (String "." f) Hi eq_refl). reflexivity.
Qed.

Lemma numeral_text_strip (y d : string) :
  str_forallb (fun c => is_digit c || Ascii.eqb c "-") y = true ->
  str_forallb is_digit d = true ->
  strip (y ++ String "." d) = (y ++ String "." d)%string.
Proof.
  intros Hy Hd. apply strip_id. rewrite str_forallb_app. simpl.
  apply andb_true_iff. split.
  - eapply str_forallb_impl; [| exact Hy]. clear. intros c. by_ascii_cases c.
  - eapply str_forallb_impl; [| exact Hd]. clear. intros c. by_ascii_cases c.
Qed.

Lemma plain_body (yb d : string) :
  str_forallb (fun c => is_digit c || Ascii.eqb c "-") yb = true ->
  str_forallb is_digit d = true ->
  str_forallb (fun c => negb (Ascii.eqb c "-")) (yb ++ String "." d)
  = str_forallb is_digit yb.
Proof.
  intros Hyb Hd. rewrite str_forallb_app, (not_minus_digits yb Hyb).
  assert (H : str_forallb (fun c => negb (Ascii.eqb c "-")) (String "." d) = true).
  { simpl. eapply str_forallb_impl; [| exact Hd]. apply digit_not_minus. }
  rewrite H. apply andb_true_r.
Qed.

(** What the constructor does with a text of digits and minus signs, a dot
    and digits: the sign is read off the first character, the rest must
    be digits. *)
Lemma Decimal_of_signed_text (y d : string) :
  str_forallb (fun c => is_digit c || Ascii.eqb c "-") y = true ->
  str_forallb is_digit d = true -> d <> "" ->
  exists (neg : bool) (yb : string),
    y = ((if neg then "-" else "") ++ yb)%string
    /\ str_forallb (fun c => is_digit c || Ascii.eqb c "-") yb = true
    /\ Decimal_of_string (y ++ String "." d) = Decimal_of_digits neg (yb ++ String "." d)
    /\ plain_numeral (y ++ String "." d) = str_forallb is_digit yb.
Proof.
  intros Hy Hd Hd0.
  unfold Decimal_of_string. rewrite (numeral_text_clean y d Hy Hd).
  destruct y as [|c y].
  - exists false, "". simpl append. repeat split; auto.
    unfold plain_numeral. exact (plain_body "" d eq_refl Hd).
  - pose proof Hy as Hy0. simpl in Hy. apply andb_true_iff in Hy as [Hc Hy].
    destruct (is_digit c) eqn:Hdc.
    + exists false, (String c y). simpl append.
      assert (Hc' : c <> "-"%char /\ c <> "+"%char).
      { revert Hdc. clear. by_ascii_cases c. }
      destruct Hc' as [Hm Hp]. repeat split; auto.
      * revert Hm Hp. clear.
        destruct c as [[] [] [] [] [] [] [] []]; intros; try reflexivity; congruence.
      * unfold plain_numeral.
        replace (match String c (y ++ String "." d) with
                 | String "-" r => r
                 | _ => String c (y ++ String "." d)
                 end) with (String c y ++ String "." d)%string.
        2:{ revert Hm. clear.
            destruct c as [[] [] [] [] [] [] [] []]; intros; try reflexivity; congruence. }
        exact (plain_body (String c y) d Hy0 Hd).
    + simpl in Hc. apply Ascii.eqb_eq in Hc. subst c.
      exists true, y. simpl append. repeat split; auto.
      unfold plain_numeral. exact (plain_body y d Hy Hd).
Qed.

(** [Decimal] on the comma-free text of a word of the pattern: the value of
    the numeral when the text is one, [InvalidOperation] when it is not. *)
Lemma Decimal_of_match (m : string) :
  amount_pattern m ->
  let u := remove_char "," m in
  (plain_numeral u = true ->
     exists d, Decimal_of_string (strip u) = Return d /\ (Dval d == numeral_value u)%Q)
  /\ (plain_numeral u = false -> Decimal_of_string (strip u) = Raise InvalidOperation).
Proof.
  intros Hm u. subst u.
  destruct (remove_commas_pattern m Hm) as (y & d & -> & Hy & Hd0 & Hd).
  rewrite (numeral_text_strip y d Hy Hd).
  destruct (Decimal_of_signed_text y d Hy Hd Hd0)
    as (neg & yb & -> & Hyb & -> & ->).
  split; intros Hplain.
  - rewrite (Decimal_of_digits_numeral neg yb d Hplain Hd Hd0).
    eexists. split; [reflexivity |].
    rewrite Dval_numeral. rewrite str_app_assoc.
    rewrite (numeral_value_unfold neg yb d Hplain). reflexivity.
  - destruct (digits_or_first_minus yb Hyb) as [Hall | (y1 & y2 & -> & Hy1)];
      [congruence |].
    rewrite str_app_assoc. simpl append.
    apply Decimal_of_digits_minus, Hy1.
Qed.

(* --------------------------------------------------------------------- *)
(** ** [clean_amount] *)
(* --------------------------------------------------------------------- *)

Lemma join_minus_space (t : string) : join_minus ("- " ++ t) = ("-" ++ t)%string.
Proof. reflexivity. Qed.

Lemma join_minus_other (s : string) : startswith s "- " = false -> join_minus s = s.
Proof. unfold join_minus. now intros ->. Qed.

Lemma clean_amount_of_match (s m : string) :
  amount_match (join_minus s) m ->
  clean_amount s = Decimal_of_string (strip (remove_char "," m)).
Proof.
  intros Hm. apply re_search_amount_spec in Hm.
  unfold clean_amount. now rewrite Hm.
Qed.

(** C2, as the code has it.  When the text, a leading ["- "] joined to
    ["-"], ends with a word of the amount pattern and the longest such word
    is, without its commas, a numeral, [clean_amount] returns the decimal
    with exactly the value of that numeral.  Only the two characters
    minus, space at the very start are joined: one space is dropped, no
    other white space is.  The three examples of the specification hold:
    ["- 1,000.00"] gives -1000.00, ["Total: 1,000.00"] gives 1000.00 and
    ["invalid"] raises. *)
Theorem clean_amount_exact_value :
  (forall s m : string,
     amount_match (join_minus s) m ->
     plain_numeral (remove_char "," m) = true ->
     exists d, clean_amount s = Return d
               /\ (Dval d == numeral_value (remove_char "," m))%Q)
  /\ (forall t : string, join_minus ("- " ++ t) = ("-" ++ t)%string)
  /\ (forall s : string, startswith s "- " = false -> join_minus s = s)
  /\ (exists d, clean_amount "- 1,000.00" = Return d /\ (Dval d == - 1000)%Q)
  /\ (exists d, clean_amount "Total: 1,000.00" = Return d /\ (Dval d == 1000)%Q)
  /\ clean_amount "invalid" = Raise ValueError.
Proof.
  split; [| split; [| split; [| split; [| split]]]].
  - intros s m Hm Hplain. rewrite (clean_amount_of_match s m Hm).
    destruct Hm as [[Hpat _] _].
    exact (proj1 (Decimal_of_match m Hpat) Hplain).
  - exact join_minus_space.
  - exact join_minus_other.
  - eexists. split; [reflexivity | reflexivity].
  - eexists. split; [reflexivity | reflexivity].
  - reflexivity.
Qed.

Lemma clean_amount_exact_value_witness :
  amount_match (join_minus "Fee 1,234.50") "1,234.50"
  /\ plain_numeral (remove_char "," "1,234.50") = true
  /\ exists d, clean_amount "Fee 1,234.50" = Return d
               /\ (Dval d == numeral_value (remove_char "," "1,234.50"))%Q.
Proof.
  assert (Hm : amount_match (join_minus "Fee 1,234.50") "1,234.50")
    by (apply re_search_amount_spec; reflexivity).
  split; [exact Hm |]. split; [reflexivity |].
  exact (proj1 clean_amount_exact_value "Fee 1,234.50" "1,234.50" Hm eq_refl).
Defined.

(** C2 as stated fails.  A minus sign followed by white space other than
    one single space keeps its white space, and the sign is lost: two
    spaces, or a tab, give +5.00 where ["-5.00"] gives -5.00.  And a text
    that ends with a word of the pattern need not have a value:
    ["1-2.50"] raises. *)
Lemma clean_amount_minus_then_spaces :
  clean_amount "-  5.00" = Return (mkDecimal false 500 (-2))
  /\ clean_amount (String "-" (String (ascii_of_nat 9) "5.00"))
     = Return (mkDecimal false 500 (-2))
  /\ clean_amount "-5.00" = Return (mkDecimal true 500 (-2))
  /\ ends_with_amount "1-2.50" "1-2.50"
  /\ succeeds (clean_amount "1-2.50") = false.
Proof.
  repeat split; try reflexivity.
  - apply amount_fullmatch_spec. reflexivity.
  - exists "". left. reflexivity.
Qed.

(** C3, as the code has it.  [clean_amount] raises [ValueError] exactly
    when the text, a leading ["- "] joined to ["-"], does not end (at its end
    or before a final line feed) with a word of the pattern: one or more
    digits, commas and minus signs, a dot, one or more digits.  When it
    does, [clean_amount] succeeds provided the longest such word is,
    without its commas, a numeral: digits with at most one minus sign, in
    front. *)
Theorem clean_amount_value_error :
  (forall s : string,
     clean_amount s = Raise ValueError
     <-> ~ exists m, ends_with_amount (join_minus s) m)
  /\ (forall s m : string,
        amount_match (join_minus s) m ->
        plain_numeral (remove_char "," m) = true ->
        succeeds (clean_amount s) = true).
Proof.
  split.
  - intros s. rewrite <- re_search_amount_none. unfold clean_amount.
    destruct (re_search_amount (join_minus s)) as [m|] eqn:Hs.
    + split; [| discriminate]. intros H. exfalso.
      apply re_search_amount_sound in Hs as [[Hpat _] _].
      destruct (Decimal_of_match m Hpat) as [Hok Hbad].
      destruct (plain_numeral (remove_char "," m)).
      * destruct (Hok eq_refl) as (d & Hd & _). congruence.
      * rewrite (Hbad eq_refl) in H. discriminate.
    + split; auto.
  - intros s m Hm Hplain. rewrite (clean_amount_of_match s m Hm).
    destruct Hm as [[Hpat _] _].
    destruct (proj1 (Decimal_of_match m Hpat) Hplain) as (d & -> & _).
    reflexivity.
Qed.

Lemma clean_amount_value_error_witness :
  amount_match (join_minus "- 2,500.75") "-2,500.75"
  /\ plain_numeral (remove_char "," "-2,500.75") = true
  /\ succeeds (clean_amount "- 2,500.75") = true.
Proof.
  assert (Hm : amount_match (join_minus "- 2,500.75") "-2,500.75")
    by (apply re_search_amount_spec; reflexivity).
  split; [exact Hm |]. split; [reflexivity |].
  exact (proj2 clean_amount_value_error "- 2,500.75" "-2,500.75" Hm eq_refl).
Defined.

(** C3 as stated fails: ["1-2.50"] is, whole, a word of the pattern, and
    [clean_amount] raises on it, with [decimal.InvalidOperation]. *)
Lemma clean_amount_raises_on_a_match :
  ends_with_amount "1-2.50" "1-2.50"
  /\ clean_amount "1-2.50" = Raise InvalidOperation.
Proof.
  split; [| reflexivity]. split.
  - apply amount_fullmatch_spec. reflexivity.
  - exists "". left. reflexivity.
Qed.

(* --------------------------------------------------------------------- *)
(** ** Decimal arithmetic *)
(* --------------------------------------------------------------------- *)

Lemma ndigits_fuel_le (fuel : nat) (n : N) (k : nat) :
  (n < 10 ^ N.of_nat (S k))%N -> (ndigits_fuel fuel n <= S k)%nat.
Proof.
  revert n k. induction fuel as [|fuel IH]; intros n k Hn; simpl; [lia |].
  destruct (N.ltb_spec n 10) as [Hlt | Hge]; [lia |].
  destruct k as [|k].
  - change (10 ^ N.of_nat 1)%N with 10%N in Hn. lia.
  - apply le_n_S, IH.
    rewrite Nat2N.inj_succ, N.pow_succ_r' in Hn.
    apply N.Div0.div_lt_upper_bound. exact Hn.
Qed.

Lemma _fix_id (d : Decimal) :
  (d_int d < 10 ^ N.of_nat prec)%N -> _fix d = d.
Proof.
  intros H. unfold _fix.
  pose proof (ndigits_fuel_le (N.size_nat (d_int d)) (d_int d) 27 H) as Hle.
  fold (ndigits (d_int d)) in Hle.
  destruct (Nat.leb_spec (ndigits (d_int d)) prec) as [_ | Hgt]; [reflexivity |].
  unfold prec in Hgt. lia.
Qed.

Lemma signed_int_abs (d : Decimal) : Z.abs (signed_int d) = Z.of_N (d_int d).
Proof. unfold signed_int. destruct (d_sign d); lia. Qed.

Lemma signed_int_exact_add (a b : Decimal) :
  let e := Z.min (d_exp a) (d_exp b) in
  signed_int (exact_add a b)
  = (signed_int a * 10 ^ (d_exp a - e) + signed_int b * 10 ^ (d_exp b - e))%Z.
Proof.
  intros e. unfold exact_add. fold e.
  set (z := (signed_int a * 10 ^ (d_exp a - e) + signed_int b * 10 ^ (d_exp b - e))%Z).
  unfold signed_int at 1. cbn [d_sign d_int].
  destruct (Z.eqb_spec z 0) as [Hz | Hz].
  - rewrite Hz. simpl. now destruct (d_sign a && d_sign b).
  - destruct (Z.ltb_spec z 0); lia.
Qed.

(** The value of a decimal, read at an exponent not above its own. *)
Lemma Dval_aligned (d : Decimal) (e : Z) :
  (e <= d_exp d)%Z ->
  (Dval d == inject_Z (signed_int d * 10 ^ (d_exp d - e)) * inject_Z 10 ^ e)%Q.
Proof.
  intros He. unfold Dval.
  rewrite inject_Z_mult, Zpower_Qpower by lia.
  replace (d_exp d) with ((d_exp d - e) + e)%Z at 1 by lia.
  rewrite Qpower_plus by discriminate.
  generalize (inject_Z (signed_int d)), (inject_Z 10 ^ (d_exp d - e))%Q,
    (inject_Z 10 ^ e)%Q.
  intros; ring.
Qed.

Lemma Dval_exact_add (a b : Decimal) :
  (Dval (exact_add a b) == Dval a + Dval b)%Q.
Proof.
  set (e := Z.min (d_exp a) (d_exp b)).
  rewrite (Dval_aligned a e), (Dval_aligned b e) by (subst e; lia).
  unfold Dval at 1. rewrite signed_int_exact_add. fold e.
  change (d_exp (exact_add a b)) with e.
  rewrite inject_Z_plus.
  generalize (inject_Z (signed_int a * 10 ^ (d_exp a - e))),
    (inject_Z (signed_int b * 10 ^ (d_exp b - e))), (inject_Z 10 ^ e)%Q.
  intros; ring.
Qed.

Lemma Decimal_eqb_Dval (a b : Decimal) :
  Decimal_eqb a b = true <-> (Dval a == Dval b)%Q.
Proof.
  unfold Decimal_eqb. set (e := Z.min (d_exp a) (d_exp b)).
  rewrite (Dval_aligned a e), (Dval_aligned b e) by (subst e; lia).
  rewrite Z.eqb_eq. split.
  - intros ->. reflexivity.
  - intros H. apply Qmult_inj_r in H; [now apply inject_Z_injective |].
    apply Qpower_not_0. discriminate.
Qed.

Lemma absunits_nonneg (q : Z) (d : Decimal) : (0 <= absunits q d)%Z.
Proof. unfold absunits. apply Z.mul_nonneg_nonneg; [lia | apply Z.pow_nonneg; lia]. Qed.

Lemma sum_absunits_nonneg (q : Z) (ds : list Decimal) :
  (0 <= fold_right Z.add 0 (map (absunits q) ds))%Z.
Proof.
  induction ds as [|d ds IH]; simpl; [lia |].
  pose proof (absunits_nonneg q d). lia.
Qed.

(** Below the precision, the sum is the exact sum; it stays at or above
    the smallest exponent and is no larger than the operands together. *)
Lemma Decimal_add_exact (q : Z) (a b : Decimal) :
  (- q <= d_exp a)%Z -> (- q <= d_exp b)%Z ->
  (absunits q a + absunits q b < 10 ^ Z.of_nat prec)%Z ->
  Decimal_add a b = exact_add a b
  /\ (- q <= d_exp (exact_add a b))%Z
  /\ (absunits q (exact_add a b) <= absunits q a + absunits q b)%Z.
Proof.
  intros Ha Hb Hlt.
  set (e := Z.min (d_exp a) (d_exp b)).
  assert (He : (- q <= e)%Z) by (subst e; lia).
  assert (Hexp : d_exp (exact_add a b) = e) by reflexivity.
  assert (Hu : (absunits q (exact_add a b) <= absunits q a + absunits q b)%Z).
  { unfold absunits. rewrite Hexp, <- !signed_int_abs, signed_int_exact_add. fold e.
    replace (d_exp a + q)%Z with ((d_exp a - e) + (e + q))%Z by lia.
    replace (d_exp b + q)%Z with ((d_exp b - e) + (e + q))%Z by lia.
    rewrite (Z.pow_add_r 10 (d_exp a - e) (e + q)) by (subst e; lia).
    rewrite (Z.pow_add_r 10 (d_exp b - e) (e + q)) by (subst e; lia).
    assert (H1 : (0 <= 10 ^ (d_exp a - e))%Z) by (apply Z.pow_nonneg; lia).
    assert (H2 : (0 <= 10 ^ (d_exp b - e))%Z) by (apply Z.pow_nonneg; lia).
    assert (H3 : (0 <= 10 ^ (e + q))%Z) by (apply Z.pow_nonneg; lia).
    rewrite !Z.mul_assoc.
    rewrite <- (Z.abs_eq (10 ^ (d_exp a - e))) at 2 by exact H1.
    rewrite <- (Z.abs_eq (10 ^ (d_exp b - e))) at 2 by exact H2.
    rewrite <- !Z.abs_mul, <- Z.mul_add_distr_r.
    apply Z.mul_le_mono_nonneg_r; [exact H3 | apply Z.abs_triangle]. }
  split; [| split; [rewrite Hexp; exact He | exact Hu]].
  unfold Decimal_add. apply _fix_id.
  assert (Hc : (Z.of_N (d_int (exact_add a b)) <= absunits q (exact_add a b))%Z).
  { unfold absunits. rewrite Hexp.
    assert (H3 : (1 <= 10 ^ (e + q))%Z) by (apply Z.pow_le_mono_r with (b := 0%Z); lia).
    nia. }
  apply N2Z.inj_lt. rewrite N2Z.inj_pow, nat_N_Z. change (Z.of_N 10) with 10%Z. lia.
Qed.

Lemma fold_Decimal_add_exact (q : Z) (l : list Decimal) (acc : Decimal) :
  (- q <= d_exp acc)%Z -> Forall (fun d => (- q <= d_exp d)%Z) l ->
  (absunits q acc + fold_right Z.add 0 (map (absunits q) l) < 10 ^ Z.of_nat prec)%Z ->
  let r := fold_left Decimal_add l acc in
  (Dval r == Dval acc + Qsum (map Dval l))%Q
  /\ (- q <= d_exp r)%Z
  /\ (absunits q r <= absunits q acc + fold_right Z.add 0 (map (absunits q) l))%Z.
Proof.
  revert acc. induction l as [|d l IH]; intros acc Hacc Hl Hlt;
    unfold Qsum in *; cbn [fold_left fold_right map] in *.
  - repeat split; [ring | exact Hacc | lia].
  - inversion Hl as [|? ? Hd Hl']; subst.
    pose proof (sum_absunits_nonneg q l) as Hpos.
    destruct (Decimal_add_exact q acc d Hacc Hd) as (Eadd & Hexp & Hu); [lia |].
    rewrite Eadd.
    destruct (IH (exact_add acc d) Hexp Hl') as (Hv & He & Hb); [lia |].
    repeat split; [| exact He | lia].
    rewrite Hv, Dval_exact_add. ring.
Qed.

Lemma mapM_summand_Dec (amounts : list Decimal) :
  mapM summand (map ODec amounts) = Return (map PyDec amounts).
Proof. induction amounts as [|a l IH]; simpl; [reflexivity | now rewrite IH]. Qed.

Lemma fold_py_add_Dec (l : list Decimal) (acc : Decimal) :
  fold_left py_add (map PyDec l) (PyDec acc) = PyDec (fold_left Decimal_add l acc).
Proof. revert acc. induction l as [|d l IH]; intros acc; simpl; auto. Qed.

(** Within the precision, [starting_balance + total_amount] is the exact
    sum of the starting balance and the amounts. *)
Lemma total_exact (q : Z) (starting_balance : Decimal) (amounts : list Decimal) :
  within_precision q (starting_balance :: amounts) ->
  exists total, Series_sum (map ODec amounts) = Return total
    /\ (Dval (Decimal_add_num starting_balance total)
        == Dval starting_balance + Qsum (map Dval amounts))%Q.
Proof.
  intros (Hq & Hexp & Hlt). inversion Hexp as [|? ? Hs Ha]; subst.
  cbn [map fold_right] in Hlt. unfold Series_sum. rewrite mapM_summand_Dec.
  destruct amounts as [|a l].
  - exists (PyInt 0). split; [reflexivity |]. cbn [map fold_right] in *.
    destruct (Decimal_add_exact q starting_balance (Decimal_of_int 0) Hs) as (E & _).
    + cbn [Decimal_of_int d_exp]. lia.
    + replace (absunits q (Decimal_of_int 0)) with 0%Z by reflexivity. lia.
    + cbn [Decimal_add_num]. rewrite E, Dval_exact_add. unfold Qsum. simpl fold_right.
      assert (E0 : (Dval (Decimal_of_int 0) == 0)%Q) by reflexivity.
      rewrite E0. reflexivity.
  - cbn [map]. rewrite fold_py_add_Dec. eexists. split; [reflexivity |].
    cbn [Decimal_add_num]. inversion Ha as [|? ? Ha0 Hl]; subst.
    cbn [map fold_right] in Hlt. pose proof (absunits_nonneg q starting_balance) as Hs0.
    destruct (fold_Decimal_add_exact q l a Ha0 Hl) as (Hv & He & Hb); [lia |].
    destruct (Decimal_add_exact q starting_balance (fold_left Decimal_add l a) Hs He)
      as (E & _); [lia |].
    rewrite E, Dval_exact_add, Hv. unfold Qsum. cbn [map fold_right]. reflexivity.
Qed.

(* --------------------------------------------------------------------- *)
(** ** [validate_transaction_totals] *)
(* --------------------------------------------------------------------- *)

(** C1, as the code has it.  On a table whose amount column holds the
    decimals [amounts], with amounts and starting balance within the 28
    digits of the decimal context, [validate_transaction_totals] raises
    [ValueError] exactly when the starting balance plus the exact sum of
    the amounts differs from the ending balance, and returns otherwise:
    the comparison is exact, there is no tolerance. *)
Theorem validate_transaction_totals_exact
    (df : DataFrame obj) (amounts : list Decimal)
    (starting_balance ending_balance : Decimal) (q : Z) :
  last_column df = Return (map ODec amounts) ->
  within_precision q (starting_balance :: amounts) ->
  (validate_transaction_totals df starting_balance ending_balance = Raise ValueError
   <-> ~ (Dval starting_balance + Qsum (map Dval amounts) == Dval ending_balance)%Q)
  /\ (validate_transaction_totals df starting_balance ending_balance = Return tt
      <-> (Dval starting_balance + Qsum (map Dval amounts) == Dval ending_balance)%Q).
Proof.
  intros Hcol Hprec. unfold validate_transaction_totals. rewrite Hcol.
  destruct (total_exact q starting_balance amounts Hprec) as (total & -> & Hv).
  rewrite <- Hv, <- Decimal_eqb_Dval.
  destruct (Decimal_eqb (Decimal_add_num starting_balance total) ending_balance);
    simpl; split; split; intros H; congruence.
Qed.

Lemma validate_transaction_totals_exact_witness :
  let df := mkDataFrame ["AMOUNT"]
              [[ODec (mkDecimal false 100000 (-2))]; [ODec (mkDecimal false 200000 (-2))]] in
  let amounts := [mkDecimal false 100000 (-2); mkDecimal false 200000 (-2)] in
  let starting := mkDecimal false 0 (-2) in
  last_column df = Return (map ODec amounts)
  /\ within_precision 2 (starting :: amounts)
  /\ validate_transaction_totals df starting (mkDecimal false 300000 (-2)) = Return tt
  /\ validate_transaction_totals df starting (mkDecimal false 400000 (-2)) = Raise ValueError.
Proof.
  intros df amounts starting.
  assert (Hcol : last_column df = Return (map ODec amounts)) by reflexivity.
  assert (Hprec : within_precision 2 (starting :: amounts)).
  { split; [lia |]. split; [repeat constructor; simpl; lia | vm_compute; reflexivity]. }
  split; [exact Hcol |]. split; [exact Hprec |]. split.
  - apply (proj2 (validate_transaction_totals_exact df amounts starting
                    (mkDecimal false 300000 (-2)) 2 Hcol Hprec)).
    vm_compute. reflexivity.
  - apply (proj1 (validate_transaction_totals_exact df amounts starting
                    (mkDecimal false 400000 (-2)) 2 Hcol Hprec)).
    vm_compute. discriminate.
Defined.

(** C1 as stated fails beyond 28 digits.  With a starting balance of
    [10^28], one amount of 0.01 and an ending balance of [10^28 + 0.01],
    the exact sum equals the ending balance, yet the sum the code forms
    is rounded to 28 digits and the check raises. *)
Lemma validate_transaction_totals_rounds :
  let starting := mkDecimal false (10 ^ 30) (-2) in
  let ending := mkDecimal false (10 ^ 30 + 1) (-2) in
  let amount := mkDecimal false 1 (-2) in
  let df := mkDataFrame ["TRANS. DATE"; "DESCRIPTION"; "AMOUNT BAHT"]
              [[OTs (mkTimestamp 2023 1 2); OStr "Purchase"; ODec amount]] in
  clean_amount "10,000,000,000,000,000,000,000,000,000.00" = Return starting
  /\ clean_amount "0.01" = Return amount
  /\ clean_amount "10,000,000,000,000,000,000,000,000,000.01" = Return ending
  /\ last_column df = Return [ODec amount]
  /\ (Dval starting + Qsum [Dval amount] == Dval ending)%Q
  /\ Decimal_add starting amount = mkDecimal false (10 ^ 27) 1
  /\ validate_transaction_totals df starting ending = Raise ValueError.
Proof. vm_compute. repeat split; reflexivity. Qed.

(* --------------------------------------------------------------------- *)
(** ** [validate_transaction_table_columns] *)
(* --------------------------------------------------------------------- *)

Lemma startswith_spec (s p : string) :
  startswith s p = true <-> exists post, s = (p ++ post)%string.
Proof.
  revert s. induction p as [|a p IH]; intros s; simpl.
  - split; eauto.
  - destruct s as [|b s].
    + split; [discriminate | intros [post H]; discriminate].
    + rewrite andb_true_iff, Ascii.eqb_eq, IH. split.
      * intros [-> [post ->]]. eauto.
      * intros [post H]. inversion H. eauto.
Qed.



Example Decimal_str_examples :
  Decimal_str (mkDecimal true 200000 (-2)) = "-2000.00"
  /\ Decimal_str (mkDecimal false 0 (-2)) = "0.00"
  /\ Decimal_str (mkDecimal false 5 (-1)) = "0.5"
  /\ Decimal_str (mkDecimal false 1 (-7)) = "1E-7"
  /\ Decimal_str (mkDecimal false 123 (-7)) = "0.0000123"
  /\ Decimal_str (mkDecimal false 15 3) = "1.5E+4"
  /\ Decimal_str (Decimal_add (mkDecimal false (10 ^ 30) (-2)) (mkDecimal false 1 (-2)))
     = "1.000000000000000000000000000E+28".
Proof. vm_compute. repeat split; reflexivity. Qed.

(* --------------------------------------------------------------------- *)
(** ** The pipeline on the statement of the tests *)
(* --------------------------------------------------------------------- *)

Example sample_statement_run :
  process_pdf
    (Return
       [mkDataFrame ["TRANS. DATE"; "POSTING DATE"; "DESCRIPTION"; "AMOUNT BAHT"]
          [ [Str ""; Str ""; Str "Starting Balance"; Str "1,000.00"];
            [Str "02/01/23"; Str "02/01/23"; Str "Purchase 1"; Str "2,000.00"];
            [Str "03/01/23"; Str "03/01/23"; Str "Payment 1"; Str "-1,000.00"];
            [Str "04/01/23"; Str "04/01/23"; Str "Purchase 2"; Str "3,000.00"];
            [Str "05/01/23"; Str "05/01/23"; Str "Purchase 3"; Str "4,000.00"];
            [Str ""; Str ""; Str "Ending Balance"; Str "9,000.00"] ]])
    "output" "tests/test_data/sample_transactions.pdf"
  = [ Printed "Document Information:"; Printed "Tables Found:";
      Call Fclean_transaction_data; Call Fconvert_data_types;
      Call Fvalidate_transaction_totals; Call Ffilter_payment_transactions;
      Call Fflip_amount_sign; Call Fsave_to_csv;
      FileWritten "output/sample_transactions.csv"
        (mkCsvFile BOM ["TRANS. DATE"; "DESCRIPTION"; "AMOUNT BAHT"]
           [ ["2023-01-02 00:00:00"; "Purchase 1"; "-2000.00"];
             ["2023-01-04 00:00:00"; "Purchase 2"; "-3000.00"];
             ["2023-01-05 00:00:00"; "Purchase 3"; "-4000.00"] ]);
      Printed "Saved result to: " ].
Proof. vm_compute. reflexivity. Qed.

(* --------------------------------------------------------------------- *)
(** ** Masks and traversals *)
(* --------------------------------------------------------------------- *)

Lemma map2_map {A B C D : Type} (f : B -> C -> D) (g : A -> B) (h : A -> C)
    (l : list A) :
  map2 f (map g l) (map h l) = map (fun x => f (g x) (h x)) l.
Proof. induction l as [|x l IH]; simpl; [reflexivity | now rewrite IH]. Qed.

Lemma select_map {A : Type} (p : A -> bool) (l : list A) :
  select (map p l) l = filter p l.
Proof.
  induction l as [|x l IH]; simpl; [reflexivity |].
  rewrite IH. reflexivity.
Qed.

Lemma mapM_ext_in {A B : Type} (f : A -> result B) (g : A -> B) (l : list A) :
  (forall x, In x l -> f x = Return (g x)) -> mapM f l = Return (map g l).
Proof.
  induction l as [|x l IH]; intros H; simpl; [reflexivity |].
  rewrite (H x (or_introl eq_refl)), IH; [reflexivity |].
  intros y Hy. apply H. now right.
Qed.

Lemma filter_ext_in_bool {A : Type} (p q : A -> bool) (l : list A) :
  (forall x, In x l -> p x = q x) -> filter p l = filter q l.
Proof.
  induction l as [|x l IH]; intros H; simpl; [reflexivity |].
  rewrite (H x (or_introl eq_refl)), IH; [reflexivity |].
  intros y Hy. apply H. now right.
Qed.

(* --------------------------------------------------------------------- *)
(** ** [filter_payment_transactions] *)
(* --------------------------------------------------------------------- *)

Lemma Dval_neg_iff (d : Decimal) : (Dval d < 0)%Q <-> (signed_int d < 0)%Z.
Proof.
  unfold Dval.
  assert (HP : (0 < inject_Z 10 ^ d_exp d)%Q) by (apply Qpower_0_lt; reflexivity).
  split.
  - intros H. destruct (Z.lt_ge_cases (signed_int d) 0) as [Hlt | Hge]; [exact Hlt |].
    exfalso. apply (Qlt_irrefl 0). eapply Qle_lt_trans; [| exact H].
    apply Qmult_le_0_compat; [| now apply Qlt_le_weak].
    change 0%Q with (inject_Z 0). now rewrite <- Zle_Qle.
  - intros H.
    setoid_replace 0%Q with (0 * inject_Z 10 ^ d_exp d)%Q by ring.
    apply Qmult_lt_compat_r; [exact HP |].
    change 0%Q with (inject_Z 0). now rewrite <- Zlt_Qlt.
Qed.

Lemma Decimal_ltb_0_spec (d : Decimal) :
  Decimal_ltb_0 d = true <-> (Dval d < 0)%Q.
Proof.
  rewrite Dval_neg_iff. unfold Decimal_ltb_0, signed_int.
  destruct (d_sign d); simpl.
  - rewrite negb_true_iff, N.eqb_neq. lia.
  - split; [discriminate | lia].
Qed.

Lemma str_accessor_texts (values : list obj) :
  (forall x, In x values -> exists s, x = OStr s) -> str_accessor values = Return tt.
Proof.
  intros H. unfold str_accessor.
  destruct values as [|x l]; [reflexivity |].
  destruct (H x (or_introl eq_refl)) as [s ->]. reflexivity.
Qed.

Lemma payment_rowb_spec (r : list obj) :
  payment_rowb r = true <-> payment_row r.
Proof.
  unfold payment_rowb, payment_row. split.
  - destruct (last r ONaN) as [| | | |d]; try discriminate.
    destruct (nth 1 r ONaN) as [s| | | |]; try discriminate.
    rewrite andb_true_iff, Decimal_ltb_0_spec, startswith_spec.
    intros [Hneg [rest ->]]. exists d, ("Payment" ++ rest)%string, rest. auto.
  - intros (d & s & rest & -> & -> & Hneg & ->).
    rewrite andb_true_iff, Decimal_ltb_0_spec, startswith_spec. eauto.
Qed.

(** C7.  On a table of transaction rows, [filter_payment_transactions]
    returns the table with the same columns and, unchanged and in their
    order, the rows that are not payment rows: a row is removed if and
    only if its amount is negative and its description starts, case
    sensitively, with ["Payment"]. *)
Theorem filter_payment_transactions_spec (df : DataFrame obj) :
  (2 <= List.length (columns df))%nat ->
  (forall r, In r (rows df) -> transaction_row r) ->
  filter_payment_transactions df
  = Return {| columns := columns df;
              rows := filter (fun r => negb (payment_rowb r)) (rows df) |}
  /\ (forall r, In r (rows df) ->
        (In r (filter (fun r => negb (payment_rowb r)) (rows df)) <-> ~ payment_row r)).
Proof.
  intros Hcols Hrows. split.
  - unfold filter_payment_transactions.
    destruct (columns df) as [|c0 [|c1 cols]] eqn:Hc; simpl in Hcols; try lia.
    rewrite (mapM_ext_in _ (fun r => match last r ONaN with
                                     | ODec d => Decimal_ltb_0 d
                                     | _ => false
                                     end)).
    2:{ intros r Hr. destruct (Hrows r Hr) as (d & s & -> & _). reflexivity. }
    rewrite str_accessor_texts.
    2:{ intros x Hx. apply in_map_iff in Hx as (r & <- & Hr).
        destruct (Hrows r Hr) as (d & s & _ & ->). eauto. }
    do 2 f_equal.
    rewrite map_map, map2_map, select_map.
    apply filter_ext_in_bool. intros r Hr. unfold payment_rowb.
    destruct (Hrows r Hr) as (d & s & -> & ->). reflexivity.
  - intros r Hr. rewrite filter_In, negb_true_iff, <- payment_rowb_spec.
    destruct (payment_rowb r); intuition congruence.
Qed.

Lemma filter_payment_transactions_spec_witness :
  let df := mkDataFrame ["TRANS. DATE"; "DESCRIPTION"; "AMOUNT BAHT"]
              [ [OStr "01/01/23"; OStr "Purchase"; ODec (mkDecimal false 10000 (-2))];
                [OStr "02/01/23"; OStr "Payment"; ODec (mkDecimal true 20000 (-2))];
                [OStr "03/01/23"; OStr "Purchase"; ODec (mkDecimal false 30000 (-2))] ] in
  (2 <= List.length (columns df))%nat
  /\ (forall r, In r (rows df) -> transaction_row r)
  /\ filter_payment_transactions df
     = Return (mkDataFrame ["TRANS. DATE"; "DESCRIPTION"; "AMOUNT BAHT"]
                 [ [OStr "01/01/23"; OStr "Purchase"; ODec (mkDecimal false 10000 (-2))];
                   [OStr "03/01/23"; OStr "Purchase"; ODec (mkDecimal false 30000 (-2))] ]).
Proof.
  intros df.
  assert (Hcols : (2 <= List.length (columns df))%nat) by (simpl; lia).
  assert (Hrows : forall r, In r (rows df) -> transaction_row r).
  { intros r [<- | [<- | [<- | []]]]; eexists; eexists; split; reflexivity. }
  split; [exact Hcols |]. split; [exact Hrows |].
  exact (proj1 (filter_payment_transactions_spec df Hcols Hrows)).
Defined.

(* --------------------------------------------------------------------- *)
(** ** [clean_transaction_data] *)
(* --------------------------------------------------------------------- *)



Lemma is_valid_date_spec (x : cell) :
  is_valid_date x = true <-> exists t, to_datetime x = Return (OTs t).
Proof.
  unfold is_valid_date, to_datetime_coerce, to_datetime.
  destruct x as [s|].
  - destruct (is_empty s || existsb (String.eqb s) nat_strings).
    + split; [discriminate | intros [t H]; discriminate].
    + destruct (strptime_dmy s) as [t|].
      * split; eauto.
      * split; [discriminate | intros [t H]; discriminate].
  - split; [discriminate | intros [t H]; discriminate].
Qed.

Lemma is_valid_amount_spec (x : cell) :
  is_valid_amount x = true <-> exists d, clean_amount (py_str x) = Return d.
Proof.
  unfold is_valid_amount. destruct (clean_amount (py_str x)) as [d|e]; simpl.
  - split; eauto.
  - split; [discriminate | intros [d H]; discriminate].
Qed.






Example strptime_dmy_examples :
  strptime_dmy "02/01/23" = Some (mkTimestamp 2023 1 2)
  /\ strptime_dmy "2/1/23" = Some (mkTimestamp 2023 1 2)
  /\ strptime_dmy "29/02/24" = Some (mkTimestamp 2024 2 29)
  /\ strptime_dmy "29/02/23" = None
  /\ strptime_dmy "31/12/99" = Some (mkTimestamp 1999 12 31)
  /\ strptime_dmy "01/13/23" = None
  /\ strptime_dmy "01/01/2023" = None
  /\ strptime_dmy "" = None
  /\ strptime_dmy "Starting" = None.
Proof. vm_compute. repeat split; reflexivity. Qed.

(* --------------------------------------------------------------------- *)
(** ** [clean_columns], column by column and row by row *)
(* --------------------------------------------------------------------- *)

Lemma map2_length {A B C : Type} (f : A -> B -> C) (a : list A) (b : list B) :
  List.length (map2 f a b) = Nat.min (List.length a) (List.length b).
Proof.
  revert b. induction a as [|x a IH]; intros [|y b]; simpl; auto.
Qed.

Lemma map2_nth {A B C : Type} (f : A -> B -> C) (a : list A) (b : list B)
    (k : nat) (da : A) (db : B) (dc : C) :
  (k < List.length a)%nat -> (k < List.length b)%nat ->
  nth k (map2 f a b) dc = f (nth k a da) (nth k b db).
Proof.
  revert b k. induction a as [|x a IH]; intros [|y b] k Ha Hb; simpl in *; try lia.
  destruct k as [|k]; [reflexivity |]. apply IH; lia.
Qed.

Lemma map_nth_in {A B : Type} (f : A -> B) (l : list A) (k : nat) (d : A) (d' : B) :
  (k < List.length l)%nat -> nth k (map f l) d' = f (nth k l d).
Proof.
  intros Hk. rewrite (nth_indep _ d' (f d)) by (now rewrite length_map).
  apply map_nth.
Qed.

Section Projection.

(** The number of rows, and a row. *)
Variables n k : nat.
Hypothesis Hk : (k < n)%nat.

Lemma add_column_row (a b : list string) :
  List.length a = n -> List.length b = n ->
  List.length (add_column a b) = n
  /\ nth k (add_column a b) "" = (nth k a "" ++ " " ++ nth k b "")%string.
Proof.
  intros Ha Hb. unfold add_column. split.
  - rewrite map2_length. lia.
  - apply (map2_nth (fun x y => (x ++ " " ++ y)%string) a b k "" "" ""); lia.
Qed.

Lemma look_ahead_row_of_columns (rest : list (string * list string))
    (col_name : string) (v : list string) :
  column_shaped n rest -> List.length v = n ->
  List.length (fst (look_ahead col_name v rest)) = n
  /\ look_ahead_row col_name (nth k v "") (row_of_columns k rest)
     = (nth k (fst (look_ahead col_name v rest)) "",
        snd (look_ahead col_name v rest)).
Proof.
  revert v. induction rest as [|[name other] rest IH]; intros v Hrest Hv; simpl.
  - auto.
  - apply Forall_cons_iff in Hrest as [Hother Hrest']. simpl in Hother.
    destruct (String.eqb name col_name); [| simpl; auto].
    destruct (add_column_row v other Hv Hother) as [Hlen Hnth].
    destruct (IH (add_column v other) Hrest' Hlen) as [IH1 IH2].
    simpl in Hnth. rewrite <- Hnth, IH2.
    destruct (look_ahead col_name (add_column v other) rest) as [c a]. simpl in *.
    auto.
Qed.

Lemma replace_nan_row (c : list string) :
  List.length (replace_nan c) = List.length c
  /\ nth k (replace_nan c) "" = nan_to_empty (nth k c "").
Proof.
  unfold replace_nan. split; [apply length_map |].
  exact (map_nth (fun v => if String.eqb v "nan" then "" else v) c "" k).
Qed.

Lemma setitem_row_of_columns (df : DataFrame cell) (col_name : string)
    (values : list string) :
  List.length (rows df) = n -> List.length values = n ->
  List.length (rows (setitem df col_name values)) = n
  /\ columns (setitem df col_name values) = setitem_labels (columns df) col_name
  /\ nth k (rows (setitem df col_name values)) []
     = setitem_row (columns df) (nth k (rows df) []) col_name (nth k values "").
Proof.
  intros Hr Hv. unfold setitem, setitem_labels, setitem_row.
  destruct (index_of col_name (columns df)) as [j|]; cbn [rows columns];
    (split; [rewrite map2_length; lia |]); (split; [reflexivity |]).
  - apply (map2_nth (fun r v => set_nth j (Str v) r) (rows df) values k [] "" []); lia.
  - apply (map2_nth (fun r v => r ++ [Str v]) (rows df) values k [] "" []); lia.
Qed.

Lemma clean_columns_from_row (cols : list (string * list string)) (skip : nat)
    (df : DataFrame cell) :
  column_shaped n cols -> List.length (rows df) = n ->
  let result := clean_columns_from cols skip df in
  List.length (rows result) = n
  /\ clean_row_from (row_of_columns k cols) skip (columns df) (nth k (rows df) [])
     = (columns result, nth k (rows result) []).
Proof.
  revert skip df. induction cols as [|[col_name v] rest IH];
    intros skip df Hcols Hr; simpl.
  - auto.
  - apply Forall_cons_iff in Hcols as [Hv Hrest]. simpl in Hv.
    destruct skip as [|skip]; [| apply IH; assumption].
    destruct (look_ahead_row_of_columns rest col_name v Hrest Hv) as [Hlen Hrow].
    rewrite Hrow.
    destruct (look_ahead col_name v rest) as [combined added]. simpl in Hlen |- *.
    destruct (replace_nan_row combined) as [Hlen' Hnan].
    destruct (setitem_row_of_columns df col_name (replace_nan combined) Hr)
      as (Hn & Hlabels & Hnth); [lia |].
    destruct (IH added (setitem df col_name (replace_nan combined)) Hrest Hn)
      as [IH1 IH2].
    split; [exact IH1 |].
    rewrite <- IH2, Hlabels, Hnth, Hnan. reflexivity.
Qed.

End Projection.

Lemma combine_seq {A B : Type} (la : list A) (lb : list B) (da : A) (db : B) :
  List.length la = List.length lb ->
  map (fun i => (nth i la da, nth i lb db)) (seq 0 (List.length la)) = combine la lb.
Proof.
  revert lb. induction la as [|a la IH]; intros [|b lb] H; simpl in *; try discriminate;
    [reflexivity |].
  f_equal. rewrite <- seq_shift, map_map. simpl. apply IH. lia.
Qed.

Lemma str_columns_shaped (df : DataFrame cell) :
  Forall (fun c => List.length (snd c) = List.length (rows df)) (str_columns df).
Proof.
  unfold str_columns. apply Forall_forall. intros c Hc.
  apply in_map_iff in Hc as (i & <- & _). simpl. apply length_map.
Qed.

Lemma row_of_str_columns (df : DataFrame cell) (k : nat) :
  well_formed df -> (k < List.length (rows df))%nat ->
  row_of_columns k (str_columns df)
  = combine (columns df) (map py_str (nth k (rows df) [])).
Proof.
  intros Hwf Hk. unfold row_of_columns, str_columns. rewrite map_map. cbn [fst snd].
  assert (Hlen : List.length (nth k (rows df) []) = List.length (columns df)).
  { unfold well_formed in Hwf. rewrite Forall_forall in Hwf.
    apply Hwf, nth_In, Hk. }
  rewrite <- (combine_seq (columns df) (map py_str (nth k (rows df) [])) "" "nan")
    by (now rewrite length_map).
  apply map_ext. intros i. f_equal.
  rewrite (map_nth_in (fun r => py_str (nth i r NaN)) (rows df) k [] "" Hk).
  symmetry. exact (map_nth py_str (nth k (rows df) []) NaN i).
Qed.

Lemma setitem_no_rows (df : DataFrame cell) (col_name : string) (values : list string) :
  rows df = [] -> rows (setitem df col_name values) = [].
Proof.
  intros H. unfold setitem. destruct (index_of col_name (columns df));
    cbn [rows]; now rewrite H.
Qed.

Lemma clean_columns_from_no_rows (cols : list (string * list string)) (skip : nat)
    (df : DataFrame cell) :
  rows df = [] -> rows (clean_columns_from cols skip df) = [].
Proof.
  revert skip df. induction cols as [|[col_name v] rest IH]; intros skip df H; simpl;
    [exact H |].
  destruct skip; [| now apply IH].
  destruct (look_ahead col_name v rest). apply IH, setitem_no_rows, H.
Qed.

(** The rows of [clean_columns] are the rows of the table, each merged on
    its own. *)
Lemma clean_columns_rows (df : DataFrame cell) :
  well_formed df ->
  rows (clean_columns df) = map (merge_row (columns df)) (rows df).
Proof.
  intros Hwf. unfold clean_columns.
  set (new_df := {| columns := []; rows := map (fun _ : list cell => []) (rows df) |}).
  assert (Hnew : List.length (rows new_df) = List.length (rows df))
    by (subst new_df; cbn [rows]; apply length_map).
  destruct (Nat.eq_dec (List.length (rows df)) 0) as [Hzero | Hnz].
  - apply length_zero_iff_nil in Hzero.
    rewrite clean_columns_from_no_rows by (subst new_df; cbn [rows]; now rewrite Hzero).
    now rewrite Hzero.
  - assert (Hpos : (0 < List.length (rows df))%nat) by lia.
    apply (nth_ext _ _ [] (merge_row (columns df) [])).
    + rewrite length_map.
      exact (proj1 (clean_columns_from_row _ 0 Hpos (str_columns df) 0 new_df
                      (str_columns_shaped df) Hnew)).
    + intros k Hk.
      assert (Hk' : (k < List.length (rows df))%nat).
      { rewrite (proj1 (clean_columns_from_row _ 0 Hpos (str_columns df) 0 new_df
                          (str_columns_shaped df) Hnew)) in Hk. exact Hk. }
      rewrite (map_nth (merge_row (columns df)) (rows df) [] k).
      pose proof (proj2 (clean_columns_from_row _ k Hk' (str_columns df) 0 new_df
                           (str_columns_shaped df) Hnew)) as Hrow.
      rewrite (row_of_str_columns df k Hwf Hk') in Hrow.
      assert (Hnil : nth k (rows new_df) [] = []).
      { subst new_df. cbn [rows].
        exact (map_nth_in (fun _ : list cell => []) (rows df) k [] [] Hk'). }
      rewrite Hnil in Hrow. change (columns new_df) with (@nil string) in Hrow.
      unfold merge_row. rewrite Hrow. reflexivity.
Qed.

Lemma nan_to_empty_not_nan (v : string) : nan_to_empty v <> "nan".
Proof.
  unfold nan_to_empty. destruct (String.eqb_spec v "nan"); [discriminate | assumption].
Qed.

Lemma Forall_set_nth {A : Type} (P : A -> Prop) (j : nat) (x : A) (l : list A) :
  Forall P l -> P x -> Forall P (set_nth j x l).
Proof.
  intros Hl Hx. revert j. induction Hl as [|a l Ha Hl IH]; intros j.
  - destruct j; constructor.
  - destruct j; simpl; constructor; auto.
Qed.

Lemma setitem_row_texts (labels : list string) (r : list cell) (col_name v : string) :
  Forall text_cell r -> v <> "nan" ->
  Forall text_cell (setitem_row labels r col_name v).
Proof.
  intros Hr Hv. unfold setitem_row.
  assert (Hx : text_cell (Str v)) by (exists v; auto).
  destruct (index_of col_name labels).
  - now apply Forall_set_nth.
  - apply Forall_app. split; [exact Hr | now constructor].
Qed.

Lemma clean_row_from_texts (cols : list (string * string)) (skip : nat)
    (labels : list string) (r : list cell) :
  Forall text_cell r -> Forall text_cell (snd (clean_row_from cols skip labels r)).
Proof.
  revert skip labels r. induction cols as [|[col_name v] rest IH];
    intros skip labels r Hr; simpl; [exact Hr |].
  destruct skip; [| now apply IH].
  destruct (look_ahead_row col_name v rest) as [combined added].
  apply IH, setitem_row_texts; [exact Hr | apply nan_to_empty_not_nan].
Qed.

Lemma merge_row_texts (labels : list string) (r : list cell) :
  Forall text_cell (merge_row labels r).
Proof. apply clean_row_from_texts. constructor. Qed.

(** A run of columns that all carry one label: the cells of a row are
    joined with single spaces, and the joined text becomes empty when it
    is, whole, the text ["nan"]. *)
Lemma join_spaces_cons (c t : string) (ts : list string) :
  join_spaces ((c ++ " " ++ t)%string :: ts) = (c ++ " " ++ join_spaces (t :: ts))%string.
Proof.
  destruct ts as [|t' ts]; [reflexivity |].
  cbn [join_spaces]. now rewrite !str_app_assoc.
Qed.

Lemma look_ahead_row_run (a c : string) (ts : list string) :
  look_ahead_row a c (combine (repeat a (List.length ts)) ts)
  = (join_spaces (c :: ts), List.length ts).
Proof.
  revert c. induction ts as [|t ts IH]; intros c; [reflexivity |].
  cbn [List.length repeat combine look_ahead_row].
  rewrite String.eqb_refl, IH, join_spaces_cons. reflexivity.
Qed.

Lemma clean_row_from_skip_all (cols : list (string * string)) (skip : nat)
    (labels : list string) (r : list cell) :
  skip = List.length cols -> clean_row_from cols skip labels r = (labels, r).
Proof.
  intros ->. induction cols as [|[col_name v] rest IH]; simpl; [reflexivity | exact IH].
Qed.

Lemma merge_row_single_run (a : string) (x : cell) (r : list cell) :
  merge_row (a :: repeat a (List.length r)) (x :: r)
  = [Str (nan_to_empty (join_spaces (map py_str (x :: r))))].
Proof.
  unfold merge_row. cbn [map combine clean_row_from].
  rewrite <- (length_map py_str r), look_ahead_row_run.
  rewrite clean_row_from_skip_all; [reflexivity |].
  rewrite length_combine, repeat_length. lia.
Qed.

Lemma filter_all {A : Type} (p : A -> bool) (l : list A) :
  (forall x, In x l -> p x = true) -> filter p l = l.
Proof.
  induction l as [|x l IH]; intros H; simpl; [reflexivity |].
  rewrite (H x (or_introl eq_refl)), IH; [reflexivity |].
  intros y Hy. apply H. now right.
Qed.

Lemma text_cells_notna (r : list cell) : Forall text_cell r -> forallb notna r = true.
Proof.
  intros H. apply forallb_forall. intros x Hx.
  rewrite Forall_forall in H. destruct (H x Hx) as (s & -> & _). reflexivity.
Qed.

(** C10.  Every cell of the table [clean_columns] returns is a text, none
    is missing: a missing cell of the source has gone into the text as
    ["nan"], and the text is made empty only when it is, whole, ["nan"]
    (so no cell is the text ["nan"] either).  Hence on such a table the
    first step of [clean_transaction_data], which drops the rows with a
    missing cell, drops nothing, and [clean_transaction_data] is the drop
    of the second column followed by the date and amount filter. *)
Theorem clean_columns_no_missing_cell (df : DataFrame cell) :
  well_formed df ->
  let merged := clean_columns df in
  (forall r x, In r (rows merged) -> In x r -> exists s, x = Str s /\ s <> "nan")
  /\ rows merged = map (merge_row (columns df)) (rows df)
  /\ (forall (a : string) (x : cell) (r : list cell),
        merge_row (a :: repeat a (List.length r)) (x :: r)
        = [Str (nan_to_empty (join_spaces (map py_str (x :: r))))])
  /\ dropna_rows merged = merged
  /\ clean_transaction_data merged
     = match drop_second_column merged with
       | Raise e => Raise e
       | Return dropped => validity_filter dropped
       end.
Proof.
  intros Hwf merged.
  assert (Hrows : rows merged = map (merge_row (columns df)) (rows df))
    by (apply clean_columns_rows, Hwf).
  assert (Htext : forall r, In r (rows merged) -> Forall text_cell r).
  { intros r Hr. rewrite Hrows in Hr. apply in_map_iff in Hr as (r0 & <- & _).
    apply merge_row_texts. }
  assert (Hdrop : dropna_rows merged = merged).
  { unfold dropna_rows. rewrite select_map, filter_all.
    - now destruct merged.
    - intros r Hr. apply text_cells_notna, Htext, Hr. }
  split; [| split; [exact Hrows | split; [exact merge_row_single_run | split]]].
  - intros r x Hr Hx. specialize (Htext r Hr). rewrite Forall_forall in Htext.
    exact (Htext x Hx).
  - exact Hdrop.
  - unfold clean_transaction_data. now rewrite Hdrop.
Qed.

Lemma clean_columns_no_missing_cell_witness :
  let df := mkDataFrame ["TRANS. DATE"; "DESCRIPTION"; "DESCRIPTION"; "AMOUNT"]
              [ [NaN; Str "Starting"; Str "Balance"; Str "1,000.00"];
                [Str "02/01/23"; NaN; Str "Coffee"; Str "20.00"];
                [Str "03/01/23"; NaN; NaN; NaN] ] in
  well_formed df
  /\ clean_columns df
     = mkDataFrame ["TRANS. DATE"; "DESCRIPTION"; "AMOUNT"]
         [ [Str ""; Str "Starting Balance"; Str "1,000.00"];
           [Str "02/01/23"; Str "nan Coffee"; Str "20.00"];
           [Str "03/01/23"; Str "nan nan"; Str ""] ]
  /\ dropna_rows (clean_columns df) = clean_columns df.
Proof.
  intros df.
  assert (Hwf : well_formed df) by (repeat constructor).
  split; [exact Hwf |]. split; [reflexivity |].
  exact (proj1 (proj2 (proj2 (proj2 (clean_columns_no_missing_cell df Hwf))))).
Defined.

(** C4 as stated fails.  A run of two columns labelled ["DESCRIPTION"]
    with a missing cell in the first: the merged cell is ["nan Coffee"],
    the text ["nan"] is in it, where the claim has [" Coffee"]. *)
Lemma clean_columns_keeps_nan_in_merged_cell :
  clean_columns
    (mkDataFrame ["DESCRIPTION"; "DESCRIPTION"; "AMOUNT"]
       [ [NaN; Str "Coffee"; Str "20.00"] ])
  = mkDataFrame ["DESCRIPTION"; "AMOUNT"] [ [Str "nan Coffee"; Str "20.00"] ]
  /\ claimed_merged_cell [NaN; Str "Coffee"] = " Coffee"
  /\ Str "nan Coffee" <> Str (claimed_merged_cell [NaN; Str "Coffee"]).
Proof. repeat split; try reflexivity. discriminate. Qed.

Example clean_columns_later_run_overwrites :
  clean_columns
    (mkDataFrame ["A"; "B"; "A"] [ [Str "1"; Str "2"; Str "3"] ])
  = mkDataFrame ["A"; "B"] [ [Str "3"; Str "2"] ].
Proof. reflexivity. Qed.

(* --------------------------------------------------------------------- *)
(** ** The labels of [clean_columns] *)
(* --------------------------------------------------------------------- *)

Lemma look_ahead_count (col_name : string) (v : list string)
    (rest : list (string * list string)) :
  snd (look_ahead col_name v rest) = run_length col_name (map fst rest).
Proof.
  revert v. induction rest as [|[name other] rest IH]; intros v; simpl; [reflexivity |].
  destruct (String.eqb name col_name); [| reflexivity].
  specialize (IH (add_column v other)).
  destruct (look_ahead col_name (add_column v other) rest). simpl in *. now rewrite IH.
Qed.

Lemma setitem_columns (df : DataFrame cell) (col_name : string) (values : list string) :
  columns (setitem df col_name values) = setitem_labels (columns df) col_name.
Proof.
  unfold setitem, setitem_labels. now destruct (index_of col_name (columns df)).
Qed.

Lemma clean_columns_from_columns (cols : list (string * list string)) (skip : nat)
    (df : DataFrame cell) :
  columns (clean_columns_from cols skip df) = labels_from (map fst cols) skip (columns df).
Proof.
  revert skip df. induction cols as [|[col_name v] rest IH]; intros skip df; simpl;
    [reflexivity |].
  destruct skip as [|skip]; [| apply IH].
  rewrite <- look_ahead_count with (v := v).
  destruct (look_ahead col_name v rest) as [combined added]. simpl.
  now rewrite IH, setitem_columns.
Qed.

Lemma map_nth_seq {A : Type} (l : list A) (d : A) :
  map (fun i => nth i l d) (seq 0 (List.length l)) = l.
Proof.
  induction l as [|a l IH]; simpl; [reflexivity |].
  f_equal. rewrite <- seq_shift, map_map. exact IH.
Qed.

Lemma clean_columns_columns (df : DataFrame cell) :
  columns (clean_columns df) = merged_labels (columns df).
Proof.
  unfold clean_columns, merged_labels. rewrite clean_columns_from_columns.
  unfold str_columns. rewrite map_map. cbn [fst columns].
  now rewrite map_nth_seq.
Qed.

(** [clean_columns], as a whole. *)
Lemma clean_columns_spec (df : DataFrame cell) :
  well_formed df ->
  clean_columns df
  = {| columns := merged_labels (columns df);
       rows := map (merge_row (columns df)) (rows df) |}.
Proof.
  intros Hwf. rewrite <- clean_columns_columns, <- (clean_columns_rows df Hwf).
  now destruct (clean_columns df).
Qed.

Lemma merged_labels_single_run (a : string) (n : nat) :
  merged_labels (a :: repeat a n) = [a].
Proof.
  unfold merged_labels. cbn [labels_from].
  assert (Hrun : run_length a (repeat a n) = n).
  { induction n as [|n IH]; simpl; [reflexivity |]. now rewrite String.eqb_refl, IH. }
  rewrite Hrun. change (setitem_labels [] a) with [a].
  generalize [a]. clear Hrun. induction n as [|n IH]; intros labels; simpl; auto.
Qed.

(* --------------------------------------------------------------------- *)
(** ** [process_pdf]: a failed reconciliation *)
(* --------------------------------------------------------------------- *)

(** C8.  In a run in which [validate_transaction_totals] raises, the
    functions that follow it, [filter_payment_transactions],
    [flip_amount_sign] and [save_to_csv], are not called, and no file is
    written. *)
Theorem failed_reconciliation_writes_nothing
    (converted : result (list (DataFrame cell))) (output_dir original_path : string)
    (e : exn) :
  let trace := process_pdf converted output_dir original_path in
  In (Failed Fvalidate_transaction_totals e) trace ->
  ~ called trace Ffilter_payment_transactions
  /\ ~ called trace Fflip_amount_sign
  /\ ~ called trace Fsave_to_csv
  /\ files_written trace = [].
Proof.
  unfold process_pdf, process_tables, called, lift, call, emit, tbind, save_to_csv.
  cbv zeta.
  destruct converted as [doc_tables | e0]; cbn [app].
  2:{ simpl. intuition discriminate. }
  destruct doc_tables as [|t0 ts].
  { simpl. intuition discriminate. }
  destruct (transaction_tables (t0 :: ts) 1) as [|d0 ds].
  { simpl. intuition discriminate. }
  generalize (concat (d0 :: ds)). intros combined.
  destruct (first_row_last_cell combined) as [c0 | e1];
    [| simpl; intuition discriminate].
  destruct (clean_amount_cell c0) as [starting | e1];
    [| simpl; intuition discriminate].
  destruct (last_row_last_cell combined) as [c1 | e1];
    [| simpl; intuition discriminate].
  destruct (clean_amount_cell c1) as [ending | e1];
    [| simpl; intuition discriminate].
  destruct (clean_transaction_data combined) as [df1 | e1];
    [| simpl; intuition discriminate].
  destruct (convert_data_types df1) as [df2 | e1];
    [| simpl; intuition discriminate].
  destruct (validate_transaction_totals df2 starting ending) as [[] | e1].
  - destruct (filter_payment_transactions df2) as [df3 | e1];
      [| simpl; intuition discriminate].
    destruct (flip_amount_sign df3) as [df4 | e1];
      simpl; intuition discriminate.
  - simpl. intuition discriminate.
Qed.

Lemma failed_reconciliation_writes_nothing_witness :
  let trace :=
    process_pdf
      (Return
         [mkDataFrame ["TRANS. DATE"; "POSTING DATE"; "DESCRIPTION"; "AMOUNT BAHT"]
            [ [Str ""; Str ""; Str "Starting Balance"; Str "1,000.00"];
              [Str "02/01/23"; Str "02/01/23"; Str "Purchase 1"; Str "2,000.00"];
              [Str ""; Str ""; Str "Ending Balance"; Str "9,000.00"] ]])
      "output" "statement.pdf" in
  In (Failed Fvalidate_transaction_totals ValueError) trace
  /\ ~ called trace Fsave_to_csv
  /\ files_written trace = [].
Proof.
  intros trace.
  assert (H : In (Failed Fvalidate_transaction_totals ValueError) trace)
    by (vm_compute; tauto).
  split; [exact H |].
  destruct (failed_reconciliation_writes_nothing _ _ _ _ H) as (_ & _ & Hsave & Hfiles).
  split; [exact Hsave | exact Hfiles].
Defined.

(* --------------------------------------------------------------------- *)
(** ** The text of a decimal *)
(* --------------------------------------------------------------------- *)

Lemma digit_char_is_digit (m : N) : (m < 10)%N -> is_digit (digit_char m) = true.
Proof.
  intros H.
  assert (Hm : (m = 0 \/ m = 1 \/ m = 2 \/ m = 3 \/ m = 4 \/ m = 5 \/ m = 6
               \/ m = 7 \/ m = 8 \/ m = 9)%N) by lia.
  repeat (destruct Hm as [-> | Hm]; [reflexivity |]). subst m. reflexivity.
Qed.

Lemma digits_fuel_digits (fuel : nat) (n : N) (acc : string) :
  str_forallb is_digit acc = true ->
  str_forallb is_digit (digits_fuel fuel n acc) = true.
Proof.
  revert n acc. induction fuel as [|fuel IH]; intros n acc Hacc;
    cbn [digits_fuel];
    assert (Hd : str_forallb is_digit (String (digit_char (n mod 10)) acc) = true)
      by (cbn [str_forallb]; rewrite digit_char_is_digit, Hacc;
          [reflexivity | apply N.mod_lt; discriminate]).
  - exact Hd.
  - destruct (n <? 10)%N; [exact Hd | apply IH, Hd].
Qed.

Lemma digits_fuel_length (fuel : nat) (n : N) (acc : string) :
  (String.length acc < String.length (digits_fuel fuel n acc))%nat.
Proof.
  revert n acc. induction fuel as [|fuel IH]; intros n acc; cbn [digits_fuel].
  - simpl. lia.
  - destruct (n <? 10)%N; [simpl; lia |].
    specialize (IH (n / 10)%N (String (digit_char (n mod 10)) acc)). simpl in IH. lia.
Qed.

Lemma str_of_N_digits (n : N) : str_forallb is_digit (str_of_N n) = true.
Proof. apply digits_fuel_digits. reflexivity. Qed.

Lemma str_of_N_length (n : N) : (1 <= String.length (str_of_N n))%nat.
Proof. pose proof (digits_fuel_length (N.size_nat n) n ""). simpl in H. exact H. Qed.

Lemma digits_fuel_ndigits (fuel : nat) (n : N) (acc : string) :
  String.length (digits_fuel fuel n acc) = (ndigits_fuel fuel n + String.length acc)%nat.
Proof.
  revert n acc. induction fuel as [|fuel IH]; intros n acc; cbn [digits_fuel ndigits_fuel].
  - reflexivity.
  - destruct (n <? 10)%N; [reflexivity |]. rewrite IH. simpl. lia.
Qed.

(** [len(self._int)] is the same number in [_fix] and in [__str__]. *)
Lemma str_of_N_ndigits (n : N) : String.length (str_of_N n) = ndigits n.
Proof. unfold str_of_N, ndigits. rewrite digits_fuel_ndigits. simpl. lia. Qed.

Example rounding_half_even :
  ndigits (10 ^ 28) = 29%nat
  /\ _fix (mkDecimal false 12345678901234567890123456785 0)
     = mkDecimal false 1234567890123456789012345678 1
  /\ _fix (mkDecimal false 12345678901234567890123456775 0)
     = mkDecimal false 1234567890123456789012345678 1
  /\ _fix (mkDecimal false 12345678901234567890123456786 0)
     = mkDecimal false 1234567890123456789012345679 1
  /\ _fix (mkDecimal true 99999999999999999999999999995 (-2))
     = mkDecimal true 1000000000000000000000000000 0.
Proof. vm_compute. repeat split; reflexivity. Qed.

Lemma slice_length (n : nat) (s : string) :
  String.length (slice_from n s) = (String.length s - n)%nat.
Proof.
  revert s. induction n as [|n IH]; intros s; destruct s as [|c s]; simpl; auto; lia.
Qed.

Lemma slice_from_forallb (p : ascii -> bool) (n : nat) (s : string) :
  str_forallb p s = true -> str_forallb p (slice_from n s) = true.
Proof.
  revert s. induction n as [|n IH]; intros s H; destruct s as [|c s]; simpl in *; auto.
  apply andb_true_iff in H as [_ H]. auto.
Qed.

Lemma slice_to_forallb (p : ascii -> bool) (n : nat) (s : string) :
  str_forallb p s = true -> str_forallb p (slice_to n s) = true.
Proof.
  revert s. induction n as [|n IH]; intros s H; destruct s as [|c s]; simpl in *; auto.
  apply andb_true_iff in H as [Hc H]. now rewrite Hc, IH.
Qed.

Lemma str_repeat_length (c : ascii) (n : nat) : String.length (str_repeat c n) = n.
Proof. induction n as [|n IH]; simpl; auto. Qed.

Lemma str_repeat_forallb (p : ascii -> bool) (c : ascii) (n : nat) :
  p c = true -> str_forallb p (str_repeat c n) = true.
Proof. intros Hc. induction n as [|n IH]; simpl; [reflexivity | now rewrite Hc, IH]. Qed.



Lemma Decimal_neg_exp (d : Decimal) :
  (d_int d < 10 ^ N.of_nat prec)%N -> d_exp (Decimal_neg d) = d_exp d.
Proof. intros H. unfold Decimal_neg. rewrite _fix_id; [reflexivity | exact H]. Qed.

(* --------------------------------------------------------------------- *)
(** ** The labels of the combined table are pairwise different *)
(* --------------------------------------------------------------------- *)

Lemma index_of_Some (x : string) (l : list string) (j : nat) :
  index_of x l = Some j -> (j < List.length l)%nat /\ nth j l "" = x.
Proof.
  revert j. induction l as [|y l IH]; intros j; simpl; [discriminate |].
  destruct (String.eqb_spec y x) as [-> | Hne].
  - intros [= <-]. split; [lia | reflexivity].
  - destruct (index_of x l) as [j'|]; [| discriminate].
    intros [= <-]. destruct (IH j' eq_refl). split; [lia | assumption].
Qed.

Lemma index_of_None (x : string) (l : list string) :
  index_of x l = None <-> ~ In x l.
Proof.
  induction l as [|y l IH]; simpl; [tauto |].
  destruct (String.eqb_spec y x) as [-> | Hne].
  - split; [discriminate | tauto].
  - destruct (index_of x l) as [j|] eqn:Hj.
    + split; [discriminate |]. intros H. exfalso. apply H. right.
      destruct (index_of_Some x l j Hj) as [Hlt <-]. now apply nth_In.
    + split; [| reflexivity]. intros _ [H | H]; [congruence |].
      now apply (proj1 IH).
Qed.

Lemma setitem_labels_NoDup (labels : list string) (col_name : string) :
  NoDup labels -> NoDup (setitem_labels labels col_name).
Proof.
  intros H. unfold setitem_labels.
  destruct (index_of col_name labels) eqn:Hi; [exact H |].
  apply index_of_None in Hi. apply NoDup_app; [exact H | repeat constructor; auto |].
  intros x Hx [<- | []]. contradiction.
Qed.

Lemma labels_from_NoDup (names : list string) (skip : nat) (labels : list string) :
  NoDup labels -> NoDup (labels_from names skip labels).
Proof.
  revert skip labels. induction names as [|name names IH]; intros skip labels H; simpl;
    [exact H |].
  destruct skip; [apply IH, setitem_labels_NoDup, H | apply IH, H].
Qed.

Lemma clean_columns_NoDup (df : DataFrame cell) : NoDup (columns (clean_columns df)).
Proof. rewrite clean_columns_columns. apply labels_from_NoDup. constructor. Qed.

Lemma transaction_tables_NoDup (tables : list (DataFrame cell)) (i : nat) :
  Forall (fun df => NoDup (columns df)) (transaction_tables tables i).
Proof.
  revert i. induction tables as [|df tables IH]; intros i; simpl; [constructor |].
  destruct (negb (validate_transaction_table_columns (clean_columns df) i)); [apply IH |].
  constructor; [apply clean_columns_NoDup | apply IH].
Qed.

Lemma union_columns_NoDup (dfs : list (DataFrame cell)) :
  Forall (fun df => NoDup (columns df)) dfs -> NoDup (union_columns dfs).
Proof.
  unfold union_columns.
  assert (H : forall acc, NoDup acc -> Forall (fun df : DataFrame cell => NoDup (columns df)) dfs ->
            NoDup (fold_left
                     (fun acc df =>
                        acc ++ filter (fun c => negb (existsb (String.eqb c) acc)) (columns df))
                     dfs acc)).
  { induction dfs as [|df dfs IH]; intros acc Hacc Hdfs; simpl; [exact Hacc |].
    inversion Hdfs as [|? ? Hdf Hdfs']; subst. apply IH; [| exact Hdfs'].
    apply NoDup_app; [exact Hacc | now apply NoDup_filter |].
    intros x Hx Hf. apply filter_In in Hf as [_ Hf].
    apply negb_true_iff in Hf.
    assert (Hex : existsb (String.eqb x) acc = true).
    { apply existsb_exists. exists x. split; [exact Hx | apply String.eqb_refl]. }
    congruence. }
  intros Hdfs. apply H; [constructor | exact Hdfs].
Qed.



(* --------------------------------------------------------------------- *)
(** ** [process_pdf]: the exported file *)
(* --------------------------------------------------------------------- *)

Lemma mapM_Forall2 {A B : Type} (f : A -> result B) (l : list A) (ys : list B) :
  mapM f l = Return ys -> Forall2 (fun x y => f x = Return y) l ys.
Proof.
  revert ys. induction l as [|x l IH]; intros ys; simpl.
  - intros [= <-]. constructor.
  - destruct (f x) as [y|e] eqn:Hx; [| discriminate].
    destruct (mapM f l) as [ys'|e]; [| discriminate].
    intros [= <-]. constructor; auto.
Qed.

Lemma Forall2_map2 {A B C : Type} (R : A -> B -> Prop) (g : A -> B -> C)
    (l : list A) (ys : list B) :
  Forall2 R l ys ->
  Forall2 (fun x z => exists y, R x y /\ z = g x y) l (map2 g l ys).
Proof. induction 1; simpl; constructor; eauto. Qed.


Lemma Forall2_impl {A B : Type} (P Q : A -> B -> Prop) (l : list A) (l' : list B) :
  (forall a b, In a l -> P a b -> Q a b) -> Forall2 P l l' -> Forall2 Q l l'.
Proof.
  intros H F. induction F as [|a b l l' Hab F IH]; constructor.
  - apply H; [now left | exact Hab].
  - apply IH. intros a' b' Ha'. apply H. now right.
Qed.


Lemma select_incl {A : Type} (mask : list bool) (l : list A) :
  incl (select mask l) l.
Proof.
  revert mask. induction l as [|x l IH]; intros [|b mask]; simpl;
    try (intros y []).
  destruct b.
  - intros y [<- | Hy]; [now left | right; eapply IH; eauto].
  - intros y Hy. right. eapply IH; eauto.
Qed.

Lemma last_set_last {A : Type} (x d : A) (l : list A) :
  l <> [] -> last (set_last x l) d = x.
Proof.
  intros H. unfold set_last. destruct l as [|a l]; [congruence |].
  apply last_last.
Qed.

Lemma last_map {A B : Type} (f : A -> B) (l : list A) (d : A) :
  last (map f l) (f d) = f (last l d).
Proof.
  induction l as [|a l IH]; [reflexivity |].
  destruct l as [|b l]; [reflexivity |]. exact IH.
Qed.


Lemma filter_payment_transactions_incl (df2 df3 : DataFrame obj) :
  filter_payment_transactions df2 = Return df3 ->
  columns df3 = columns df2 /\ incl (rows df3) (rows df2).
Proof.
  unfold filter_payment_transactions.
  destruct (columns df2) as [|c0 [|c1 cs]]; try discriminate.
  - destruct (mapM _ (rows df2)); discriminate.
  - destruct (mapM _ (rows df2)) as [negative|e]; [| discriminate].
    destruct (str_accessor _); [| discriminate].
    intros [= <-]. cbn [columns rows]. split; [reflexivity | apply select_incl].
Qed.

Lemma flip_amount_sign_rows (df3 df4 : DataFrame obj) :
  flip_amount_sign df3 = Return df4 ->
  columns df4 = columns df3
  /\ Forall2 (fun r3 r4 => exists x, negate (last r3 ONaN) = Return x /\ r4 = set_last x r3)
       (rows df3) (rows df4).
Proof.
  unfold flip_amount_sign. destruct (columns df3) as [|c cs]; [discriminate |].
  destruct (mapM _ (rows df3)) as [flipped|e] eqn:Hf; [| discriminate].
  intros [= <-]. cbn [columns rows]. split; [reflexivity |].
  apply mapM_Forall2 in Hf.
  exact (Forall2_map2 _ (fun r x => set_last x r) _ _ Hf).
Qed.


(** A run that writes a file has gone through every step of the
    pipeline, and the file is the final table. *)
Lemma export_inversion (converted : result (list (DataFrame cell)))
    (output_dir original_path path : string) (content : CsvFile) :
  In (path, content) (files_written (process_pdf converted output_dir original_path)) ->
  exists tables starting ending df1 df2 df3 df4,
    converted = Return tables
    /\ clean_transaction_data (concat (transaction_tables tables 1)) = Return df1
    /\ convert_data_types df1 = Return df2
    /\ validate_transaction_totals df2 starting ending = Return tt
    /\ filter_payment_transactions df2 = Return df3
    /\ flip_amount_sign df3 = Return df4
    /\ content = to_csv df4.
Proof.
  unfold process_pdf, process_tables, lift, call, emit, tbind, save_to_csv.
  cbv zeta.
  destruct converted as [tables | e0]; cbn [app]; [| simpl; tauto].
  destruct tables as [|t0 ts]; [simpl; intuition discriminate |].
  destruct (transaction_tables (t0 :: ts) 1) as [|d0 ds] eqn:Htt;
    [simpl; intuition discriminate |].
  destruct (first_row_last_cell (concat (d0 :: ds))) as [c0 | e1]; [| simpl; tauto].
  destruct (clean_amount_cell c0) as [starting | e1]; [| simpl; tauto].
  destruct (last_row_last_cell (concat (d0 :: ds))) as [c1 | e1]; [| simpl; tauto].
  destruct (clean_amount_cell c1) as [ending | e1]; [| simpl; tauto].
  destruct (clean_transaction_data (concat (d0 :: ds))) as [df1 | e1] eqn:H1;
    [| simpl; tauto].
  destruct (convert_data_types df1) as [df2 | e1] eqn:H2; [| simpl; tauto].
  destruct (validate_transaction_totals df2 starting ending) as [[] | e1] eqn:H3;
    [| simpl; tauto].
  destruct (filter_payment_transactions df2) as [df3 | e1] eqn:H4; [| simpl; tauto].
  destruct (flip_amount_sign df3) as [df4 | e1] eqn:H5; [| simpl; tauto].
  simpl. intros [[= _ <-] | []].
  exists (t0 :: ts), starting, ending, df1, df2, df3, df4. rewrite Htt. auto 10.
Qed.




(* --------------------------------------------------------------------- *)
(** ** [clean_columns]: the cell of a merged run *)
(* --------------------------------------------------------------------- *)

Lemma look_ahead_row_count (col_name combined : string) (rest : list (string * string)) :
  snd (look_ahead_row col_name combined rest) = run_length col_name (map fst rest).
Proof.
  revert combined. induction rest as [|[name other] rest IH]; intros combined; simpl;
    [reflexivity |].
  destruct (String.eqb name col_name); [| reflexivity].
  specialize (IH (combined ++ String " " other)%string).
  destruct (look_ahead_row col_name (combined ++ String " " other) rest).
  simpl in *. now rewrite IH.
Qed.

Lemma run_length_le (col_name : string) (names : list string) :
  (run_length col_name names <= List.length names)%nat.
Proof.
  induction names as [|name names IH]; simpl; [lia |].
  destruct (String.eqb name col_name); lia.
Qed.

Lemma clean_row_from_labels (cols : list (string * string)) (skip : nat)
    (labels : list string) (r : list cell) :
  fst (clean_row_from cols skip labels r) = labels_from (map fst cols) skip labels.
Proof.
  revert skip labels r. induction cols as [|[col_name v] rest IH];
    intros skip labels r; simpl; [reflexivity |].
  destruct skip as [|skip]; [| apply IH].
  rewrite <- (look_ahead_row_count col_name v rest).
  destruct (look_ahead_row col_name v rest) as [combined added]. simpl. apply IH.
Qed.

Lemma clean_row_from_length (cols : list (string * string)) (skip : nat)
    (labels : list string) (r : list cell) :
  List.length r = List.length labels ->
  List.length (snd (clean_row_from cols skip labels r))
  = List.length (fst (clean_row_from cols skip labels r)).
Proof.
  revert skip labels r. induction cols as [|[col_name v] rest IH];
    intros skip labels r Hlen; simpl; [exact Hlen |].
  destruct skip as [|skip]; [| now apply IH].
  destruct (look_ahead_row col_name v rest) as [combined added].
  apply IH. unfold setitem_row, setitem_labels.
  destruct (index_of col_name labels).
  - rewrite <- Hlen. clear. generalize (Str (nan_to_empty combined)). intros x.
    revert n. induction r as [|y r IHr]; intros [|n]; simpl; auto.
  - rewrite !length_app. simpl. lia.
Qed.

Lemma labels_from_In (names : list string) (skip : nat) (labels : list string)
    (x : string) :
  In x (labels_from names skip labels) -> In x labels \/ In x names.
Proof.
  revert skip labels. induction names as [|name names IH]; intros skip labels; simpl;
    [tauto |].
  destruct skip as [|skip]; intros H; apply IH in H.
  - destruct H as [H | H]; [| tauto]. unfold setitem_labels in H.
    destruct (index_of name labels); [tauto |].
    apply in_app_iff in H as [H | [H | []]]; tauto.
  - tauto.
Qed.

Lemma map_fst_combine {A B : Type} (l : list A) (l' : list B) :
  List.length l' = List.length l -> map fst (combine l l') = l.
Proof.
  revert l'. induction l as [|x l IH]; intros [|y l'] H; simpl in *; try discriminate;
    [reflexivity |].
  f_equal. apply IH. lia.
Qed.

Lemma combine_app {A B : Type} (l1 l2 : list A) (l1' l2' : list B) :
  List.length l1 = List.length l1' ->
  combine (l1 ++ l2) (l1' ++ l2') = combine l1 l1' ++ combine l2 l2'.
Proof.
  revert l1'. induction l1 as [|x l1 IH]; intros [|y l1'] H; simpl in *; try discriminate;
    [reflexivity |].
  f_equal. apply IH. lia.
Qed.

Lemma length_combine_run (a : string) (ts : list string) :
  List.length (combine (repeat a (List.length ts)) ts) = List.length ts.
Proof. rewrite length_combine, repeat_length. lia. Qed.

Section MergedRun.

(** The label of the run. *)
Variable a : string.

Lemma look_ahead_row_stops (col_name combined w : string)
    (b rest : list (string * string)) :
  col_name <> a ->
  look_ahead_row col_name combined (b ++ (a, w) :: rest)
  = look_ahead_row col_name combined b.
Proof.
  intros Hne. revert combined. induction b as [|[name other] b IH]; intros combined; simpl.
  - destruct (String.eqb_spec a col_name); [congruence | reflexivity].
  - destruct (String.eqb name col_name); [| reflexivity]. now rewrite IH.
Qed.

(** The columns before the run are worked off before the run starts. *)
Lemma clean_row_from_before (before : list (string * string)) (w : string)
    (rest : list (string * string)) (skip : nat) (labels : list string)
    (r : list cell) :
  (forall c, In c before -> fst c <> a) ->
  (skip <= List.length before)%nat ->
  clean_row_from (before ++ (a, w) :: rest) skip labels r
  = clean_row_from ((a, w) :: rest) 0
      (fst (clean_row_from before skip labels r))
      (snd (clean_row_from before skip labels r)).
Proof.
  revert skip labels r. induction before as [|[col_name v] before IH];
    intros skip labels r Hne Hskip.
  - simpl in Hskip. assert (skip = 0%nat) as -> by lia. reflexivity.
  - cbn [app clean_row_from].
    assert (Hne' : forall c, In c before -> fst c <> a)
      by (intros c Hc; apply Hne; now right).
    destruct skip as [|skip]; [| apply IH; [exact Hne' | simpl in Hskip; lia]].
    rewrite look_ahead_row_stops by (apply (Hne (col_name, v)); now left).
    pose proof (look_ahead_row_count col_name v before) as Hcount.
    pose proof (run_length_le col_name (map fst before)) as Hle.
    rewrite length_map in Hle.
    destruct (look_ahead_row col_name v before) as [combined added]. simpl in Hcount.
    apply IH; [exact Hne' | lia].
Qed.

Lemma look_ahead_row_run_then (combined : string) (ts : list string)
    (after : list (string * string)) :
  (forall c, In c after -> fst c <> a) ->
  look_ahead_row a combined (combine (repeat a (List.length ts)) ts ++ after)
  = (join_spaces (combined :: ts), List.length ts).
Proof.
  intros Hne. revert combined. induction ts as [|t ts IH]; intros combined.
  - cbn [List.length repeat combine app join_spaces].
    destruct after as [|[name other] after]; [reflexivity |]. simpl.
    destruct (String.eqb_spec name a) as [-> | _]; [| reflexivity].
    exfalso. apply (Hne (a, other)); [now left | reflexivity].
  - cbn [List.length repeat combine app look_ahead_row].
    rewrite String.eqb_refl, IH, join_spaces_cons. reflexivity.
Qed.

Lemma clean_row_from_skip_run (run after : list (string * string)) (skip : nat)
    (labels : list string) (r : list cell) :
  skip = List.length run ->
  clean_row_from (run ++ after) skip labels r = clean_row_from after 0 labels r.
Proof. intros ->. induction run as [|[col_name v] run IH]; simpl; auto. Qed.

Lemma index_of_app_new (labels : list string) :
  ~ In a labels -> index_of a (labels ++ [a]) = Some (List.length labels).
Proof.
  induction labels as [|l labels IH]; intros H; simpl.
  - now rewrite String.eqb_refl.
  - destruct (String.eqb_spec l a) as [-> | _]; [exfalso; apply H; now left |].
    rewrite IH; [reflexivity |]. intros Hin. apply H. now right.
Qed.

Lemma index_of_app_old (labels : list string) (l : string) (p : nat) :
  index_of a labels = Some p -> index_of a (labels ++ [l]) = Some p.
Proof.
  revert p. induction labels as [|l0 labels IH]; intros p; simpl; [discriminate |].
  destruct (String.eqb l0 a); [auto |].
  destruct (index_of a labels) as [j|]; [| discriminate].
  intros [= <-]. now rewrite (IH j eq_refl).
Qed.

Lemma set_nth_other {A : Type} (j p : nat) (x d : A) (l : list A) :
  j <> p -> nth p (set_nth j x l) d = nth p l d.
Proof.
  revert j p. induction l as [|y l IH]; intros j p Hne; [now destruct j |].
  destruct j as [|j], p as [|p]; simpl; try reflexivity; try lia.
  apply IH. lia.
Qed.

(** The columns after the run leave the cell of the run as it is. *)
Lemma clean_row_from_after (after : list (string * string)) (skip : nat)
    (labels : list string) (r : list cell) (p : nat) :
  (forall c, In c after -> fst c <> a) ->
  index_of a labels = Some p -> List.length r = List.length labels ->
  index_of a (fst (clean_row_from after skip labels r)) = Some p
  /\ nth p (snd (clean_row_from after skip labels r)) NaN = nth p r NaN.
Proof.
  revert skip labels r. induction after as [|[col_name v] after IH];
    intros skip labels r Hne Hp Hlen; simpl; [auto |].
  assert (Hne' : forall c, In c after -> fst c <> a)
    by (intros c Hc; apply Hne; now right).
  destruct skip as [|skip]; [| now apply IH].
  destruct (look_ahead_row col_name v after) as [combined added].
  assert (Hcol : col_name <> a) by (apply (Hne (col_name, v)); now left).
  destruct (index_of_Some a labels p Hp) as [Hlt Hnth].
  unfold setitem_labels, setitem_row.
  destruct (index_of col_name labels) as [j|] eqn:Hj.
  - destruct (index_of_Some col_name labels j Hj) as [_ Hnj].
    assert (Hjp : j <> p) by (intros ->; congruence).
    destruct (IH added labels (set_nth j (Str (nan_to_empty combined)) r) Hne' Hp)
      as [IH1 IH2].
    { rewrite <- Hlen. clear. generalize (Str (nan_to_empty combined)). intros x.
      revert j. induction r as [|y r IHr]; intros [|j]; simpl; auto. }
    split; [exact IH1 |]. rewrite IH2. now apply set_nth_other.
  - destruct (IH added (labels ++ [col_name]) (r ++ [Str (nan_to_empty combined)]) Hne'
                (index_of_app_old labels col_name p Hp)) as [IH1 IH2].
    { rewrite !length_app. simpl. lia. }
    split; [exact IH1 |]. rewrite IH2. apply app_nth1. lia.
Qed.

(** A row in which the label [a] is carried by one run of columns, and
    by no other column: the cell of the column [a] of the merged row. *)
Lemma merge_row_run (before after : list string) (rb rr ra : list cell) (x : cell) :
  ~ In a before -> ~ In a after ->
  List.length rb = List.length before -> List.length ra = List.length after ->
  let labels := before ++ a :: repeat a (List.length rr) ++ after in
  let row := rb ++ x :: rr ++ ra in
  exists p, index_of a (merged_labels labels) = Some p
    /\ nth p (merge_row labels row) NaN
       = Str (nan_to_empty (join_spaces (map py_str (x :: rr)))).
Proof.
  intros Hb Ha Hlb Hla labels row.
  set (B := combine before (map py_str rb)).
  set (R := combine (repeat a (List.length (map py_str rr))) (map py_str rr)).
  set (A := combine after (map py_str ra)).
  assert (Hcols : combine labels (map py_str row) = B ++ (a, py_str x) :: R ++ A).
  { subst labels row B R A. rewrite map_app. cbn [map]. rewrite map_app.
    rewrite combine_app by (now rewrite length_map). cbn [combine]. f_equal. f_equal.
    rewrite length_map. apply combine_app. now rewrite repeat_length, length_map. }
  assert (Hfst : map fst (combine labels (map py_str row)) = labels).
  { apply map_fst_combine. subst labels row.
    rewrite length_map, !length_app. cbn [List.length].
    rewrite !length_app, repeat_length. lia. }
  assert (HB : forall c, In c B -> fst c <> a).
  { intros [l v] Hc Heq. simpl in Heq. subst l. apply in_combine_l in Hc. contradiction. }
  assert (HA : forall c, In c A -> fst c <> a).
  { intros [l v] Hc Heq. simpl in Heq. subst l. apply in_combine_l in Hc. contradiction. }
  assert (Hml : merged_labels labels
                = fst (clean_row_from (combine labels (map py_str row)) 0 [] []))
    by (now rewrite clean_row_from_labels, Hfst).
  rewrite Hml. unfold merge_row. rewrite Hcols. clear Hml Hfst Hcols.
  rewrite (clean_row_from_before B (py_str x) (R ++ A) 0 [] [] HB) by lia.
  pose proof (clean_row_from_length B 0 [] [] eq_refl) as Hlen1.
  pose proof (clean_row_from_labels B 0 [] []) as Hlabels1.
  destruct (clean_row_from B 0 [] []) as [L1 r1]. cbn [fst snd] in *.
  assert (HL1 : ~ In a L1).
  { intros Hin. rewrite Hlabels1 in Hin. apply labels_from_In in Hin as [[] | Hin].
    apply in_map_iff in Hin as (c & Hc & Hin). exact (HB c Hin Hc). }
  cbn [clean_row_from]. subst R.
  rewrite (look_ahead_row_run_then (py_str x) (map py_str rr) A HA).
  rewrite clean_row_from_skip_run
    by (symmetry; apply (length_combine_run a (map py_str rr))).
  unfold setitem_labels, setitem_row.
  rewrite (proj2 (index_of_None a L1) HL1).
  set (m := nan_to_empty (join_spaces (py_str x :: map py_str rr))).
  destruct (clean_row_from_after A 0 (L1 ++ [a]) (r1 ++ [Str m]) (List.length L1) HA
              (index_of_app_new L1 HL1)) as [Hp Hcell].
  { rewrite !length_app. simpl. lia. }
  exists (List.length L1). split; [exact Hp |].
  rewrite Hcell, <- Hlen1. apply nth_middle.
Qed.

End MergedRun.

Lemma Forall2_map_self {A B : Type} (P : A -> B -> Prop) (f : A -> B) (l : list A) :
  (forall x, In x l -> P x (f x)) -> Forall2 P l (map f l).
Proof.
  induction l as [|x l IH]; intros H; simpl; constructor.
  - apply H. now left.
  - apply IH. intros y Hy. apply H. now right.
Qed.

Lemma row_of_run {A : Type} (r : list A) (lb n la : nat) :
  List.length r = (lb + S n + la)%nat ->
  exists rb x rr ra,
    r = rb ++ x :: rr ++ ra
    /\ List.length rb = lb /\ List.length rr = n /\ List.length ra = la
    /\ firstn (S n) (skipn lb r) = x :: rr.
Proof.
  intros Hlen.
  assert (Hrest : List.length (skipn lb r) = (S n + la)%nat)
    by (rewrite length_skipn; lia).
  destruct (skipn lb r) as [|x rest] eqn:Hskip; [discriminate |].
  simpl in Hrest.
  exists (firstn lb r), x, (firstn n rest), (skipn n rest).
  repeat split.
  - rewrite firstn_skipn, <- Hskip, firstn_skipn. reflexivity.
  - rewrite length_firstn. lia.
  - rewrite length_firstn. lia.
  - rewrite length_skipn. lia.
Qed.

(** C4, as the code has it.  In a table in which the label [a] is carried
    by one run of [n + 1] consecutive columns and by no other column, the
    result of [clean_columns] has a column [a], and in every row its cell
    is the text forms of the cells of the run (a missing cell giving
    ["nan"]) joined with single spaces; that text is replaced by the
    empty text only when it is, whole, the text ["nan"]. *)
Theorem clean_columns_merged_run (df : DataFrame cell) (before after : list string)
    (a : string) (n : nat) :
  well_formed df ->
  columns df = before ++ a :: repeat a n ++ after ->
  ~ In a before -> ~ In a after ->
  exists p,
    index_of a (columns (clean_columns df)) = Some p
    /\ Forall2
         (fun r r' =>
            nth p r' NaN
            = Str (nan_to_empty
                     (join_spaces
                        (map py_str (firstn (S n) (skipn (List.length before) r))))))
         (rows df) (rows (clean_columns df)).
Proof.
  intros Hwf Hcols Hb Ha.
  rewrite (clean_columns_spec df Hwf). cbn [columns rows]. rewrite Hcols.
  destruct (merge_row_run a before after (repeat NaN (List.length before))
              (repeat NaN n) (repeat NaN (List.length after)) NaN Hb Ha)
    as (p & Hp & _); try apply repeat_length.
  rewrite repeat_length in Hp.
  exists p. split; [exact Hp |].
  apply Forall2_map_self. intros r Hr.
  assert (Hlen : List.length r = (List.length before + S n + List.length after)%nat).
  { unfold well_formed in Hwf. rewrite Forall_forall in Hwf.
    rewrite (Hwf r Hr), Hcols, length_app. cbn [List.length].
    rewrite length_app, repeat_length. lia. }
  destruct (row_of_run r _ _ _ Hlen) as (rb & x & rr & ra & -> & Hlb & Hlr & Hla & ->).
  destruct (merge_row_run a before after rb rr ra x Hb Ha Hlb Hla) as (p' & Hp' & Hcell).
  rewrite Hlr in Hp', Hcell.
  assert (p' = p) by congruence. subst p'. exact Hcell.
Qed.

Lemma clean_columns_merged_run_witness :
  let df := mkDataFrame ["TRANS. DATE"; "DESCRIPTION"; "DESCRIPTION"; "AMOUNT"]
              [ [Str "01/01/23"; Str "Coffee"; Str "shop"; Str "20.00"];
                [Str "02/01/23"; NaN; Str "Tea"; Str "5.00"];
                [Str "03/01/23"; NaN; NaN; NaN] ] in
  well_formed df
  /\ columns df = ["TRANS. DATE"] ++ "DESCRIPTION" :: repeat "DESCRIPTION" 1 ++ ["AMOUNT"]
  /\ ~ In "DESCRIPTION" ["TRANS. DATE"] /\ ~ In "DESCRIPTION" ["AMOUNT"]
  /\ exists p,
       index_of "DESCRIPTION" (columns (clean_columns df)) = Some p
       /\ map (fun r' => nth p r' NaN) (rows (clean_columns df))
          = [Str "Coffee shop"; Str "nan Tea"; Str "nan nan"].
Proof.
  intros df.
  assert (Hwf : well_formed df) by (repeat constructor).
  assert (Hb : ~ In "DESCRIPTION" ["TRANS. DATE"]) by (intros [H | []]; discriminate).
  assert (Ha : ~ In "DESCRIPTION" ["AMOUNT"]) by (intros [H | []]; discriminate).
  split; [exact Hwf |]. split; [reflexivity |]. split; [exact Hb |]. split; [exact Ha |].
  destruct (clean_columns_merged_run df ["TRANS. DATE"] ["AMOUNT"] "DESCRIPTION" 1
              Hwf eq_refl Hb Ha) as (p & Hp & _).
  exists p. split; [exact Hp |].
  vm_compute in Hp. injection Hp as <-. reflexivity.
Defined.

(* --------------------------------------------------------------------- *)
(** ** [clean_amount]: the decimal, the prefix, the final line feed *)
(* --------------------------------------------------------------------- *)

(** X1.  What [clean_amount] returns, digit for digit.  Whenever it
    returns a decimal, the text (a leading ["- "] joined to ["-"]) ends with
    a word of the pattern whose comma-free form is an optional minus sign,
    digits, a dot and one digit at least; the decimal has the sign written
    there, its coefficient is the digits read as one number, and its
    exponent is minus the number of fraction digits.  So the scale of the
    text is kept (["1.5"] and ["1.50"] give different decimals), and every
    amount has a fraction digit. *)
Theorem clean_amount_scale_and_sign (s : string) (d : Decimal) :
  clean_amount s = Return d ->
  exists m i f,
    amount_match (join_minus s) m
    /\ remove_char "," m = ((if d_sign d then "-" else "") ++ i ++ String "." f)%string
    /\ str_forallb is_digit i = true
    /\ str_forallb is_digit f = true /\ f <> ""
    /\ d_int d = int_of_digits (i ++ f)
    /\ d_exp d = (- Z.of_nat (String.length f))%Z.
Proof.
  unfold clean_amount.
  destruct (re_search_amount (join_minus s)) as [m|] eqn:Hs; [| discriminate].
  apply re_search_amount_sound in Hs. pose proof Hs as [[Hpat _] _].
  destruct (remove_commas_pattern m Hpat) as (y & f & Hu & Hy & Hf0 & Hf).
  rewrite Hu, (numeral_text_strip y f Hy Hf).
  destruct (Decimal_of_signed_text y f Hy Hf Hf0) as (neg & yb & -> & Hyb & -> & _).
  destruct (digits_or_first_minus yb Hyb) as [Hall | (y1 & y2 & -> & Hy1)].
  - rewrite (Decimal_of_digits_numeral neg yb f Hall Hf Hf0). intros [= <-].
    exists m, yb, f. cbn [d_sign d_int d_exp].
    rewrite Hu, str_app_assoc. auto 10.
  - rewrite str_app_assoc. simpl append.
    rewrite (Decimal_of_digits_minus neg y1 _ Hy1). discriminate.
Qed.

Lemma clean_amount_scale_and_sign_witness :
  clean_amount "-1,234.50" = Return (mkDecimal true 123450 (-2))
  /\ exists m i f,
       amount_match (join_minus "-1,234.50") m
       /\ remove_char "," m = ("-" ++ i ++ String "." f)%string
       /\ (-2 = - Z.of_nat (String.length f))%Z.
Proof.
  assert (H : clean_amount "-1,234.50" = Return (mkDecimal true 123450 (-2)))
    by reflexivity.
  split; [exact H |].
  destruct (clean_amount_scale_and_sign _ _ H) as (m & i & f & Hm & Hu & _ & _ & _ & _ & He).
  exists m, i, f. auto.
Defined.

(** Two ways to cut one text. *)
Lemma str_app_eq_cases (a b a' b' : string) :
  (a ++ b)%string = (a' ++ b')%string ->
  (String.length a' <= String.length a)%nat ->
  exists k, a = (a' ++ k)%string /\ b' = (k ++ b)%string.
Proof.
  revert a. induction a' as [|c a' IH]; intros a H Hlen.
  - exists a. simpl in *. auto.
  - destruct a as [|c0 a]; [simpl in Hlen; lia |].
    simpl in H. injection H as -> H.
    destruct (IH a H) as (k & -> & ->); [simpl in Hlen; lia |].
    exists k. auto.
Qed.

Lemma str_forallb_last (p : ascii -> bool) (s : string) (c : ascii) :
  str_forallb p s = true -> str_last s = Some c -> p c = true.
Proof.
  induction s as [|a s IH]; [discriminate |].
  simpl. intros H. apply andb_true_iff in H as [Ha Hs].
  destruct s as [|b s]; [intros [= <-]; exact Ha | auto].
Qed.

Lemma str_last_nonempty (s : string) : s <> "" -> exists c, str_last s = Some c.
Proof.
  induction s as [|a s IH]; [congruence |]. intros _.
  destruct s as [|b s]; [now exists a |].
  destruct IH as [c Hc]; [discriminate |]. exists c. exact Hc.
Qed.

(** The point of a word of the pattern is its last point. *)
Lemma point_split_unique (a d a' d' : string) :
  (a ++ String "." d)%string = (a' ++ String "." d')%string ->
  str_forallb is_digit d = true -> str_forallb is_digit d' = true ->
  a = a' /\ d = d'.
Proof.
  assert (Hgen : forall a d a' d' : string,
            (a ++ String "." d)%string = (a' ++ String "." d')%string ->
            str_forallb is_digit d' = true ->
            (String.length a' <= String.length a)%nat -> a = a' /\ d = d').
  { clear. intros a d a' d' H Hd' Hlen.
    assert (H' : ((a ++ ".") ++ d)%string = ((a' ++ ".") ++ d')%string)
      by (now rewrite !str_app_assoc).
    destruct (str_app_eq_cases _ _ _ _ H') as (k & Hk & ->).
    { rewrite !str_length_app. simpl. lia. }
    destruct k as [|c k].
    - rewrite str_app_nil_r in Hk. apply str_app_inv_tail in Hk. auto.
    - exfalso.
      assert (Hlast : str_last (String c k) = Some "."%char).
      { rewrite <- (str_last_app (a' ++ ".") (String c k)) by discriminate.
        rewrite <- Hk. apply str_last_snoc. }
      rewrite str_forallb_app in Hd'. apply andb_true_iff in Hd' as [Hk' _].
      pose proof (str_forallb_last _ _ _ Hk' Hlast) as Hdot. discriminate. }
  intros H Hd Hd'.
  destruct (Nat.le_ge_cases (String.length a') (String.length a)) as [Hle | Hge].
  - exact (Hgen a d a' d' H Hd' Hle).
  - destruct (Hgen a' d' a d (eq_sym H) Hd Hge). auto.
Qed.

(** A word of the pattern after a text that does not end in the class of the
    pattern is the match. *)
Lemma re_search_amount_after (q m : string) :
  amount_pattern m ->
  (forall c, str_last q = Some c -> amount_class c = false) ->
  re_search_amount (q ++ m) = Some m.
Proof.
  intros Hpat Hq. apply re_search_amount_spec. split.
  - split; [exact Hpat |]. exists q. now left.
  - intros m' [Hpat' [pre Hm']].
    destruct (Nat.le_gt_cases (String.length m') (String.length m)) as [Hle | Hgt];
      [exact Hle | exfalso].
    destruct (amount_pattern_last m Hpat) as (c & Hc & Hdig).
    assert (Hmne : m <> "") by (apply amount_pattern_nonempty, Hpat).
    destruct Hm' as [Hm' | Hm'].
    + assert (Hlen : (String.length pre <= String.length q)%nat).
      { apply (f_equal String.length) in Hm'. rewrite !str_length_app in Hm'. lia. }
      destruct (str_app_eq_cases q m pre m' Hm' Hlen) as (k & -> & ->).
      assert (Hk : k <> "").
      { intros ->. simpl in Hgt. lia. }
      destruct (str_last_nonempty k Hk) as [ck Hck].
      specialize (Hq ck). rewrite str_last_app in Hq by exact Hk.
      specialize (Hq Hck).
      destruct Hpat as (x & dd & -> & Hx0 & Hx & Hd0 & Hd).
      destruct Hpat' as (x' & dd' & E & Hx0' & Hx' & Hd0' & Hd').
      rewrite <- str_app_assoc in E.
      destruct (point_split_unique _ _ _ _ E Hd Hd') as [<- _].
      rewrite str_forallb_app in Hx'. apply andb_true_iff in Hx' as [Hkc _].
      pose proof (str_forallb_last _ _ _ Hkc Hck). congruence.
    + assert (Hl : str_last (q ++ m) = Some LF).
      { rewrite Hm', <- str_app_assoc. apply str_last_snoc. }
      rewrite str_last_app in Hl by exact Hmne.
      rewrite Hc in Hl. injection Hl as ->. discriminate.
Qed.

Lemma amount_pattern_no_minus_space (m : string) :
  amount_pattern m -> startswith m "- " = false.
Proof.
  intros (x & d & -> & Hx0 & Hx & _ & _).
  destruct x as [|c1 x]; [congruence |].
  destruct x as [|c2 x]; cbn [startswith append].
  - now rewrite andb_false_r.
  - cbn [str_forallb] in Hx. apply andb_true_iff in Hx as [_ Hx].
    apply andb_true_iff in Hx as [H2 _]. apply class_not_space in H2.
    destruct (Ascii.eqb_spec " " c2) as [<- | _]; [discriminate |].
    now rewrite andb_false_r.
Qed.

Lemma re_search_amount_whole (m : string) :
  amount_pattern m -> re_search_amount m = Some m.
Proof.
  intros H. apply (re_search_amount_after "" m H). discriminate.
Qed.

(** X2.  Text in front of the amount is ignored: for a word [m] of the
    pattern and a prefix [p] that does not end with a digit, a comma or a
    minus sign and is not exactly ["- "], [clean_amount (p ++ m)] is
    [clean_amount m], the result or the exception. *)
Theorem clean_amount_ignores_prefix (p m : string) :
  amount_pattern m ->
  (forall c, str_last p = Some c -> amount_class c = false) ->
  p <> "- " ->
  clean_amount (p ++ m) = clean_amount m.
Proof.
  intros Hpat Hp Hne.
  assert (Hm : clean_amount m = Decimal_of_string (strip (remove_char "," m))).
  { unfold clean_amount.
    rewrite (join_minus_other m (amount_pattern_no_minus_space m Hpat)).
    now rewrite (re_search_amount_whole m Hpat). }
  rewrite Hm.
  assert (Hj : exists q, join_minus (p ++ m) = (q ++ m)%string
                         /\ forall c, str_last q = Some c -> amount_class c = false).
  { destruct (startswith (p ++ m) "- ") eqn:Hs.
    - destruct p as [|a p].
      + change ("" ++ m)%string with m in Hs.
        rewrite (amount_pattern_no_minus_space m Hpat) in Hs. discriminate.
      + destruct p as [|b p].
        * exfalso. specialize (Hp a eq_refl).
          cbn [append startswith] in Hs. apply andb_true_iff in Hs as [Ha _].
          apply Ascii.eqb_eq in Ha. subst a. discriminate.
        * cbn [append startswith] in Hs. apply andb_true_iff in Hs as [Ha Hb].
          apply andb_true_iff in Hb as [Hb _].
          apply Ascii.eqb_eq in Ha, Hb. subst a b.
          destruct p as [|c p]; [congruence |].
          exists (String "-" (String c p)). split; [reflexivity |].
          intros c0 Hc0. apply Hp. exact Hc0.
    - exists p. split; [now apply join_minus_other | exact Hp]. }
  destruct Hj as (q & Hq & Hlast).
  unfold clean_amount. rewrite Hq, (re_search_amount_after q m Hpat Hlast). reflexivity.
Qed.

Lemma clean_amount_ignores_prefix_witness :
  amount_pattern "1,000.00"
  /\ clean_amount ("Total: " ++ "1,000.00") = clean_amount "1,000.00".
Proof.
  assert (H : amount_pattern "1,000.00") by (apply amount_fullmatch_spec; reflexivity).
  split; [exact H |].
  apply (clean_amount_ignores_prefix "Total: " "1,000.00" H).
  - intros c [= <-]. reflexivity.
  - discriminate.
Defined.

Lemma ends_with_amount_line_feed (t m : string) (c : ascii) :
  str_last t = Some c -> is_digit c = true ->
  ends_with_amount (t ++ String LF "") m <-> ends_with_amount t m.
Proof.
  intros Hc Hdig. split; intros [Hpat [pre H]]; (split; [exact Hpat |]).
  - destruct (amount_pattern_last m Hpat) as (cm & Hcm & Hdm).
    assert (Hmne : m <> "") by (apply amount_pattern_nonempty, Hpat).
    exists pre. left. destruct H as [H | H].
    + exfalso.
      assert (Hl : str_last (t ++ String LF "") = Some cm).
      { rewrite H. now rewrite str_last_app. }
      rewrite str_last_snoc in Hl. injection Hl as <-. discriminate.
    + rewrite <- str_app_assoc in H. apply str_app_inv_tail in H. exact H.
  - exists pre. destruct H as [H | H].
    + right. rewrite H. now rewrite !str_app_assoc.
    + exfalso. rewrite H, <- str_app_assoc, str_last_snoc in Hc.
      injection Hc as <-. discriminate.
Qed.

Lemma re_search_amount_line_feed (t : string) (c : ascii) :
  str_last t = Some c -> is_digit c = true ->
  re_search_amount (t ++ String LF "") = re_search_amount t.
Proof.
  intros Hc Hdig.
  assert (Hiff : forall m, amount_match (t ++ String LF "") m <-> amount_match t m).
  { intros m. unfold amount_match.
    rewrite (ends_with_amount_line_feed t m c Hc Hdig).
    split; intros [H1 H2]; (split; [exact H1 |]); intros m' Hm'; apply H2;
      now apply (ends_with_amount_line_feed t m' c Hc Hdig). }
  destruct (re_search_amount t) as [m|] eqn:Ht.
  - apply re_search_amount_spec, Hiff, re_search_amount_spec. exact Ht.
  - apply re_search_amount_none. intros [m Hm].
    apply (proj1 (re_search_amount_none t) Ht). exists m.
    now apply (ends_with_amount_line_feed t m c Hc Hdig).
Qed.

(** X3.  One line feed after the amount changes nothing: for a text that
    ends with a digit, [clean_amount] gives the same result, or raises the
    same exception, with and without a final line feed ([$] also matches
    just before it). *)
Theorem clean_amount_final_line_feed (s : string) (c : ascii) :
  str_last s = Some c -> is_digit c = true ->
  clean_amount (s ++ String LF "") = clean_amount s.
Proof.
  intros Hc Hdig.
  assert (Hj : join_minus (s ++ String LF "") = (join_minus s ++ String LF "")%string
               /\ str_last (join_minus s) = Some c).
  { destruct s as [|a s]; [discriminate |].
    destruct s as [|b s].
    - injection Hc as ->. unfold join_minus. cbn [append startswith].
      destruct (Ascii.eqb_spec "-" c) as [<- | _]; [discriminate |].
      cbn [andb]. auto.
    - unfold join_minus. cbn [append startswith slice_from].
      destruct (Ascii.eqb "-" a && (Ascii.eqb " " b && true)) eqn:E.
      + split; [reflexivity |].
        destruct s as [|c0 s].
        * apply andb_true_iff in E as [_ E]. apply andb_true_iff in E as [E _].
          apply Ascii.eqb_eq in E. subst b. simpl in Hc. injection Hc as <-. discriminate.
        * exact Hc.
      + split; [reflexivity | exact Hc]. }
  destruct Hj as [Hj Hl].
  unfold clean_amount. rewrite Hj, (re_search_amount_line_feed _ c Hl Hdig). reflexivity.
Qed.

Lemma clean_amount_final_line_feed_witness :
  str_last "- 45.10" = Some "0"%char /\ is_digit "0" = true
  /\ clean_amount ("- 45.10" ++ String LF "") = clean_amount "- 45.10".
Proof.
  split; [reflexivity |]. split; [reflexivity |].
  apply (clean_amount_final_line_feed "- 45.10" "0"); reflexivity.
Defined.

(* --------------------------------------------------------------------- *)
(** ** The text of an amount, read back *)
(* --------------------------------------------------------------------- *)

(** The binary size of a number is fuel enough for its decimal digits. *)
Lemma size_nat_fuel (n : N) : (n < 10 ^ N.of_nat (S (N.size_nat n)))%N.
Proof.
  assert (H2 : (n < 2 ^ N.of_nat (N.size_nat n))%N \/ n = 0%N).
  { destruct n as [|p]; [now right | left]. simpl N.size_nat.
    induction p as [p IH | p IH |]; simpl Pos.size_nat.
    - rewrite Nat2N.inj_succ, N.pow_succ_r'. lia.
    - rewrite Nat2N.inj_succ, N.pow_succ_r'. lia.
    - reflexivity. }
  rewrite Nat2N.inj_succ, N.pow_succ_r'.
  assert (Hpos : (10 ^ N.of_nat (N.size_nat n) <> 0)%N) by (apply N.pow_nonzero; lia).
  destruct H2 as [H2 | ->]; [| lia].
  assert (Hle : (2 ^ N.of_nat (N.size_nat n) <= 10 ^ N.of_nat (N.size_nat n))%N)
    by (apply N.pow_le_mono_l; lia).
  lia.
Qed.

Lemma digit_value_digit_char (m : N) : (m < 10)%N -> digit_value (digit_char m) = m.
Proof.
  intros H.
  assert (Hm : (m = 0 \/ m = 1 \/ m = 2 \/ m = 3 \/ m = 4 \/ m = 5 \/ m = 6
               \/ m = 7 \/ m = 8 \/ m = 9)%N) by lia.
  repeat (destruct Hm as [-> | Hm]; [reflexivity |]). subst m. reflexivity.
Qed.

Lemma int_of_digits_fuel (fuel : nat) (n a : N) (acc : string) :
  (n < 10 ^ N.of_nat (S fuel))%N ->
  int_of_digits_acc a (digits_fuel fuel n acc)
  = int_of_digits_acc (a * 10 ^ N.of_nat (ndigits_fuel fuel n) + n) acc.
Proof.
  revert n a acc. induction fuel as [|fuel IH]; intros n a acc Hn;
    cbn [digits_fuel ndigits_fuel].
  - change (10 ^ N.of_nat 1)%N with 10%N in *.
    cbn [int_of_digits_acc]. rewrite digit_value_digit_char by (apply N.mod_lt; lia).
    rewrite N.mod_small by exact Hn. reflexivity.
  - destruct (N.ltb_spec n 10) as [Hlt | Hge].
    + change (10 ^ N.of_nat 1)%N with 10%N.
      cbn [int_of_digits_acc]. rewrite digit_value_digit_char by (apply N.mod_lt; lia).
      rewrite N.mod_small by exact Hlt. reflexivity.
    + rewrite IH.
      * cbn [int_of_digits_acc].
        rewrite digit_value_digit_char by (apply N.mod_lt; lia).
        f_equal. rewrite (Nat2N.inj_succ (ndigits_fuel fuel (n / 10))), N.pow_succ_r'.
        pose proof (N.div_mod n 10). lia.
      * rewrite Nat2N.inj_succ, N.pow_succ_r' in Hn.
        apply N.Div0.div_lt_upper_bound. exact Hn.
Qed.

(** [int(str(n)) = n] *)
Lemma int_of_digits_str_of_N (n : N) : int_of_digits (str_of_N n) = n.
Proof.
  unfold int_of_digits, str_of_N. rewrite int_of_digits_fuel by apply size_nat_fuel.
  reflexivity.
Qed.

Lemma int_of_digits_acc_zeros (k : nat) (s : string) :
  int_of_digits_acc 0 (str_repeat "0" k ++ s) = int_of_digits_acc 0 s.
Proof. induction k as [|k IH]; [reflexivity | exact IH]. Qed.

Lemma slice_to_from (n : nat) (s : string) : (slice_to n s ++ slice_from n s)%string = s.
Proof.
  revert s. induction n as [|n IH]; intros s; destruct s as [|c s]; simpl; auto.
  now rewrite IH.
Qed.

Lemma slice_to_length (n : nat) (s : string) :
  String.length (slice_to n s) = Nat.min n (String.length s).
Proof.
  revert s. induction n as [|n IH]; intros s; destruct s as [|c s]; simpl; auto.
Qed.

Lemma digit_not_sign (c : ascii) :
  is_digit c = true -> c <> "-"%char /\ c <> "+"%char.
Proof. by_ascii_cases c. Qed.

(** [clean_amount] on a numeral: the coefficient is the digits read as one
    number, the exponent counts the fraction digits. *)
Lemma clean_amount_numeral (neg : bool) (i f : string) :
  str_forallb is_digit i = true -> str_forallb is_digit f = true -> f <> "" ->
  ((if neg then "-" else "") ++ i)%string <> "" ->
  clean_amount ((if neg then "-" else "") ++ i ++ String "." f)
  = Return {| d_sign := neg;
              d_int := int_of_digits (i ++ f);
              d_exp := - Z.of_nat (String.length f) |}.
Proof.
  intros Hi Hf Hf0 Hx0.
  set (x := ((if neg then "-" else "") ++ i)%string) in *.
  assert (Hxc : str_forallb amount_class x = true).
  { subst x. rewrite str_forallb_app. apply andb_true_iff. split.
    - destruct neg; reflexivity.
    - eapply str_forallb_impl; [| exact Hi]. apply digit_in_class. }
  assert (Hxy : str_forallb (fun c => is_digit c || Ascii.eqb c "-") x = true).
  { subst x. rewrite str_forallb_app. apply andb_true_iff. split.
    - destruct neg; reflexivity.
    - eapply str_forallb_impl; [| exact Hi]. intros c ->. reflexivity. }
  assert (Hnc : str_forallb (fun c => negb (Ascii.eqb c ",")) (x ++ String "." f) = true).
  { rewrite str_forallb_app. apply andb_true_iff. split.
    - subst x. rewrite str_forallb_app. apply andb_true_iff. split.
      + destruct neg; reflexivity.
      + eapply str_forallb_impl; [| exact Hi]. apply digit_not_comma.
    - cbn [str_forallb]. eapply str_forallb_impl; [| exact Hf]. apply digit_not_comma. }
  assert (Hpat : amount_pattern (x ++ String "." f)).
  { exists x, f. auto. }
  replace ((if neg then "-" else "") ++ i ++ String "." f)%string
    with (x ++ String "." f)%string by (subst x; now rewrite str_app_assoc).
  unfold clean_amount.
  rewrite (join_minus_other _ (amount_pattern_no_minus_space _ Hpat)).
  rewrite (re_search_amount_whole _ Hpat).
  unfold remove_char. rewrite (str_filter_id _ _ Hnc).
  rewrite (numeral_text_strip x f Hxy Hf).
  unfold Decimal_of_string. rewrite (numeral_text_clean x f Hxy Hf).
  subst x. destruct neg.
  - cbn [append]. apply Decimal_of_digits_numeral; assumption.
  - cbn [append] in *. destruct i as [|c i]; [congruence |].
    cbn [str_forallb] in Hi. apply andb_true_iff in Hi as [Hc Hi].
    destruct (digit_not_sign c Hc) as [Hm Hp].
    replace (match (String c i ++ String "." f)%string with
             | String "-" r => Decimal_of_digits true r
             | String "+" r => Decimal_of_digits false r
             | _ => Decimal_of_digits false (String c i ++ String "." f)
             end) with (Decimal_of_digits false (String c i ++ String "." f)).
    2:{ revert Hm Hp. clear. cbn [append].
        destruct c as [[] [] [] [] [] [] [] []]; intros; try reflexivity; congruence. }
    apply Decimal_of_digits_numeral; [| assumption | assumption].
    cbn [str_forallb]. now rewrite Hc, Hi.
Qed.

(** X4.  The round trip of an amount through the exported file.  For a
    decimal with a fraction digit (exponent at most -1) that [str] writes in
    plain notation (more than -6 digits to the left of the point),
    [clean_amount] reads the text [to_csv] writes for it back to the same
    decimal: the same sign, coefficient and exponent. *)
Theorem exported_amount_reads_back (d : Decimal) :
  (d_exp d <= -1)%Z -> (-6 < d_exp d + Z.of_nat (ndigits (d_int d)))%Z ->
  clean_amount (csv_field (ODec d)) = Return d.
Proof.
  intros Hexp Hleft. cbn [csv_field]. unfold Decimal_str.
  pose proof (str_of_N_digits (d_int d)) as Hdig.
  pose proof (str_of_N_length (d_int d)) as Hlen.
  pose proof (int_of_digits_str_of_N (d_int d)) as Hint.
  rewrite <- str_of_N_ndigits in Hleft.
  set (digits := str_of_N (d_int d)) in *.
  set (len := Z.of_nat (String.length digits)) in *.
  replace ((d_exp d <=? 0)%Z && (-6 <? d_exp d + len)%Z) with true
    by (symmetry; apply andb_true_iff; split; [apply Z.leb_le | apply Z.ltb_lt]; lia).
  rewrite Z.eqb_refl, !str_app_nil_r.
  destruct d as [sign n e]. cbn [d_sign d_int d_exp] in *.
  destruct (Z.leb_spec (e + len) 0) as [Hsmall | Hbig].
  - change ("." ++ str_repeat "0" (Z.to_nat (- (e + len))) ++ digits)%string
      with (String "." (str_repeat "0" (Z.to_nat (- (e + len))) ++ digits)).
    rewrite (clean_amount_numeral sign "0" (str_repeat "0" (Z.to_nat (- (e + len))) ++ digits)).
    + f_equal. f_equal.
      * change ("0" ++ str_repeat "0" (Z.to_nat (- (e + len))) ++ digits)%string
          with (str_repeat "0" (S (Z.to_nat (- (e + len)))) ++ digits)%string.
        unfold int_of_digits. rewrite int_of_digits_acc_zeros. exact Hint.
      * rewrite str_length_app, str_repeat_length. subst len. lia.
    + reflexivity.
    + rewrite str_forallb_app, str_repeat_forallb, Hdig; reflexivity.
    + destruct digits; [simpl in Hlen; lia |].
      destruct (Z.to_nat (- (e + len))); discriminate.
    + destruct sign; discriminate.
  - destruct (Z.leb_spec len (e + len)) as [Habs | _]; [lia |].
    change ("." ++ slice_from (Z.to_nat (e + len)) digits)%string
      with (String "." (slice_from (Z.to_nat (e + len)) digits)).
    assert (Hto : String.length (slice_to (Z.to_nat (e + len)) digits) = Z.to_nat (e + len)).
    { rewrite slice_to_length. subst len. lia. }
    rewrite (clean_amount_numeral sign).
    + f_equal. f_equal.
      * rewrite slice_to_from. exact Hint.
      * rewrite slice_length. subst len. lia.
    + apply slice_to_forallb, Hdig.
    + apply slice_from_forallb, Hdig.
    + intros E. apply (f_equal String.length) in E. rewrite slice_length in E.
      subst len. simpl in E. lia.
    + intros E. apply (f_equal String.length) in E. rewrite str_length_app, Hto in E.
      simpl in E. lia.
Qed.

Lemma exported_amount_reads_back_witness :
  let d := mkDecimal true 200050 (-2) in
  (d_exp d <= -1)%Z /\ (-6 < d_exp d + Z.of_nat (ndigits (d_int d)))%Z
  /\ clean_amount (csv_field (ODec d)) = Return d.
Proof.
  intros d.
  assert (H1 : (d_exp d <= -1)%Z) by (vm_compute; discriminate).
  assert (H2 : (-6 < d_exp d + Z.of_nat (ndigits (d_int d)))%Z) by (vm_compute; reflexivity).
  split; [exact H1 |]. split; [exact H2 |].
  exact (exported_amount_reads_back d H1 H2).
Defined.

(* --------------------------------------------------------------------- *)
(** ** [clean_columns]: shape, distinct labels, idempotence *)
(* --------------------------------------------------------------------- *)

Lemma setitem_labels_In (labels : list string) (col_name x : string) :
  In x (setitem_labels labels col_name) <-> In x labels \/ x = col_name.
Proof.
  unfold setitem_labels. destruct (index_of col_name labels) as [j|] eqn:Hj.
  - split; [auto |]. intros [H | ->]; [exact H |].
    destruct (index_of_Some _ _ _ Hj) as [Hlt <-]. now apply nth_In.
  - rewrite in_app_iff. simpl. intuition.
Qed.

Lemma run_length_firstn (col_name : string) (names : list string) (x : string) :
  In x (firstn (run_length col_name names) names) -> x = col_name.
Proof.
  induction names as [|name names IH]; simpl; [tauto |].
  destruct (String.eqb_spec name col_name) as [-> | _]; simpl; [| tauto].
  intros [<- | H]; auto.
Qed.

Lemma labels_from_incl (names : list string) (skip : nat) (labels : list string) :
  (forall x, In x (firstn skip names) -> In x labels) ->
  forall x, In x labels \/ In x names -> In x (labels_from names skip labels).
Proof.
  revert skip labels. induction names as [|c rest IH]; intros skip labels Hskip x Hx.
  - simpl. destruct Hx as [Hx | []]. exact Hx.
  - simpl. destruct skip as [|k].
    + apply IH.
      * intros y Hy. apply run_length_firstn in Hy. subst y.
        apply setitem_labels_In. now right.
      * destruct Hx as [Hx | [<- | Hx]].
        -- left. apply setitem_labels_In. now left.
        -- left. apply setitem_labels_In. now right.
        -- now right.
    + apply IH.
      * intros y Hy. apply Hskip. simpl. now right.
      * destruct Hx as [Hx | [<- | Hx]]; [now left | | now right].
        left. apply Hskip. simpl. now left.
Qed.

Lemma merged_labels_In (names : list string) (x : string) :
  In x (merged_labels names) <-> In x names.
Proof.
  unfold merged_labels. split.
  - intros H. apply labels_from_In in H as [[] | H]. exact H.
  - intros H. apply labels_from_incl; [simpl; tauto | now right].
Qed.

Lemma merge_row_length (labels : list string) (r : list cell) :
  List.length r = List.length labels ->
  List.length (merge_row labels r) = List.length (merged_labels labels).
Proof.
  intros Hlen. unfold merge_row, merged_labels.
  rewrite (clean_row_from_length _ 0 [] [] eq_refl), clean_row_from_labels.
  rewrite map_fst_combine by (now rewrite length_map). reflexivity.
Qed.

(** X5.  The shape of the table [clean_columns] returns, for a table whose
    rows have one cell per column: its rows are as many as the rows of the
    table, each with one cell per label; its labels are pairwise
    different, and they are the labels of the table, as a set, so there
    are no more of them. *)
Theorem clean_columns_shape (df : DataFrame cell) :
  well_formed df ->
  let merged := clean_columns df in
  well_formed merged
  /\ List.length (rows merged) = List.length (rows df)
  /\ NoDup (columns merged)
  /\ (forall c, In c (columns merged) <-> In c (columns df))
  /\ (List.length (columns merged) <= List.length (columns df))%nat.
Proof.
  intros Hwf merged. subst merged. rewrite (clean_columns_spec df Hwf).
  cbn [columns rows].
  assert (Hnd : NoDup (merged_labels (columns df)))
    by (apply labels_from_NoDup; constructor).
  split; [| split; [| split; [| split]]].
  - unfold well_formed. cbn [columns rows]. apply Forall_forall.
    intros r Hr. apply in_map_iff in Hr as (r0 & <- & Hr0).
    apply merge_row_length. unfold well_formed in Hwf. rewrite Forall_forall in Hwf. auto.
  - apply length_map.
  - exact Hnd.
  - apply merged_labels_In.
  - apply NoDup_incl_length; [exact Hnd |]. intros c. apply merged_labels_In.
Qed.

Lemma clean_columns_shape_witness :
  let df := mkDataFrame ["DATE"; "DESCRIPTION"; "DESCRIPTION"; "AMOUNT"; "DATE"]
              [ [Str "01/01/23"; Str "Coffee"; NaN; Str "45.00"; Str "x"] ] in
  well_formed df
  /\ NoDup (columns (clean_columns df))
  /\ List.length (rows (clean_columns df)) = List.length (rows df).
Proof.
  intros df.
  assert (Hwf : well_formed df) by (repeat constructor).
  split; [exact Hwf |].
  destruct (clean_columns_shape df Hwf) as (_ & Hrows & Hnd & _). auto.
Defined.

Lemma run_length_head (c : string) (names : list string) :
  match names with [] => True | n :: _ => n <> c end -> run_length c names = 0%nat.
Proof.
  destruct names as [|n names]; [reflexivity |]. simpl. intros H.
  apply String.eqb_neq in H. now rewrite H.
Qed.

Lemma look_ahead_row_head (c v : string) (rest : list (string * string)) :
  match rest with [] => True | (n, _) :: _ => n <> c end ->
  look_ahead_row c v rest = (v, 0%nat).
Proof.
  destruct rest as [|[n w] rest]; [reflexivity |]. simpl. intros H.
  apply String.eqb_neq in H. now rewrite H.
Qed.

(** The loop over labels that are new and pairwise different: every
    column is added as it is, its ["nan"] texts made empty. *)
Lemma clean_row_from_distinct (names : list string) (vs : list string)
    (rest : list (string * string)) (labels : list string) (r : list cell) :
  NoDup (labels ++ names) -> List.length vs = List.length names ->
  match rest with [] => True | (n, _) :: _ => ~ In n names end ->
  clean_row_from (combine names vs ++ rest) 0 labels r
  = clean_row_from rest 0 (labels ++ names)
      (r ++ map (fun v => Str (nan_to_empty v)) vs).
Proof.
  revert vs labels r. induction names as [|c names IH]; intros vs labels r Hnd Hlen Hrest.
  - destruct vs; [| discriminate]. simpl. now rewrite !app_nil_r.
  - destruct vs as [|v vs]; [discriminate |]. simpl in Hlen.
    cbn [combine app clean_row_from].
    assert (Hc : ~ In c labels /\ ~ In c names).
    { apply NoDup_remove_2 in Hnd. rewrite in_app_iff in Hnd. tauto. }
    rewrite look_ahead_row_head.
    2:{ destruct names as [|n names]; destruct vs as [|w vs]; try discriminate.
        - cbn [combine app]. destruct rest as [|[n w] rest]; [exact I |].
          intros ->. apply Hrest. now left.
        - cbn [combine app]. intros ->. apply (proj2 Hc). now left. }
    unfold setitem_labels, setitem_row.
    rewrite (proj2 (index_of_None c labels) (proj1 Hc)).
    rewrite IH.
    + rewrite <- !app_assoc. reflexivity.
    + rewrite <- app_assoc. exact Hnd.
    + lia.
    + destruct rest as [|[n w] rest]; [exact I |]. intros H. apply Hrest. now right.
Qed.

Lemma merge_row_distinct (labels : list string) (r : list cell) :
  NoDup labels -> List.length r = List.length labels ->
  merge_row labels r = map (fun x => Str (nan_to_empty (py_str x))) r.
Proof.
  intros Hnd Hlen. unfold merge_row.
  rewrite <- (app_nil_r (combine labels (map py_str r))).
  rewrite clean_row_from_distinct; [| exact Hnd | now rewrite length_map | exact I].
  cbn [clean_row_from snd app]. now rewrite map_map.
Qed.

Lemma merged_labels_distinct (labels : list string) :
  NoDup labels -> merged_labels labels = labels.
Proof.
  intros Hnd.
  pose proof (clean_row_from_labels (combine labels (map (fun _ => "") labels)) 0 [] []) as H.
  rewrite map_fst_combine in H by (now rewrite length_map).
  unfold merged_labels. rewrite <- H.
  rewrite <- (app_nil_r (combine labels _)).
  rewrite clean_row_from_distinct; [reflexivity | exact Hnd | now rewrite length_map | exact I].
Qed.

(** X6.  On a table whose labels are pairwise different [clean_columns]
    merges nothing: the labels stay, in their order, and every cell
    becomes its text, the text ["nan"] (that of a missing cell too) made
    empty. *)
Theorem clean_columns_distinct_labels (df : DataFrame cell) :
  well_formed df -> NoDup (columns df) ->
  clean_columns df
  = {| columns := columns df;
       rows := map (map (fun x => Str (nan_to_empty (py_str x)))) (rows df) |}.
Proof.
  intros Hwf Hnd. rewrite (clean_columns_spec df Hwf).
  rewrite (merged_labels_distinct _ Hnd). f_equal.
  apply map_ext_in. intros r Hr. apply merge_row_distinct; [exact Hnd |].
  unfold well_formed in Hwf. rewrite Forall_forall in Hwf. auto.
Qed.

Lemma clean_columns_distinct_labels_witness :
  let df := mkDataFrame ["DATE"; "DESCRIPTION"; "AMOUNT"]
              [ [Str "01/01/23"; NaN; Str "45.00"]; [Str "nan"; Str "Tea"; Str "5.00"] ] in
  well_formed df /\ NoDup (columns df)
  /\ clean_columns df
     = mkDataFrame ["DATE"; "DESCRIPTION"; "AMOUNT"]
         [ [Str "01/01/23"; Str ""; Str "45.00"]; [Str ""; Str "Tea"; Str "5.00"] ].
Proof.
  intros df.
  assert (Hwf : well_formed df) by (repeat constructor).
  assert (Hnd : NoDup (columns df)).
  { repeat constructor; simpl; intuition discriminate. }
  split; [exact Hwf |]. split; [exact Hnd |].
  exact (clean_columns_distinct_labels df Hwf Hnd).
Defined.

(** X7.  [clean_columns] is idempotent: applied to its own result, it
    changes nothing. *)
Theorem clean_columns_idempotent (df : DataFrame cell) :
  well_formed df -> clean_columns (clean_columns df) = clean_columns df.
Proof.
  intros Hwf.
  assert (Hwf' : well_formed (clean_columns df)).
  { rewrite (clean_columns_spec df Hwf). unfold well_formed. cbn [columns rows].
    apply Forall_forall. intros r Hr. apply in_map_iff in Hr as (r0 & <- & Hr0).
    apply merge_row_length. unfold well_formed in Hwf. rewrite Forall_forall in Hwf. auto. }
  rewrite (clean_columns_spec (clean_columns df) Hwf').
  rewrite (merged_labels_distinct _ (clean_columns_NoDup df)).
  transitivity {| columns := columns (clean_columns df); rows := rows (clean_columns df) |};
    [| now destruct (clean_columns df)].
  f_equal. rewrite <- (map_id (rows (clean_columns df))) at 2.
  apply map_ext_in. intros r Hr.
  rewrite merge_row_distinct.
  - rewrite <- (map_id r) at 2. apply map_ext_in. intros x Hx.
    rewrite (clean_columns_rows df Hwf) in Hr. apply in_map_iff in Hr as (r0 & <- & _).
    pose proof (merge_row_texts (columns df) r0) as Ht. rewrite Forall_forall in Ht.
    destruct (Ht x Hx) as (s & -> & Hs). cbn [py_str]. unfold nan_to_empty.
    apply String.eqb_neq in Hs. now rewrite Hs.
  - apply clean_columns_NoDup.
  - unfold well_formed in Hwf'. rewrite Forall_forall in Hwf'. auto.
Qed.

Lemma clean_columns_idempotent_witness :
  let df := mkDataFrame ["DATE"; "DESCRIPTION"; "DESCRIPTION"; "AMOUNT"]
              [ [Str "01/01/23"; Str "Coffee"; NaN; Str "45.00"] ] in
  well_formed df /\ clean_columns (clean_columns df) = clean_columns df.
Proof.
  intros df.
  assert (Hwf : well_formed df) by (repeat constructor).
  split; [exact Hwf | exact (clean_columns_idempotent df Hwf)].
Defined.

Lemma row_first_mid_last {A : Type} (r : list A) (n : nat) (d : A) :
  List.length r = S (n + 1) ->
  exists x xs z, r = x :: xs ++ [z] /\ List.length xs = n
                 /\ last r d = z /\ firstn n (skipn 1 r) = xs.
Proof.
  intros Hlen. destruct r as [|x r]; [discriminate |].
  assert (Hr : r <> []) by (intros ->; simpl in Hlen; lia).
  destruct (exists_last Hr) as (xs & z & ->).
  rewrite length_cons, length_app in Hlen. simpl in Hlen.
  exists x, xs, z. repeat split.
  - lia.
  - change (x :: xs ++ [z]) with ((x :: xs) ++ [z]). apply last_last.
  - cbn [skipn]. rewrite firstn_app. replace (n - List.length xs)%nat with 0%nat by lia.
    rewrite firstn_all2 by lia. simpl. apply app_nil_r.
Qed.

Lemma merge_row_returning_label (a : string) (mid : list string)
    (x z : cell) (xs : list cell) :
  mid <> [] -> NoDup (a :: mid) -> List.length xs = List.length mid ->
  merge_row (a :: mid ++ [a]) (x :: xs ++ [z])
  = Str (nan_to_empty (py_str z)) :: map (fun c => Str (nan_to_empty (py_str c))) xs.
Proof.
  intros Hmid Hnd Hlen.
  assert (Ha : ~ In a mid) by (now apply NoDup_cons_iff in Hnd).
  unfold merge_row. cbn [map combine].
  rewrite map_app. cbn [map].
  rewrite combine_app by (now rewrite length_map).
  cbn [combine clean_row_from].
  rewrite look_ahead_row_head.
  2:{ destruct mid as [|n mid]; [congruence |].
      destruct xs as [|c xs]; [discriminate |]. cbn [map combine app].
      intros ->. apply Ha. now left. }
  change (setitem_labels [] a) with [a].
  change (setitem_row [] [] a (nan_to_empty (py_str x)))
    with [Str (nan_to_empty (py_str x))].
  rewrite clean_row_from_distinct; [| exact Hnd | now rewrite length_map | exact Ha].
  cbn [clean_row_from look_ahead_row]. unfold setitem_row.
  cbn [app index_of]. rewrite String.eqb_refl. cbn [snd set_nth].
  now rewrite map_map.
Qed.

(** X8.  A label that comes back after other labels.  When the last
    column carries the label of the first and the labels between them are
    different from it and from each other, [clean_columns] returns one
    column per label, and the column of the first label holds the texts of
    the last column: the texts of the first column are lost. *)
Theorem clean_columns_returning_label (df : DataFrame cell) (a : string)
    (mid : list string) :
  well_formed df -> columns df = a :: mid ++ [a] -> mid <> [] -> NoDup (a :: mid) ->
  clean_columns df
  = {| columns := a :: mid;
       rows := map (fun r => Str (nan_to_empty (py_str (last r NaN)))
                             :: map (fun x => Str (nan_to_empty (py_str x)))
                                    (firstn (List.length mid) (skipn 1 r)))
                   (rows df) |}.
Proof.
  intros Hwf Hc Hmid Hnd. rewrite (clean_columns_spec df Hwf), Hc. f_equal.
  - assert (Ha : ~ In a mid) by (now apply NoDup_cons_iff in Hnd).
    pose proof (clean_row_from_labels
                  (combine (a :: mid ++ [a]) (map (fun _ => "") (a :: mid ++ [a]))) 0 [] [])
      as H.
    rewrite map_fst_combine in H by (now rewrite length_map).
    unfold merged_labels. rewrite <- H. clear H.
    cbn [map combine]. rewrite map_app. cbn [map].
    rewrite combine_app by (now rewrite length_map).
    cbn [combine clean_row_from].
    rewrite look_ahead_row_head.
    2:{ destruct mid as [|n mid]; [congruence |]. cbn [map combine app].
        intros ->. apply Ha. now left. }
    change (setitem_labels [] a) with [a].
    rewrite clean_row_from_distinct; [| exact Hnd | now rewrite length_map | exact Ha].
    cbn [clean_row_from look_ahead_row]. unfold setitem_labels.
    cbn [app index_of]. now rewrite String.eqb_refl.
  - apply map_ext_in. intros r Hr.
    unfold well_formed in Hwf. rewrite Forall_forall in Hwf. specialize (Hwf r Hr).
    rewrite Hc in Hwf. rewrite length_cons, length_app in Hwf. simpl in Hwf.
    destruct (row_first_mid_last r (List.length mid) NaN Hwf)
      as (x & xs & z & -> & Hxs & -> & ->).
    now apply merge_row_returning_label.
Qed.

Lemma clean_columns_returning_label_witness :
  let df := mkDataFrame ["AMOUNT"; "DESCRIPTION"; "AMOUNT"]
              [ [Str "45.00"; Str "Coffee"; Str "1.00"] ] in
  well_formed df /\ columns df = "AMOUNT" :: ["DESCRIPTION"] ++ ["AMOUNT"]
  /\ clean_columns df
     = mkDataFrame ["AMOUNT"; "DESCRIPTION"] [ [Str "1.00"; Str "Coffee"] ].
Proof.
  intros df.
  assert (Hwf : well_formed df) by (repeat constructor).
  split; [exact Hwf |]. split; [reflexivity |].
  apply (clean_columns_returning_label df "AMOUNT" ["DESCRIPTION"] Hwf eq_refl).
  - discriminate.
  - repeat constructor; simpl; intuition discriminate.
Defined.

(* --------------------------------------------------------------------- *)
(** ** The combined table and the drop of the second column *)
(* --------------------------------------------------------------------- *)

Lemma index_of_nth (l : list string) (j : nat) :
  NoDup l -> (j < List.length l)%nat -> index_of (nth j l "") l = Some j.
Proof.
  revert j. induction l as [|y l IH]; intros j Hnd Hj; [simpl in Hj; lia |].
  apply NoDup_cons_iff in Hnd as [Hy Hnd].
  destruct j as [|j]; simpl.
  - now rewrite String.eqb_refl.
  - simpl in Hj. destruct (String.eqb_spec y (nth j l "")) as [-> | _].
    + exfalso. apply Hy, nth_In. lia.
    + rewrite IH; [reflexivity | exact Hnd | lia].
Qed.

Lemma reindex_row_same (cols : list string) (r : list cell) :
  NoDup cols -> List.length r = List.length cols -> reindex_row cols cols r = r.
Proof.
  intros Hnd Hlen. unfold reindex_row.
  set (f := fun c => match index_of c cols with
                     | Some j => nth j r NaN
                     | None => NaN
                     end).
  rewrite <- (map_nth_seq cols "") at 1. rewrite map_map.
  rewrite <- (map_nth_seq r NaN) at 1. rewrite Hlen.
  apply map_ext_in. intros j Hj. apply in_seq in Hj. subst f. cbv beta.
  rewrite index_of_nth; [reflexivity | exact Hnd | lia].
Qed.

Lemma existsb_eqb_In (c : string) (l : list string) :
  existsb (String.eqb c) l = true <-> In c l.
Proof.
  rewrite existsb_exists. split.
  - intros (x & Hx & E). apply String.eqb_eq in E. now subst.
  - intros H. exists c. split; [exact H | apply String.eqb_refl].
Qed.

Lemma filter_new_labels_nil (acc cols : list string) :
  incl cols acc -> filter (fun c => negb (existsb (String.eqb c) acc)) cols = [].
Proof.
  intros H. induction cols as [|c cols IH]; [reflexivity |]. simpl.
  assert (Hc : existsb (String.eqb c) acc = true)
    by (apply existsb_eqb_In, H; now left).
  rewrite Hc. simpl. apply IH. intros x Hx. apply H. now right.
Qed.

Lemma union_columns_same (t : DataFrame cell) (ts : list (DataFrame cell)) :
  Forall (fun t' => columns t' = columns t) ts -> union_columns (t :: ts) = columns t.
Proof.
  intros H. unfold union_columns. cbn [fold_left app].
  rewrite filter_all by reflexivity.
  induction H as [|t' ts Ht' Hts IH]; [reflexivity |]. cbn [fold_left].
  rewrite Ht', filter_new_labels_nil by apply incl_refl. rewrite app_nil_r. exact IH.
Qed.

(** X9.  [pd.concat] on tables that carry the same labels, pairwise
    different (as the transaction tables of one statement do): the
    combined table has these labels and the rows of the tables, in the
    order of the tables, unchanged. *)
Theorem concat_same_labels (t : DataFrame cell) (ts : list (DataFrame cell)) :
  NoDup (columns t) -> Forall (fun t' => columns t' = columns t) ts ->
  Forall well_formed (t :: ts) ->
  concat (t :: ts) = {| columns := columns t; rows := flat_map rows (t :: ts) |}.
Proof.
  intros Hnd Hsame Hwf. unfold concat. rewrite (union_columns_same t ts Hsame). f_equal.
  assert (Hall : Forall (fun t' => columns t' = columns t) (t :: ts))
    by (constructor; [reflexivity | exact Hsame]).
  clear Hsame. revert Hall Hwf. generalize (t :: ts) as dfs.
  induction dfs as [|df dfs IH]; intros Hall Hwf; [reflexivity |].
  apply Forall_cons_iff in Hall as [Hdf Hall]. apply Forall_cons_iff in Hwf as [Hwdf Hwf].
  cbn [flat_map]. rewrite IH by assumption. f_equal.
  rewrite <- (map_id (rows df)) at 2. apply map_ext_in. intros r Hr.
  rewrite Hdf. apply reindex_row_same; [exact Hnd |].
  unfold well_formed in Hwdf. rewrite Forall_forall in Hwdf.
  rewrite <- Hdf. auto.
Qed.

Lemma concat_same_labels_witness :
  let t1 := mkDataFrame ["DATE"; "AMOUNT"] [ [Str "01/01/23"; Str "1.00"] ] in
  let t2 := mkDataFrame ["DATE"; "AMOUNT"] [ [Str "02/01/23"; Str "2.00"] ] in
  NoDup (columns t1) /\ Forall (fun t' => columns t' = columns t1) [t2]
  /\ Forall well_formed [t1; t2]
  /\ concat [t1; t2]
     = mkDataFrame ["DATE"; "AMOUNT"]
         [ [Str "01/01/23"; Str "1.00"]; [Str "02/01/23"; Str "2.00"] ].
Proof.
  intros t1 t2.
  assert (Hnd : NoDup (columns t1)) by (repeat constructor; simpl; intuition discriminate).
  assert (Hsame : Forall (fun t' => columns t' = columns t1) [t2]) by (repeat constructor).
  assert (Hwf : Forall well_formed [t1; t2]) by (repeat constructor).
  split; [exact Hnd |]. split; [exact Hsame |]. split; [exact Hwf |].
  exact (concat_same_labels t1 [t2] Hnd Hsame Hwf).
Defined.


Lemma union_columns_incl (dfs : list (DataFrame cell)) (df : DataFrame cell) :
  In df dfs -> incl (columns df) (union_columns dfs).
Proof.
  unfold union_columns.
  set (F := fun (acc : list string) (df : DataFrame cell) =>
              acc ++ filter (fun c => negb (existsb (String.eqb c) acc)) (columns df)).
  assert (Hacc : forall dfs acc, incl acc (fold_left F dfs acc)).
  { clear. intros dfs. induction dfs as [|d dfs IH]; intros acc; [apply incl_refl |].
    cbn [fold_left]. intros x Hx. apply IH. subst F. cbv beta. apply in_or_app. now left. }
  generalize (@nil string) as acc.
  induction dfs as [|d dfs IH]; intros acc Hin; [destruct Hin |].
  destruct Hin as [<- | Hin].
  - cbn [fold_left]. intros x Hx. apply Hacc. subst F. cbv beta.
    apply in_or_app. destruct (existsb (String.eqb x) acc) eqn:E.
    + left. now apply existsb_eqb_In.
    + right. apply filter_In. split; [exact Hx | now rewrite E].
  - cbn [fold_left]. now apply IH.
Qed.

Lemma transaction_tables_four (tables : list (DataFrame cell)) (i : nat) :
  Forall (fun df => List.length (columns df) = 4%nat) (transaction_tables tables i).
Proof.
  revert i. induction tables as [|df tables IH]; intros i; simpl; [constructor |].
  destruct (validate_transaction_table_columns (clean_columns df) i) eqn:Hv; simpl;
    [| apply IH].
  constructor; [| apply IH].
  unfold validate_transaction_table_columns, expected_columns in Hv.
  destruct (Nat.eqb_spec (List.length (columns (clean_columns df))) 4) as [E | _];
    [exact E | discriminate].
Qed.








(* --------------------------------------------------------------------- *)
(** ** [convert_data_types]: when it returns, and what *)
(* --------------------------------------------------------------------- *)

Lemma mapM_total {A B : Type} (f : A -> result B) (l : list A) :
  (forall x, In x l -> exists y, f x = Return y) -> exists ys, mapM f l = Return ys.
Proof.
  induction l as [|x l IH]; intros H; simpl; [eauto |].
  destruct (H x (or_introl eq_refl)) as [y ->].
  destruct IH as [ys ->]; [intros z Hz; apply H; now right | eauto].
Qed.

Lemma mapM_In {A B : Type} (f : A -> result B) (l : list A) (ys : list B) (x : A) :
  mapM f l = Return ys -> In x l -> exists y, f x = Return y.
Proof.
  intros H Hx. apply mapM_Forall2 in H.
  induction H as [|a b l ys Hab H IH]; [destruct Hx |].
  destruct Hx as [<- | Hx]; eauto.
Qed.



Lemma last_set_nth_0 {A : Type} (x d : A) (l : list A) :
  (2 <= List.length l)%nat -> last (set_nth 0 x l) d = last l d.
Proof.
  destruct l as [|a [|b l]]; simpl; try lia. reflexivity.
Qed.

Lemma last_obj_of_cell (r : list cell) : last (map obj_of_cell r) ONaN = obj_of_cell (last r NaN).
Proof. exact (last_map obj_of_cell r NaN). Qed.

Lemma clean_amount_obj_of_cell (x : cell) (d : Decimal) :
  clean_amount_obj (obj_of_cell x) = Return d <->
  exists s, x = Str s /\ clean_amount s = Return d.
Proof.
  destruct x as [s|]; simpl.
  - split; [eauto | intros (s' & [= <-] & H); exact H].
  - split; [discriminate | intros (s' & E & _); discriminate].
Qed.

(** The two passes of [convert_data_types] over rows of two cells at least. *)
Lemma convert_rows_spec (rs : list (list cell)) (dates : list obj)
    (amounts : list Decimal) :
  Forall (fun r => (2 <= List.length r)%nat) rs ->
  mapM (fun r => to_datetime (nth 0 r NaN)) rs = Return dates ->
  mapM (fun r => clean_amount_obj (last r ONaN))
       (map2 (fun r d => set_nth 0 d (map obj_of_cell r)) rs dates) = Return amounts ->
  Forall2 (fun r r2 =>
             exists o s d,
               to_datetime (nth 0 r NaN) = Return o
               /\ last r NaN = Str s /\ clean_amount s = Return d
               /\ r2 = set_last (ODec d) (set_nth 0 o (map obj_of_cell r)))
    rs
    (map2 (fun r a => set_last (ODec a) r)
          (map2 (fun r d => set_nth 0 d (map obj_of_cell r)) rs dates) amounts).
Proof.
  revert dates amounts. induction rs as [|r rs IH]; intros dates amounts Hlen Hd Ha.
  - simpl in Hd. injection Hd as <-. simpl. constructor.
  - apply Forall_cons_iff in Hlen as [Hr Hlen]. cbn [mapM] in Hd.
    destruct (to_datetime (nth 0 r NaN)) as [o|] eqn:Ho; [| discriminate].
    destruct (mapM _ rs) as [dates'|] eqn:Hd'; [| discriminate].
    injection Hd as <-. cbn [map2 mapM] in Ha |- *.
    destruct (clean_amount_obj _) as [d|] eqn:Hamt; [| discriminate].
    destruct (mapM _ (map2 _ rs dates')) as [amounts'|] eqn:Ha'; [| discriminate].
    injection Ha as <-. cbn [map2]. constructor; [| now apply IH].
    rewrite last_set_nth_0 in Hamt by (now rewrite length_map).
    rewrite last_obj_of_cell in Hamt. apply clean_amount_obj_of_cell in Hamt as (s & Hs & Hc).
    exists o, s, d. auto.
Qed.

Lemma convert_rows_total (rs : list (list cell)) :
  (forall r, In r rs ->
     (2 <= List.length r)%nat
     /\ (exists o, to_datetime (nth 0 r NaN) = Return o)
     /\ exists s d, last r NaN = Str s /\ clean_amount s = Return d) ->
  exists dates amounts,
    mapM (fun r => to_datetime (nth 0 r NaN)) rs = Return dates
    /\ mapM (fun r => clean_amount_obj (last r ONaN))
            (map2 (fun r d => set_nth 0 d (map obj_of_cell r)) rs dates) = Return amounts.
Proof.
  induction rs as [|r rs IH]; intros H.
  - exists [], []. auto.
  - destruct (H r (or_introl eq_refl)) as (Hlen & (o & Ho) & (s & d & Hs & Hd)).
    destruct IH as (dates & amounts & Hdates & Hamounts);
      [intros r' Hr'; apply H; now right |].
    exists (o :: dates), (d :: amounts). cbn [mapM]. rewrite Ho, Hdates.
    split; [reflexivity |]. cbn [map2 mapM].
    rewrite last_set_nth_0 by (now rewrite length_map).
    rewrite last_obj_of_cell, Hs. cbn [obj_of_cell clean_amount_obj].
    now rewrite Hd, Hamounts.
Qed.

Lemma well_formed_rows {A : Type} (df : DataFrame A) (n : nat) :
  well_formed df -> (n <= List.length (columns df))%nat ->
  Forall (fun r => (n <= List.length r)%nat) (rows df).
Proof.
  unfold well_formed. intros Hwf Hn. eapply Forall_impl; [| exact Hwf].
  intros r Hr. cbv beta in Hr. lia.
Qed.





Lemma drop_label_In {A : Type} (label : string) (cols : list string) (r : list A) (x : A) :
  In x (drop_label label cols r) -> In x r.
Proof.
  revert r. induction cols as [|c cols IH]; intros r; destruct r as [|y r]; simpl; try tauto.
  destruct (String.eqb c label); simpl; intuition.
Qed.

Lemma drop_label_length {A : Type} (label : string) (cols : list string) (r : list A) :
  List.length r = List.length cols ->
  List.length (drop_label label cols r)
  = List.length (filter (fun c => negb (String.eqb c label)) cols).
Proof.
  revert r. induction cols as [|c cols IH]; intros r Hlen; destruct r as [|y r];
    try discriminate; [reflexivity |]. simpl.
  destruct (String.eqb c label); simpl; rewrite IH; auto.
Qed.

(** What [clean_transaction_data] guarantees of the rows it returns. *)
Lemma clean_transaction_data_inv (df df1 : DataFrame cell) :
  well_formed df -> clean_transaction_data df = Return df1 ->
  well_formed df1
  /\ forall r, In r (rows df1) ->
       forallb notna r = true
       /\ is_valid_date (nth 0 r NaN) = true
       /\ is_valid_amount (last r NaN) = true.
Proof.
  intros Hwf. unfold clean_transaction_data, drop_second_column, dropna_rows.
  cbn [columns rows].
  destruct (columns df) as [|c0 [|label cs]] eqn:Hc; try discriminate.
  set (cols1 := filter (fun c => negb (String.eqb c label)) (c0 :: label :: cs)).
  unfold validity_filter. cbn [columns rows].
  destruct cols1 as [|c cols1'] eqn:Hcols1; [discriminate |].
  intros [= <-]. cbn [columns rows].
  rewrite select_map, map2_map, select_map.
  assert (Hin : forall r,
            In r (filter (fun x => is_valid_date (nth 0 x NaN) && is_valid_amount (last x NaN))
                    (map (drop_label label (c0 :: label :: cs))
                       (filter (forallb notna) (rows df)))) ->
            List.length r = List.length (c :: cols1')
            /\ forallb notna r = true
            /\ is_valid_date (nth 0 r NaN) = true
            /\ is_valid_amount (last r NaN) = true).
  { intros r Hr. apply filter_In in Hr as [Hr Hmask].
    apply andb_true_iff in Hmask as [Hd Ha].
    apply in_map_iff in Hr as (r0 & <- & Hr0). apply filter_In in Hr0 as [Hr0 Hna].
    split; [| split; [| auto]].
    - rewrite <- Hcols1. subst cols1. apply drop_label_length.
      unfold well_formed in Hwf. rewrite Forall_forall in Hwf. rewrite <- Hc. auto.
    - apply forallb_forall. intros x Hx. apply drop_label_In in Hx.
      rewrite forallb_forall in Hna. auto. }
  split.
  - unfold well_formed. cbn [columns rows]. apply Forall_forall.
    intros r Hr. apply (Hin r Hr).
  - intros r Hr. apply (Hin r Hr).
Qed.

(** X13.  [convert_data_types] cannot fail on what [clean_transaction_data]
    returns, when two columns at least are left: every row kept has a first
    cell that parses as a date and a last cell that is an amount, so the
    conversion returns, every date is a [Timestamp] (none is [NaT]) and
    every amount a [Decimal]. *)
Theorem convert_after_clean (df df1 : DataFrame cell) :
  well_formed df -> clean_transaction_data df = Return df1 ->
  (2 <= List.length (columns df1))%nat ->
  exists df2,
    convert_data_types df1 = Return df2
    /\ columns df2 = columns df1
    /\ Forall2 (fun r r2 =>
                  exists t s d,
                    to_datetime (nth 0 r NaN) = Return (OTs t)
                    /\ last r NaN = Str s /\ clean_amount s = Return d
                    /\ r2 = set_last (ODec d) (set_nth 0 (OTs t) (map obj_of_cell r)))
         (rows df1) (rows df2).
Proof.
  intros Hwf H1 Hcols.
  destruct (clean_transaction_data_inv df df1 Hwf H1) as [Hwf1 Hrows].
  pose proof (well_formed_rows df1 2 Hwf1 Hcols) as Hlen.
  assert (Hok : forall r, In r (rows df1) ->
            (exists t, to_datetime (nth 0 r NaN) = Return (OTs t))
            /\ exists s d, last r NaN = Str s /\ clean_amount s = Return d).
  { intros r Hr. destruct (Hrows r Hr) as (_ & Hd & Ha).
    apply is_valid_date_spec in Hd. apply is_valid_amount_spec in Ha as [d Ha].
    split; [exact Hd |].
    destruct (last r NaN) as [s|] eqn:Hl; [eauto | discriminate]. }
  destruct (convert_rows_total (rows df1)) as (dates & amounts & Hd & Ha).
  { intros r Hr. rewrite Forall_forall in Hlen. split; [auto |].
    destruct (Hok r Hr) as [[t Ht] Hamt]. eauto. }
  exists {| columns := columns df1;
            rows := map2 (fun r a => set_last (ODec a) r)
                      (map2 (fun r d => set_nth 0 d (map obj_of_cell r)) (rows df1) dates)
                      amounts |}.
  split; [| split; [reflexivity |]].
  - unfold convert_data_types. destruct (columns df1) as [|c cs]; [simpl in Hcols; lia |].
    now rewrite Hd, Ha.
  - cbn [rows]. eapply Forall2_impl; [| exact (convert_rows_spec _ _ _ Hlen Hd Ha)].
    intros r r2 Hr (o & s & d & Ho & Hs & Hc & ->).
    destruct (Hok r Hr) as [[t Ht] _]. rewrite Ht in Ho. injection Ho as <-.
    exists t, s, d. auto.
Qed.

Lemma convert_after_clean_witness :
  let df := mkDataFrame ["TRANS. DATE"; "POSTING DATE"; "DESCRIPTION"; "AMOUNT BAHT"]
              [ [Str ""; Str ""; Str "Starting Balance"; Str "1,000.00"];
                [Str "02/01/23"; Str "02/01/23"; Str "Purchase 1"; Str "2,000.00"] ] in
  exists df1 df2,
    well_formed df /\ clean_transaction_data df = Return df1
    /\ (2 <= List.length (columns df1))%nat
    /\ convert_data_types df1 = Return df2
    /\ rows df2 = [ [OTs (mkTimestamp 2023 1 2); OStr "Purchase 1";
                     ODec (mkDecimal false 200000 (-2))] ].
Proof.
  intros df.
  assert (Hwf : well_formed df) by (repeat constructor).
  eexists. 
  assert (H1 : clean_transaction_data df
               = Return (mkDataFrame ["TRANS. DATE"; "DESCRIPTION"; "AMOUNT BAHT"]
                           [ [Str "02/01/23"; Str "Purchase 1"; Str "2,000.00"] ]))
    by reflexivity.
  destruct (convert_after_clean df _ Hwf H1) as (df2 & H2 & _ & _); [simpl; lia |].
  exists df2. split; [exact Hwf |]. split; [exact H1 |]. split; [simpl; lia |].
  split; [exact H2 |].
  assert (E : Return df2 = convert_data_types
                (mkDataFrame ["TRANS. DATE"; "DESCRIPTION"; "AMOUNT BAHT"]
                   [ [Str "02/01/23"; Str "Purchase 1"; Str "2,000.00"] ]))
    by (symmetry; exact H2).
  vm_compute in E. injection E as ->. reflexivity.
Defined.

(* --------------------------------------------------------------------- *)
(** ** [flip_amount_sign]: negation *)
(* --------------------------------------------------------------------- *)

Lemma Decimal_neg_within (d : Decimal) :
  (d_int d < 10 ^ N.of_nat prec)%N ->
  Decimal_neg d = {| d_sign := if (d_int d =? 0)%N then false else negb (d_sign d);
                     d_int := d_int d;
                     d_exp := d_exp d |}.
Proof. intros H. unfold Decimal_neg. now apply _fix_id. Qed.

Lemma Dval_Decimal_neg (d : Decimal) :
  (d_int d < 10 ^ N.of_nat prec)%N -> (Dval (Decimal_neg d) == - Dval d)%Q.
Proof.
  intros H. rewrite (Decimal_neg_within d H). unfold Dval. cbn [d_exp].
  assert (Hs : signed_int {| d_sign := if (d_int d =? 0)%N then false else negb (d_sign d);
                             d_int := d_int d;
                             d_exp := d_exp d |} = (- signed_int d)%Z).
  { unfold signed_int. cbn [d_sign d_int].
    destruct (N.eqb_spec (d_int d) 0) as [E | _].
    - rewrite E. destruct (d_sign d); reflexivity.
    - destruct (d_sign d); simpl; lia. }
  rewrite Hs, inject_Z_opp. generalize (inject_Z 10 ^ d_exp d)%Q. intros p. ring.
Qed.

Lemma Decimal_neg_involutive (d : Decimal) :
  (d_int d < 10 ^ N.of_nat prec)%N -> (d_sign d = true -> d_int d <> 0%N) ->
  Decimal_neg (Decimal_neg d) = d.
Proof.
  intros H Hz. rewrite (Decimal_neg_within d H), Decimal_neg_within by exact H.
  cbn [d_sign d_int d_exp]. destruct d as [s n e]. cbn [d_sign d_int d_exp] in *. f_equal.
  destruct (N.eqb_spec n 0) as [E | _].
  - destruct s; [exfalso; now apply Hz | reflexivity].
  - apply negb_involutive.
Qed.

Lemma set_last_set_last {A : Type} (x y : A) (l : list A) :
  set_last y (set_last x l) = set_last y l.
Proof.
  destruct l as [|a l]; [reflexivity |]. unfold set_last at 2.
  destruct (removelast (a :: l) ++ [x]) as [|b l'] eqn:E.
  - destruct (removelast (a :: l)); discriminate.
  - unfold set_last. rewrite <- E, removelast_last. reflexivity.
Qed.

Lemma set_last_last {A : Type} (d : A) (l : list A) : set_last (last l d) l = l.
Proof.
  destruct l as [|a l]; [reflexivity |]. unfold set_last.
  symmetry. apply app_removelast_last. discriminate.
Qed.

Lemma map2_map_r {A B C : Type} (f : A -> B -> C) (h : A -> B) (l : list A) :
  map2 f l (map h l) = map (fun x => f x (h x)) l.
Proof. induction l as [|x l IH]; simpl; [reflexivity | now rewrite IH]. Qed.

Lemma flip_amount_sign_decimals (df : DataFrame obj) :
  columns df <> [] ->
  (forall r, In r (rows df) -> exists d, last r ONaN = ODec d) ->
  flip_amount_sign df
  = Return {| columns := columns df; rows := map negate_last (rows df) |}.
Proof.
  intros Hc Hrows. unfold flip_amount_sign.
  destruct (columns df) as [|c cs]; [congruence |].
  rewrite (mapM_ext_in _ (fun r => match last r ONaN with
                                   | ODec d => ODec (Decimal_neg d)
                                   | o => o
                                   end)).
  2:{ intros r Hr. destruct (Hrows r Hr) as [d ->]. reflexivity. }
  rewrite map2_map_r. do 2 f_equal. apply map_ext_in. intros r Hr.
  unfold negate_last. destruct (Hrows r Hr) as [d ->]. reflexivity.
Qed.

(** X14.  [flip_amount_sign] on a table whose amounts are decimals of at
    most 28 digits: it returns a table with the same labels and the same
    rows in number and order; each row keeps all its cells but the last,
    which becomes the decimal of the opposite value, with the same
    exponent. *)
Theorem flip_amount_sign_negates (df : DataFrame obj) :
  columns df <> [] ->
  (forall r, In r (rows df) ->
     exists d, last r ONaN = ODec d /\ (d_int d < 10 ^ N.of_nat prec)%N) ->
  exists df',
    flip_amount_sign df = Return df'
    /\ columns df' = columns df
    /\ Forall2 (fun r r' =>
                  exists d d',
                    last r ONaN = ODec d
                    /\ r' = removelast r ++ [ODec d']
                    /\ (Dval d' == - Dval d)%Q
                    /\ d_exp d' = d_exp d)
         (rows df) (rows df').
Proof.
  intros Hc Hrows. eexists. split; [| split].
  - apply flip_amount_sign_decimals; [exact Hc |].
    intros r Hr. destruct (Hrows r Hr) as (d & Hd & _). eauto.
  - reflexivity.
  - cbn [rows]. apply Forall2_map_self. intros r Hr.
    destruct (Hrows r Hr) as (d & Hd & Hp).
    exists d, (Decimal_neg d). split; [exact Hd |]. split; [| split].
    + unfold negate_last. rewrite Hd. unfold set_last.
      destruct r as [|x r]; [discriminate | reflexivity].
    + apply Dval_Decimal_neg, Hp.
    + apply Decimal_neg_exp, Hp.
Qed.

Lemma flip_amount_sign_negates_witness :
  let df := mkDataFrame ["TRANS. DATE"; "DESCRIPTION"; "AMOUNT BAHT"]
              [ [OTs (mkTimestamp 2023 1 2); OStr "Coffee"; ODec (mkDecimal false 4500 (-2))];
                [OTs (mkTimestamp 2023 1 3); OStr "Refund"; ODec (mkDecimal true 500 (-2))] ] in
  columns df <> []
  /\ (forall r, In r (rows df) ->
        exists d, last r ONaN = ODec d /\ (d_int d < 10 ^ N.of_nat prec)%N)
  /\ exists df', flip_amount_sign df = Return df' /\ columns df' = columns df.
Proof.
  intros df.
  assert (Hc : columns df <> []) by discriminate.
  assert (Hrows : forall r, In r (rows df) ->
            exists d, last r ONaN = ODec d /\ (d_int d < 10 ^ N.of_nat prec)%N).
  { intros r [<- | [<- | []]]; eexists; (split; [reflexivity | reflexivity]). }
  split; [exact Hc |]. split; [exact Hrows |].
  destruct (flip_amount_sign_negates df Hc Hrows) as (df' & H & Hcols & _).
  exists df'. auto.
Defined.

(** X15.  Flipping twice gives the table back, when the amounts are
    decimals of at most 28 digits and none is a negative zero (the first
    flip turns a negative zero into the positive zero). *)
Theorem flip_amount_sign_twice (df : DataFrame obj) :
  columns df <> [] ->
  (forall r, In r (rows df) ->
     exists d, last r ONaN = ODec d /\ (d_int d < 10 ^ N.of_nat prec)%N
               /\ (d_sign d = true -> d_int d <> 0%N)) ->
  exists df', flip_amount_sign df = Return df' /\ flip_amount_sign df' = Return df.
Proof.
  intros Hc Hrows. eexists. split.
  - apply flip_amount_sign_decimals; [exact Hc |].
    intros r Hr. destruct (Hrows r Hr) as (d & Hd & _). eauto.
  - assert (Hlast : forall r, In r (rows df) ->
              exists d, last r ONaN = ODec d
                        /\ last (negate_last r) ONaN = ODec (Decimal_neg d)).
    { intros r Hr. destruct (Hrows r Hr) as (d & Hd & _). exists d. split; [exact Hd |].
      unfold negate_last. rewrite Hd. apply last_set_last. intros ->. discriminate. }
    rewrite flip_amount_sign_decimals; cbn [columns rows].
    + transitivity (Return {| columns := columns df; rows := rows df |});
        [| now destruct df].
      do 2 f_equal. rewrite map_map. rewrite <- (map_id (rows df)) at 2.
      apply map_ext_in. intros r Hr.
      destruct (Hrows r Hr) as (d & Hd & Hp & Hz).
      destruct (Hlast r Hr) as (d0 & Hd0 & Hl). rewrite Hd in Hd0. injection Hd0 as <-.
      unfold negate_last at 1. rewrite Hl.
      unfold negate_last. rewrite Hd, set_last_set_last.
      rewrite (Decimal_neg_involutive d Hp Hz), <- Hd. apply set_last_last.
    + exact Hc.
    + intros r' Hr'. apply in_map_iff in Hr' as (r & <- & Hr).
      destruct (Hlast r Hr) as (d & _ & Hl). eauto.
Qed.

Lemma flip_amount_sign_twice_witness :
  let df := mkDataFrame ["TRANS. DATE"; "DESCRIPTION"; "AMOUNT BAHT"]
              [ [OTs (mkTimestamp 2023 1 2); OStr "Coffee"; ODec (mkDecimal false 4500 (-2))];
                [OTs (mkTimestamp 2023 1 3); OStr "Refund"; ODec (mkDecimal true 500 (-2))] ] in
  columns df <> []
  /\ (forall r, In r (rows df) ->
        exists d, last r ONaN = ODec d /\ (d_int d < 10 ^ N.of_nat prec)%N
                  /\ (d_sign d = true -> d_int d <> 0%N))
  /\ exists df', flip_amount_sign df = Return df' /\ flip_amount_sign df' = Return df.
Proof.
  intros df.
  assert (Hc : columns df <> []) by discriminate.
  assert (Hrows : forall r, In r (rows df) ->
            exists d, last r ONaN = ODec d /\ (d_int d < 10 ^ N.of_nat prec)%N
                      /\ (d_sign d = true -> d_int d <> 0%N)).
  { intros r [<- | [<- | []]]; eexists;
      (split; [reflexivity | split; [reflexivity | intros _; discriminate]]). }
  split; [exact Hc |]. split; [exact Hrows |].
  exact (flip_amount_sign_twice df Hc Hrows).
Defined.

(* --------------------------------------------------------------------- *)
(** ** The path of the exported file *)
(* --------------------------------------------------------------------- *)

Lemma rsplit_None (c : ascii) (s : string) :
  rsplit c s = None <-> str_forallb (fun x => negb (Ascii.eqb x c)) s = true.
Proof.
  induction s as [|x s IH]; simpl; [tauto |].
  destruct (rsplit c s) as [[a b]|].
  - split; [discriminate |]. intros H. apply andb_true_iff in H as [_ H].
    apply IH in H. discriminate.
  - destruct (Ascii.eqb x c); simpl.
    + split; discriminate.
    + split; [intros _; now apply IH | reflexivity].
Qed.

Lemma rsplit_Some (c : ascii) (s a b : string) :
  rsplit c s = Some (a, b) ->
  s = (a ++ String c b)%string /\ str_forallb (fun x => negb (Ascii.eqb x c)) b = true.
Proof.
  revert a. induction s as [|x s IH]; intros a; simpl; [discriminate |].
  destruct (rsplit c s) as [[a' b']|] eqn:Hs.
  - intros [= <- <-]. destruct (IH a' eq_refl) as [-> Hb]. auto.
  - destruct (Ascii.eqb_spec x c) as [-> | _]; [| discriminate].
    intros [= <- <-]. split; [reflexivity | now apply rsplit_None].
Qed.

Lemma rsplit_app (c : ascii) (a b : string) :
  str_forallb (fun x => negb (Ascii.eqb x c)) b = true ->
  rsplit c (a ++ String c b) = Some (a, b).
Proof.
  intros Hb. induction a as [|x a IH]; simpl.
  - apply rsplit_None in Hb. rewrite Hb. now rewrite Ascii.eqb_refl.
  - now rewrite IH.
Qed.

Lemma basename_no_separator (p : string) :
  str_forallb (fun x => negb (Ascii.eqb x "/")) (basename p) = true.
Proof.
  unfold basename. destruct (rsplit "/" p) as [[a b]|] eqn:H.
  - apply (rsplit_Some _ _ _ _ H).
  - now apply rsplit_None.
Qed.

Lemma basename_of_name (name : string) :
  str_forallb (fun x => negb (Ascii.eqb x "/")) name = true -> basename name = name.
Proof. intros H. unfold basename. apply rsplit_None in H. now rewrite H. Qed.

Lemma basename_idempotent (p : string) : basename (basename p) = basename p.
Proof. apply basename_of_name, basename_no_separator. Qed.

Lemma basename_in_folder (folder name : string) :
  folder = "" \/ str_last folder = Some "/"%char ->
  str_forallb (fun x => negb (Ascii.eqb x "/")) name = true ->
  basename (folder ++ name) = name.
Proof.
  intros [-> | Hf] Hn; [now apply basename_of_name |].
  assert (E : exists f0, folder = (f0 ++ "/")%string).
  { clear Hn. induction folder as [|x f IH]; [discriminate |].
    destruct f as [|y f].
    - injection Hf as ->. now exists "".
    - destruct IH as [f0 E]; [exact Hf |]. exists (String x f0). simpl in *. now rewrite E. }
  destruct E as [f0 ->]. rewrite str_app_assoc. cbn [append].
  unfold basename. now rewrite rsplit_app.
Qed.

Lemma splitext_root_prefix (name : string) :
  exists ext, name = (splitext_root name ++ ext)%string.
Proof.
  unfold splitext_root. destruct (rsplit "." name) as [[root e]|] eqn:H.
  - destruct (str_forallb _ root).
    + exists "". now rewrite str_app_nil_r.
    + exists (String "." e). apply (rsplit_Some _ _ _ _ H).
  - exists "". now rewrite str_app_nil_r.
Qed.

Lemma splitext_root_ext (name ext : string) :
  str_forallb (fun c => Ascii.eqb c ".") name = false ->
  str_forallb (fun c => negb (Ascii.eqb c ".")) ext = true ->
  splitext_root (name ++ String "." ext) = name.
Proof.
  intros Hn He. unfold splitext_root. now rewrite (rsplit_app "." name ext He), Hn.
Qed.

Lemma path_join_relative (a b : string) :
  startswith b "/" = false ->
  path_join a b = (a ++ b)%string \/ path_join a b = (a ++ "/" ++ b)%string.
Proof.
  intros H. unfold path_join. rewrite H.
  destruct (is_empty a || _); auto.
Qed.

Lemma startswith_separator (s : string) :
  str_forallb (fun x => negb (Ascii.eqb x "/")) s = true -> startswith s "/" = false.
Proof.
  destruct s as [|c s]; [reflexivity |]. cbn [str_forallb startswith].
  intros H. apply andb_true_iff in H as [H _]. apply negb_true_iff in H.
  rewrite Ascii.eqb_sym, H. reflexivity.
Qed.

(** X16.  The path of the exported file.  For an original file name
    [folder ++ name ++ "." ++ ext] (the folder empty or ending in the
    separator, [name] without separator and not made of dots only, [ext]
    without dot and separator) and an output directory that is not empty
    and does not end in the separator, [save_to_csv] writes exactly one
    file, [name ++ ".csv"] in the output directory, and the file is the
    table as [to_csv] gives it. *)
Theorem save_to_csv_path (df : DataFrame obj) (output_dir folder name ext : string) :
  str_forallb (fun c => negb (Ascii.eqb c "/")) name = true ->
  str_forallb (fun c => Ascii.eqb c ".") name = false ->
  str_forallb (fun c => negb (Ascii.eqb c "/")) ext = true ->
  str_forallb (fun c => negb (Ascii.eqb c ".")) ext = true ->
  folder = "" \/ str_last folder = Some "/"%char ->
  output_dir <> "" -> str_last output_dir <> Some "/"%char ->
  files_written (fst (save_to_csv df output_dir (folder ++ name ++ String "." ext)))
  = [ ((output_dir ++ "/" ++ name ++ ".csv")%string, to_csv df) ].
Proof.
  intros Hname Hdots Hext Hext' Hfolder Hdir Hlast.
  unfold save_to_csv. cbn [emit tbind fst app files_written flat_map].
  rewrite basename_in_folder; [| exact Hfolder |].
  2:{ rewrite str_forallb_app. cbn [str_forallb]. now rewrite Hname, Hext. }
  rewrite (splitext_root_ext name ext Hdots Hext').
  do 2 f_equal. unfold path_join.
  rewrite startswith_separator.
  2:{ rewrite str_forallb_app, Hname. reflexivity. }
  destruct output_dir as [|c o]; [congruence |]. cbn [is_empty orb].
  destruct (str_last (String c o)) as [l|] eqn:Hl; [| reflexivity].
  destruct (Ascii.eqb_spec l "/") as [-> | _]; [congruence | reflexivity].
Qed.

Lemma save_to_csv_path_witness :
  files_written
    (fst (save_to_csv (mkDataFrame ["AMOUNT"] [ [ODec (mkDecimal false 100 (-2))] ])
            "output" ("statements/2023/" ++ "jan.2023" ++ String "." "pdf")))
  = [ ("output/jan.2023.csv",
       to_csv (mkDataFrame ["AMOUNT"] [ [ODec (mkDecimal false 100 (-2))] ])) ].
Proof.
  apply (save_to_csv_path _ "output" "statements/2023/" "jan.2023" "pdf");
    try reflexivity.
  - right. reflexivity.
  - discriminate.
  - discriminate.
Defined.

(** X17.  The exported file is always directly in the output directory.
    Whatever the original file name, [save_to_csv] writes one file, at
    [os.path.join(output_dir, file_name)] for a [file_name] that ends in
    [.csv] and holds no separator: the path is the output directory
    followed by the file name, with at most one separator added between
    them. *)
Theorem save_to_csv_in_output_dir (df : DataFrame obj)
    (output_dir original_filename : string) :
  exists file_name base,
    files_written (fst (save_to_csv df output_dir original_filename))
    = [ (path_join output_dir file_name, to_csv df) ]
    /\ file_name = (base ++ ".csv")%string
    /\ str_forallb (fun c => negb (Ascii.eqb c "/")) file_name = true
    /\ (path_join output_dir file_name = (output_dir ++ file_name)%string
        \/ path_join output_dir file_name = (output_dir ++ "/" ++ file_name)%string).
Proof.
  set (base := splitext_root (basename original_filename)).
  exists (base ++ ".csv")%string, base.
  assert (Hbase : str_forallb (fun c => negb (Ascii.eqb c "/")) base = true).
  { destruct (splitext_root_prefix (basename original_filename)) as [e He].
    pose proof (basename_no_separator original_filename) as H.
    rewrite He, str_forallb_app in H. now apply andb_true_iff in H as [H _]. }
  assert (Hfile : str_forallb (fun c => negb (Ascii.eqb c "/")) (base ++ ".csv") = true)
    by (rewrite str_forallb_app, Hbase; reflexivity).
  split; [reflexivity |]. split; [reflexivity |]. split; [exact Hfile |].
  apply path_join_relative, startswith_separator, Hfile.
Qed.

(** X18.  A run of [process_pdf] writes at most one file, and the path of
    the file depends on the output directory and on the last component of
    [original_path] only. *)
Theorem process_pdf_one_file (converted : result (list (DataFrame cell)))
    (output_dir original_path : string) :
  files_written (process_pdf converted output_dir original_path) = []
  \/ exists content,
       files_written (process_pdf converted output_dir original_path)
       = [ (path_join output_dir (splitext_root (basename original_path) ++ ".csv"),
            content) ].
Proof.
  unfold process_pdf, process_tables, lift, call, emit, tbind, save_to_csv.
  cbv zeta.
  destruct converted as [tables | e0]; cbn [app]; [| now left].
  destruct tables as [|t0 ts]; [now left |].
  destruct (transaction_tables (t0 :: ts) 1) as [|d0 ds]; [now left |].
  destruct (first_row_last_cell (concat (d0 :: ds))) as [c0 | e1]; [| now left].
  destruct (clean_amount_cell c0) as [starting | e1]; [| now left].
  destruct (last_row_last_cell (concat (d0 :: ds))) as [c1 | e1]; [| now left].
  destruct (clean_amount_cell c1) as [ending | e1]; [| now left].
  destruct (clean_transaction_data (concat (d0 :: ds))) as [df1 | e1]; [| now left].
  destruct (convert_data_types df1) as [df2 | e1]; [| now left].
  destruct (validate_transaction_totals df2 starting ending) as [[] | e1]; [| now left].
  destruct (filter_payment_transactions df2) as [df3 | e1]; [| now left].
  destruct (flip_amount_sign df3) as [df4 | e1]; [| now left].
  right. exists (to_csv df4). cbn [app files_written flat_map].
  now rewrite basename_idempotent.
Qed.

(* --------------------------------------------------------------------- *)
(** ** [process_pdf]: which tables count *)
(* --------------------------------------------------------------------- *)



Lemma process_pdf_files (tables : list (DataFrame cell)) (output_dir original_path : string) :
  files_written (process_pdf (Return tables) output_dir original_path)
  = files_written (fst (process_tables tables output_dir original_path)).
Proof.
  unfold process_pdf. cbn [lift tbind].
  destruct (process_tables tables output_dir original_path) as [trace [[]|e]];
    cbn [app fst]; rewrite ?app_nil_l; [reflexivity |].
  unfold files_written. rewrite flat_map_app. cbn [flat_map]. apply app_nil_r.
Qed.


Lemma reindex_row_missing (all_cols cols : list string) (r : list cell) (c : string) :
  In c all_cols -> ~ In c cols -> forallb notna (reindex_row all_cols cols r) = false.
Proof.
  intros Hall Hc. unfold reindex_row.
  destruct (forallb notna _) eqn:E; [| reflexivity].
  rewrite forallb_forall in E.
  assert (Hin : In NaN (map (fun c0 => match index_of c0 cols with
                                       | Some j => nth j r NaN
                                       | None => NaN
                                       end) all_cols)).
  { apply in_map_iff. exists c. split; [| exact Hall].
    now rewrite (proj2 (index_of_None c cols) Hc). }
  specialize (E NaN Hin). discriminate.
Qed.

Lemma label_outside (all_cols cols : list string) :
  NoDup all_cols -> (List.length cols < List.length all_cols)%nat ->
  exists c, In c all_cols /\ ~ In c cols.
Proof.
  intros Hnd Hlen.
  destruct (existsb (fun c => negb (existsb (String.eqb c) cols)) all_cols) eqn:E.
  - apply existsb_exists in E as (c & Hc & Hn). exists c. split; [exact Hc |].
    intros H. apply existsb_eqb_In in H. rewrite H in Hn. discriminate.
  - exfalso.
    assert (Hincl : incl all_cols cols).
    { intros c Hc. apply existsb_eqb_In.
      destruct (existsb (String.eqb c) cols) eqn:Ec; [reflexivity |].
      assert (Hex : existsb (fun c => negb (existsb (String.eqb c) cols)) all_cols = true).
      { apply existsb_exists. exists c. split; [exact Hc | now rewrite Ec]. }
      congruence. }
    pose proof (NoDup_incl_length Hnd Hincl). lia.
Qed.

Lemma filter_none {A : Type} (p : A -> bool) (l : list A) :
  (forall x, In x l -> p x = false) -> filter p l = [].
Proof.
  induction l as [|x l IH]; intros H; [reflexivity |]. simpl.
  rewrite (H x (or_introl eq_refl)). apply IH. intros y Hy. apply H. now right.
Qed.

(** When the union of the labels has more than four labels, every row of
    the combined table has a missing cell. *)
Lemma combined_rows_missing (tables : list (DataFrame cell)) (i : nat) :
  List.length (columns (concat (transaction_tables tables i))) <> 4%nat ->
  rows (dropna_rows (concat (transaction_tables tables i))) = [].
Proof.
  intros Hlen. unfold dropna_rows. cbn [rows]. rewrite select_map.
  apply filter_none. intros r Hr.
  unfold concat in Hr, Hlen |- *. cbn [rows columns] in *.
  apply in_flat_map in Hr as (t & Ht & Hr). apply in_map_iff in Hr as (r0 & <- & _).
  pose proof (transaction_tables_four tables i) as H4.
  pose proof (transaction_tables_NoDup tables i) as Hnd.
  rewrite Forall_forall in H4, Hnd.
  pose proof (union_columns_NoDup _ (transaction_tables_NoDup tables i)) as Hu.
  pose proof (NoDup_incl_length (Hnd t Ht) (union_columns_incl _ t Ht)) as Hle.
  rewrite (H4 t Ht) in Hle.
  destruct (label_outside (union_columns (transaction_tables tables i)) (columns t) Hu)
    as (c & Hc & Hn); [rewrite (H4 t Ht); lia |].
  exact (reindex_row_missing _ _ r0 c Hc Hn).
Qed.

Lemma clean_transaction_data_no_rows (df df1 : DataFrame cell) :
  rows (dropna_rows df) = [] -> clean_transaction_data df = Return df1 -> rows df1 = [].
Proof.
  intros H0. unfold clean_transaction_data, drop_second_column.
  destruct (columns (dropna_rows df)) as [|c0 [|label cs]]; try discriminate.
  rewrite H0. unfold validity_filter. cbn [columns rows map].
  destruct (filter _ (c0 :: label :: cs)); [discriminate |].
  intros [= <-]. reflexivity.
Qed.

Lemma convert_data_types_no_rows (df1 : DataFrame cell) (df2 : DataFrame obj) :
  rows df1 = [] -> convert_data_types df1 = Return df2 -> rows df2 = [].
Proof.
  intros H0. unfold convert_data_types. destruct (columns df1); [discriminate |].
  rewrite H0. cbn [mapM map2]. intros [= <-]. reflexivity.
Qed.

(** X20.  Transaction tables whose labels differ export nothing.  When
    the labels of the transaction tables of the document are not the same
    four labels (their union has more than four), every row of the
    combined table has a cell that [pd.concat] filled with the missing
    value, [clean_transaction_data] drops every row, and a file the run
    writes has no record. *)
Theorem mixed_headers_export_no_record (tables : list (DataFrame cell))
    (output_dir original_path path : string) (content : CsvFile) :
  In (path, content)
     (files_written (process_pdf (Return tables) output_dir original_path)) ->
  List.length (columns (concat (transaction_tables tables 1))) <> 4%nat ->
  csv_records content = [].
Proof.
  intros Hfile Hlen.
  destruct (export_inversion _ _ _ _ _ Hfile)
    as (tables' & starting & ending & df1 & df2 & df3 & df4
        & [= <-] & H1 & H2 & _ & H4 & H5 & ->).
  apply (clean_transaction_data_no_rows _ _ (combined_rows_missing tables 1 Hlen)) in H1.
  apply (convert_data_types_no_rows _ _ H1) in H2.
  apply filter_payment_transactions_incl in H4 as [_ Hincl].
  rewrite H2 in Hincl. apply incl_l_nil in Hincl.
  apply flip_amount_sign_rows in H5 as [_ HF]. rewrite Hincl in HF.
  apply Forall2_length in HF. cbn [to_csv csv_records].
  destruct (rows df4); [reflexivity | discriminate HF].
Qed.

Lemma mixed_headers_export_no_record_witness :
  let tables :=
    [ mkDataFrame ["TRANS. DATE"; "POSTING DATE"; "DESCRIPTION"; "AMOUNT BAHT"] [];
      mkDataFrame ["TRANS. DATE"; "POSTING DATE"; "DESCRIPTION"; "AMOUNT (BAHT)"]
        [ [Str "02/01/23"; Str "02/01/23"; Str "Coffee"; Str "45.00"] ] ] in
  let content :=
    mkCsvFile BOM ["TRANS. DATE"; "DESCRIPTION"; "AMOUNT BAHT"; "AMOUNT (BAHT)"] [] in
  In ("output/statement.csv", content)
     (files_written (process_pdf (Return tables) "output" "statement.pdf"))
  /\ List.length (columns (concat (transaction_tables tables 1))) <> 4%nat
  /\ csv_records content = [].
Proof.
  intros tables content.
  assert (H : In ("output/statement.csv", content)
                 (files_written (process_pdf (Return tables) "output" "statement.pdf")))
    by (vm_compute; tauto).
  assert (Hlen : List.length (columns (concat (transaction_tables tables 1))) <> 4%nat)
    by (vm_compute; discriminate).
  split; [exact H |]. split; [exact Hlen |].
  exact (mixed_headers_export_no_record tables _ _ _ _ H Hlen).
Defined.

(* --------------------------------------------------------------------- *)
(** ** The dates [is_valid_date] accepts *)
(* --------------------------------------------------------------------- *)













(* --------------------------------------------------------------------- *)
(** ** [process_pdf]: the records of the exported file *)
(* --------------------------------------------------------------------- *)













Lemma clean_columns_no_rows (df : DataFrame cell) :
  rows df = [] -> rows (clean_columns df) = [].
Proof.
  intros H. unfold clean_columns. apply clean_columns_from_no_rows.
  cbn [rows]. now rewrite H.
Qed.

Lemma transaction_tables_no_rows (tables : list (DataFrame cell)) (i : nat) :
  Forall (fun t => rows t = []) tables ->
  Forall (fun t => rows t = []) (transaction_tables tables i).
Proof.
  revert i. induction tables as [|t tables IH]; intros i H; simpl; [constructor |].
  apply Forall_cons_iff in H as [Ht H].
  destruct (negb (validate_transaction_table_columns (clean_columns t) i));
    [now apply IH |].
  constructor; [now apply clean_columns_no_rows | now apply IH].
Qed.

Lemma concat_no_rows (dfs : list (DataFrame cell)) :
  Forall (fun t => rows t = []) dfs -> rows (concat dfs) = [].
Proof.
  intros H. unfold concat. cbn [rows]. generalize (union_columns dfs) as all_cols.
  intros all_cols. induction H as [|t dfs Ht H IH]; [reflexivity |]. cbn [flat_map].
  now rewrite Ht, IH.
Qed.

(** X24.  Tables without rows: when no table of the document has a row,
    the run writes no file (reading the starting balance raises
    [IndexError], which [process_pdf] catches). *)
Theorem process_pdf_no_rows (tables : list (DataFrame cell))
    (output_dir original_path : string) :
  Forall (fun t => rows t = []) tables ->
  files_written (process_pdf (Return tables) output_dir original_path) = [].
Proof.
  intros H. rewrite process_pdf_files. unfold process_tables.
  destruct tables as [|t0 ts]; [reflexivity |]. cbv zeta.
  pose proof (concat_no_rows _ (transaction_tables_no_rows (t0 :: ts) 1 H)) as Hrows.
  destruct (transaction_tables (t0 :: ts) 1) as [|d0 ds]; [reflexivity |].
  unfold lift, tbind, emit, first_row_last_cell. rewrite Hrows.
  destruct (columns (concat (d0 :: ds))); reflexivity.
Qed.

Lemma process_pdf_no_rows_witness :
  let tables :=
    [ mkDataFrame ["TRANS. DATE"; "POSTING DATE"; "DESCRIPTION"; "AMOUNT BAHT"] [] ] in
  Forall (fun t : DataFrame cell => rows t = []) tables
  /\ files_written (process_pdf (Return tables) "output" "statement.pdf") = [].
Proof.
  intros tables.
  assert (H : Forall (fun t : DataFrame cell => rows t = []) tables) by (repeat constructor).
  split; [exact H | exact (process_pdf_no_rows tables _ _ H)].
Defined.
